(** * Health tracker of the RPC gateway (health/tracker.go)

    A shallow embedding of the [Tracker] of [health/tracker.go]: the two
    key→record stores, the key expansion, the cordon flag, the windowed
    reset and the block-number watermark / lag cascade, followed by the
    properties of the specification that concern them.

    Modelling conventions.
    - The program is read sequentially: one operation runs to its end
      before the next one starts.  The [sync.Map] stores become finite
      maps ([gmap]); a [*TrackedMetrics] or [*NetworkMetadata] pointer is
      identified with the key under which the store holds it (no two keys
      ever share a record), so a store through a pointer is an [alter] of
      the map at that key.
    - An [int64] is a [Z]; the arithmetic of the code ([Add], [-]) is
      written with its two's-complement wrap-around ([wrap64]).
    - A [float64] is an IEEE-754 binary64 value ([spec_float] at precision
      53 and maximal exponent 1024).
    - The logger and the telemetry gauges are sinks outside the tracker;
      writes to them are left out. *)

From Stdlib Require Import ZArith Floats.SpecFloat.
From stdpp Require Import gmap strings list fin_maps.

Local Open Scope Z_scope.

(** ** int64 *)

Definition min_int64 : Z := - 2 ^ 63.
Definition max_int64 : Z := 2 ^ 63 - 1.

Definition int64_range (z : Z) : Prop := min_int64 ≤ z ≤ max_int64.

Definition wrap64 (z : Z) : Z := (z + 2 ^ 63) `mod` 2 ^ 64 - 2 ^ 63.

Definition add64 (a b : Z) : Z := wrap64 (a + b).
Definition sub64 (a b : Z) : Z := wrap64 (a - b).

(** ** float64 *)

Definition float64 : Type := spec_float.

Definition float64_zero : float64 := S754_zero false.

(** The conversion [float64(x)] of an [int64]: round to nearest, ties to
    even. *)
Definition float64_of_int64 (z : Z) : float64 :=
  binary_normalize 53 1024 z 0 false.

Definition float64_div (a b : float64) : float64 := SFdiv 53 1024 a b.

(** ** Key types *)

Record tripletKey : Type := TripletKey {
  tk_ups : string;
  tk_network : string;
  tk_method : string
}.

Record duoKey : Type := DuoKey {
  dk_ups : string;
  dk_network : string
}.

#[global] Instance tripletKey_eq_dec : EqDecision tripletKey.
Proof. solve_decision. Defined.

#[global] Instance duoKey_eq_dec : EqDecision duoKey.
Proof. solve_decision. Defined.

Definition tripletKey_to_tuple (k : tripletKey) : string * string * string :=
  (tk_ups k, tk_network k, tk_method k).

Definition tripletKey_of_tuple (p : string * string * string) : tripletKey :=
  TripletKey p.1.1 p.1.2 p.2.

Lemma tripletKey_of_to_tuple (k : tripletKey) :
  tripletKey_of_tuple (tripletKey_to_tuple k) = k.
Proof. by destruct k. Qed.

#[global] Instance tripletKey_countable : Countable tripletKey :=
  inj_countable' tripletKey_to_tuple tripletKey_of_tuple tripletKey_of_to_tuple.

Definition duoKey_to_tuple (k : duoKey) : string * string :=
  (dk_ups k, dk_network k).

Definition duoKey_of_tuple (p : string * string) : duoKey :=
  DuoKey p.1 p.2.

Lemma duoKey_of_to_tuple (k : duoKey) :
  duoKey_of_tuple (duoKey_to_tuple k) = k.
Proof. by destruct k. Qed.

#[global] Instance duoKey_countable : Countable duoKey :=
  inj_countable' duoKey_to_tuple duoKey_of_tuple duoKey_of_to_tuple.

(** ** Network metadata *)

Record NetworkMetadata : Type := mkNetworkMetadata {
  evmLatestBlockNumber : Z;
  evmFinalizedBlockNumber : Z
}.

(** The zero value [&NetworkMetadata{}]. *)
Definition newNetworkMetadata : NetworkMetadata :=
  {| evmLatestBlockNumber := 0; evmFinalizedBlockNumber := 0 |}.

Definition store_evmLatestBlockNumber (v : Z) (nm : NetworkMetadata)
  : NetworkMetadata :=
  {| evmLatestBlockNumber := v;
     evmFinalizedBlockNumber := evmFinalizedBlockNumber nm |}.

Definition store_evmFinalizedBlockNumber (v : Z) (nm : NetworkMetadata)
  : NetworkMetadata :=
  {| evmLatestBlockNumber := evmLatestBlockNumber nm;
     evmFinalizedBlockNumber := v |}.

(** ** Quantile accumulator *)

(** Modelled from the spec: the [QuantileTracker] type and
    [NewQuantileTracker] are not in [health/tracker.go].  The
    specification gives it as an accumulator that accepts scalar latency
    samples and supports reset; it is kept here as the list of samples
    accepted since the last reset, a sample being the duration handed to
    [RecordUpstreamDuration] (in nanoseconds). *)
Definition QuantileTracker : Type := list Z.

Definition NewQuantileTracker : QuantileTracker := [].

Definition QuantileTracker_Add (sample : Z) (q : QuantileTracker)
  : QuantileTracker := sample :: q.

Definition QuantileTracker_Reset (q : QuantileTracker) : QuantileTracker := [].

(** ** TrackedMetrics *)

(** [CordonedReason] is an [atomic.Value]: it holds nothing ([None]) until
    the first [Store]. *)
Record TrackedMetrics : Type := mkTrackedMetrics {
  ResponseQuantiles : QuantileTracker;
  ErrorsTotal : Z;
  SelfRateLimitedTotal : Z;
  RemoteRateLimitedTotal : Z;
  RequestsTotal : Z;
  BlockHeadLag : Z;
  FinalizationLag : Z;
  BlockHeadLargeRollback : Z;
  Cordoned : bool;
  CordonedReason : option string
}.

Definition with_ResponseQuantiles (f : QuantileTracker → QuantileTracker)
    (m : TrackedMetrics) : TrackedMetrics :=
  mkTrackedMetrics (f (ResponseQuantiles m)) (ErrorsTotal m)
    (SelfRateLimitedTotal m) (RemoteRateLimitedTotal m) (RequestsTotal m)
    (BlockHeadLag m) (FinalizationLag m) (BlockHeadLargeRollback m)
    (Cordoned m) (CordonedReason m).

Definition with_ErrorsTotal (f : Z → Z) (m : TrackedMetrics) : TrackedMetrics :=
  mkTrackedMetrics (ResponseQuantiles m) (f (ErrorsTotal m))
    (SelfRateLimitedTotal m) (RemoteRateLimitedTotal m) (RequestsTotal m)
    (BlockHeadLag m) (FinalizationLag m) (BlockHeadLargeRollback m)
    (Cordoned m) (CordonedReason m).

Definition with_SelfRateLimitedTotal (f : Z → Z) (m : TrackedMetrics)
  : TrackedMetrics :=
  mkTrackedMetrics (ResponseQuantiles m) (ErrorsTotal m)
    (f (SelfRateLimitedTotal m)) (RemoteRateLimitedTotal m) (RequestsTotal m)
    (BlockHeadLag m) (FinalizationLag m) (BlockHeadLargeRollback m)
    (Cordoned m) (CordonedReason m).

Definition with_RemoteRateLimitedTotal (f : Z → Z) (m : TrackedMetrics)
  : TrackedMetrics :=
  mkTrackedMetrics (ResponseQuantiles m) (ErrorsTotal m)
    (SelfRateLimitedTotal m) (f (RemoteRateLimitedTotal m)) (RequestsTotal m)
    (BlockHeadLag m) (FinalizationLag m) (BlockHeadLargeRollback m)
    (Cordoned m) (CordonedReason m).

Definition with_RequestsTotal (f : Z → Z) (m : TrackedMetrics)
  : TrackedMetrics :=
  mkTrackedMetrics (ResponseQuantiles m) (ErrorsTotal m)
    (SelfRateLimitedTotal m) (RemoteRateLimitedTotal m) (f (RequestsTotal m))
    (BlockHeadLag m) (FinalizationLag m) (BlockHeadLargeRollback m)
    (Cordoned m) (CordonedReason m).

Definition with_BlockHeadLag (f : Z → Z) (m : TrackedMetrics)
  : TrackedMetrics :=
  mkTrackedMetrics (ResponseQuantiles m) (ErrorsTotal m)
    (SelfRateLimitedTotal m) (RemoteRateLimitedTotal m) (RequestsTotal m)
    (f (BlockHeadLag m)) (FinalizationLag m) (BlockHeadLargeRollback m)
    (Cordoned m) (CordonedReason m).

Definition with_FinalizationLag (f : Z → Z) (m : TrackedMetrics)
  : TrackedMetrics :=
  mkTrackedMetrics (ResponseQuantiles m) (ErrorsTotal m)
    (SelfRateLimitedTotal m) (RemoteRateLimitedTotal m) (RequestsTotal m)
    (BlockHeadLag m) (f (FinalizationLag m)) (BlockHeadLargeRollback m)
    (Cordoned m) (CordonedReason m).

Definition with_BlockHeadLargeRollback (f : Z → Z) (m : TrackedMetrics)
  : TrackedMetrics :=
  mkTrackedMetrics (ResponseQuantiles m) (ErrorsTotal m)
    (SelfRateLimitedTotal m) (RemoteRateLimitedTotal m) (RequestsTotal m)
    (BlockHeadLag m) (FinalizationLag m) (f (BlockHeadLargeRollback m))
    (Cordoned m) (CordonedReason m).

Definition with_Cordoned (f : bool → bool) (m : TrackedMetrics)
  : TrackedMetrics :=
  mkTrackedMetrics (ResponseQuantiles m) (ErrorsTotal m)
    (SelfRateLimitedTotal m) (RemoteRateLimitedTotal m) (RequestsTotal m)
    (BlockHeadLag m) (FinalizationLag m) (BlockHeadLargeRollback m)
    (f (Cordoned m)) (CordonedReason m).

Definition with_CordonedReason (f : option string → option string)
    (m : TrackedMetrics) : TrackedMetrics :=
  mkTrackedMetrics (ResponseQuantiles m) (ErrorsTotal m)
    (SelfRateLimitedTotal m) (RemoteRateLimitedTotal m) (RequestsTotal m)
    (BlockHeadLag m) (FinalizationLag m) (BlockHeadLargeRollback m)
    (Cordoned m) (f (CordonedReason m)).

(** [x.Store(v)] and [x.Add(d)] on an atomic field. *)
Definition Store {A : Type} (v : A) : A → A := λ _, v.
Definition Add (d : Z) : Z → Z := λ v, add64 v d.

Definition ErrorRate (m : TrackedMetrics) : float64 :=
  let reqs := RequestsTotal m in
  if decide (reqs = 0) then float64_zero
  else float64_div (float64_of_int64 (ErrorsTotal m)) (float64_of_int64 reqs).

(** [Reset] zeroes out counters for the next window. *)
Definition Reset (m : TrackedMetrics) : TrackedMetrics :=
  let m := with_ErrorsTotal (Store 0) m in
  let m := with_RequestsTotal (Store 0) m in
  let m := with_SelfRateLimitedTotal (Store 0) m in
  let m := with_RemoteRateLimitedTotal (Store 0) m in
  let m := with_BlockHeadLag (Store 0) m in
  let m := with_FinalizationLag (Store 0) m in
  let m := with_ResponseQuantiles QuantileTracker_Reset m in
  let m := with_Cordoned (Store false) m in
  with_CordonedReason (Store (Some EmptyString)) m.

(** ** Tracker *)

Record Tracker : Type := mkTracker {
  projectId : string;
  windowSize : Z;
  metrics : gmap tripletKey TrackedMetrics;
  metadata : gmap duoKey NetworkMetadata
}.

Definition NewTracker (projectId : string) (windowSize : Z) : Tracker :=
  {| projectId := projectId; windowSize := windowSize;
     metrics := ∅; metadata := ∅ |}.

Definition with_metrics
    (f : gmap tripletKey TrackedMetrics → gmap tripletKey TrackedMetrics)
    (t : Tracker) : Tracker :=
  mkTracker (projectId t) (windowSize t) (f (metrics t)) (metadata t).

Definition with_metadata
    (f : gmap duoKey NetworkMetadata → gmap duoKey NetworkMetadata)
    (t : Tracker) : Tracker :=
  mkTracker (projectId t) (windowSize t) (metrics t) (f (metadata t)).

(** A write through the pointer held by the store at key [k]. *)
Definition atMetrics (k : tripletKey) (f : TrackedMetrics → TrackedMetrics)
    (t : Tracker) : Tracker :=
  with_metrics (alter f k) t.

Definition atMetadata (k : duoKey) (f : NetworkMetadata → NetworkMetadata)
    (t : Tracker) : Tracker :=
  with_metadata (alter f k) t.

(** A read through the pointer held by the store at key [k]; the pointers
    the code dereferences always come from [getMetadata], so the record is
    there. *)
Definition loadMetadata (k : duoKey) (t : Tracker) : NetworkMetadata :=
  default newNetworkMetadata (metadata t !! k).

(** [t.metrics.Range(f)]: the visitor is run once on every entry. *)
Definition Range {S : Type} (m : gmap tripletKey TrackedMetrics)
    (f : tripletKey → TrackedMetrics → S → S) (s : S) : S :=
  map_fold f s m.

(** For real-time aggregator updates, we store expansions of the key. *)
Definition getKeys (ups network method : string) : list tripletKey :=
  [ TripletKey ups network method;
    TripletKey ups network "*";
    TripletKey ups "*" "*";
    TripletKey "*" network method;
    TripletKey "*" network "*" ].

(** [getMetadata] fetches or creates the [NetworkMetadata] of [k].  The
    [loaded] branch of [LoadOrStore] needs a concurrent writer between the
    [Load] and the [LoadOrStore]; sequentially the new record is stored. *)
Definition getMetadata (k : duoKey) (t : Tracker) : NetworkMetadata * Tracker :=
  match metadata t !! k with
  | Some val => (val, t)
  | None =>
      let nm := newNetworkMetadata in
      (nm, with_metadata (insert k nm) t)
  end.

Definition newTrackedMetrics : TrackedMetrics :=
  {| ResponseQuantiles := NewQuantileTracker;
     ErrorsTotal := 0; SelfRateLimitedTotal := 0; RemoteRateLimitedTotal := 0;
     RequestsTotal := 0; BlockHeadLag := 0; FinalizationLag := 0;
     BlockHeadLargeRollback := 0; Cordoned := false; CordonedReason := None |}.

(** [getMetrics] fetches or creates the [TrackedMetrics] of [k]. *)
Definition getMetrics (k : tripletKey) (t : Tracker) : TrackedMetrics * Tracker :=
  match metrics t !! k with
  | Some val => (val, t)
  | None =>
      let newTm := newTrackedMetrics in
      (newTm, with_metrics (insert k newTm) t)
  end.

(** *** Cordon / Uncordon *)

Definition Cordon (ups network method reason : string) (t : Tracker) : Tracker :=
  let k := TripletKey ups network method in
  let '(_, t) := getMetrics k t in
  let t := atMetrics k (with_Cordoned (Store true)) t in
  atMetrics k (with_CordonedReason (Store (Some reason))) t.

Definition Uncordon (ups network method : string) (t : Tracker) : Tracker :=
  let k := TripletKey ups network method in
  let '(_, t) := getMetrics k t in
  let t := atMetrics k (with_Cordoned (Store false)) t in
  atMetrics k (with_CordonedReason (Store (Some EmptyString))) t.

(** [IsCordoned] checks if (ups, network, method) or (ups, network, "*")
    is cordoned.  It only loads from the store. *)
Definition IsCordoned (ups network method : string) (t : Tracker) : bool :=
  match metrics t !! TripletKey ups network "*" with
  | Some tm =>
      if Cordoned tm then true
      else
        match metrics t !! TripletKey ups network method with
        | Some tm => Cordoned tm
        | None => false
        end
  | None =>
      match metrics t !! TripletKey ups network method with
      | Some tm => Cordoned tm
      | None => false
      end
  end.

(** *** Basic request and failure tracking *)

(** The loop [for _, k := range keys { m := t.getMetrics(k); m.F.Add(1) }]
    shared by the recorders, with the write [upd] on each record. *)
Definition forKeys (keys : list tripletKey)
    (upd : TrackedMetrics → TrackedMetrics) (t : Tracker) : Tracker :=
  foldl (λ t k, let '(_, t) := getMetrics k t in atMetrics k upd t) t keys.

Definition RecordUpstreamRequest (ups network method : string) (t : Tracker)
  : Tracker :=
  forKeys (getKeys ups network method) (with_RequestsTotal (Add 1)) t.

Definition RecordUpstreamDuration (ups network method : string) (duration : Z)
    (t : Tracker) : Tracker :=
  forKeys (getKeys ups network method)
    (with_ResponseQuantiles (QuantileTracker_Add duration)) t.

Definition RecordUpstreamFailure (ups network method : string) (t : Tracker)
  : Tracker :=
  forKeys (getKeys ups network method) (with_ErrorsTotal (Add 1)) t.

Definition RecordUpstreamSelfRateLimited (ups network method : string)
    (t : Tracker) : Tracker :=
  forKeys (getKeys ups network method) (with_SelfRateLimitedTotal (Add 1)) t.

Definition RecordUpstreamRemoteRateLimited (ups network method : string)
    (t : Tracker) : Tracker :=
  forKeys (getKeys ups network method) (with_RemoteRateLimitedTotal (Add 1)) t.

(** *** Accessors *)

Definition GetUpstreamMethodMetrics (ups network method : string) (t : Tracker)
  : TrackedMetrics * Tracker :=
  getMetrics (TripletKey ups network method) t.

(** The result map is keyed by [network + "|" + method]. *)
Definition GetUpstreamMetrics (upsId : string) (t : Tracker)
  : gmap string TrackedMetrics :=
  Range (metrics t)
    (λ k tm result,
       if decide (tk_ups k = upsId)
       then <[ (tk_network k +:+ "|" +:+ tk_method k)%string := tm ]> result
       else result)
    ∅.

Definition GetNetworkMethodMetrics (network method : string) (t : Tracker)
  : TrackedMetrics * Tracker :=
  getMetrics (TripletKey "*" network method) t.

(** *** Block number and lag tracking *)

Definition SetLatestBlockNumber (ups network : string) (blockNumber : Z)
    (t : Tracker) : Tracker :=
  if decide (blockNumber ≤ 0) then t
  else
    let mdKey := DuoKey ups network in
    let ntwMdKey := DuoKey "*" network in
    (* 1) Possibly update the network-level highest block head *)
    let '(ntwMeta, t) := getMetadata ntwMdKey t in
    let oldNtwVal := evmLatestBlockNumber ntwMeta in
    let '(needsGlobalUpdate, t) :=
      if decide (blockNumber > oldNtwVal)
      then (true, atMetadata ntwMdKey (store_evmLatestBlockNumber blockNumber) t)
      else (false, t) in
    (* 2) Update this upstream's latest block *)
    let '(_, t) := getMetadata mdKey t in
    let oldUpsVal := evmLatestBlockNumber (loadMetadata mdKey t) in
    let t :=
      if decide (blockNumber > oldUpsVal)
      then atMetadata mdKey (store_evmLatestBlockNumber blockNumber) t
      else t in
    (* 3) Recompute block head lag for this upstream *)
    let ntwBn := evmLatestBlockNumber (loadMetadata ntwMdKey t) in
    if decide (ntwBn ≤ 0) then t
    else
      let upsLag := sub64 ntwBn (evmLatestBlockNumber (loadMetadata mdKey t)) in
      (* 4) Update the TrackedMetrics.BlockHeadLag fields *)
      if needsGlobalUpdate then
        (* Recompute for every upstream in the network *)
        Range (metrics t)
          (λ k _ t,
             if decide (tk_network k = network) then
               let '(otherUpsMeta, t) :=
                 getMetadata (DuoKey (tk_ups k) network) t in
               let otherVal := evmLatestBlockNumber otherUpsMeta in
               if decide (otherVal ≤ 0) then t
               else
                 let otherLag := sub64 ntwBn otherVal in
                 atMetrics k (with_BlockHeadLag (Store otherLag)) t
             else t)
          t
      else
        (* Only update items for this single upstream in this network *)
        Range (metrics t)
          (λ k _ t,
             if decide (tk_ups k = ups ∧ tk_network k = network)
             then atMetrics k (with_BlockHeadLag (Store upsLag)) t
             else t)
          t.

Definition SetFinalizedBlockNumber (ups network : string) (blockNumber : Z)
    (t : Tracker) : Tracker :=
  if decide (blockNumber ≤ 0) then t
  else
    let mdKey := DuoKey ups network in
    let ntwMdKey := DuoKey "*" network in
    let '(_, t) := getMetadata mdKey t in
    let '(_, t) := getMetadata ntwMdKey t in
    (* Possibly update the network-level highest finalized block *)
    let oldNtwVal := evmFinalizedBlockNumber (loadMetadata ntwMdKey t) in
    let '(needsGlobalUpdate, t) :=
      if decide (blockNumber > oldNtwVal)
      then (true,
            atMetadata ntwMdKey (store_evmFinalizedBlockNumber blockNumber) t)
      else (false, t) in
    (* Update this upstream's finalized block *)
    let oldUpsVal := evmFinalizedBlockNumber (loadMetadata mdKey t) in
    let t :=
      if decide (blockNumber > oldUpsVal)
      then atMetadata mdKey (store_evmFinalizedBlockNumber blockNumber) t
      else t in
    (* Recompute finalization lag for this upstream *)
    let ntwVal := evmFinalizedBlockNumber (loadMetadata ntwMdKey t) in
    if decide (ntwVal ≤ 0) then t
    else
      let upsVal := evmFinalizedBlockNumber (loadMetadata mdKey t) in
      let upsLag := sub64 ntwVal upsVal in
      (* Update the finalization lag across the network if needed *)
      if needsGlobalUpdate then
        Range (metrics t)
          (λ k _ t,
             if decide (tk_network k = network) then
               let '(otherUpsMeta, t) :=
                 getMetadata (DuoKey (tk_ups k) (tk_network k)) t in
               let otherVal := evmFinalizedBlockNumber otherUpsMeta in
               if decide (otherVal ≤ 0) then t
               else
                 let otherLag := sub64 ntwVal otherVal in
                 atMetrics k (with_FinalizationLag (Store otherLag)) t
             else t)
          t
      else
        (* Only update finalization lag for this single upstream *)
        Range (metrics t)
          (λ k _ t,
             if decide (tk_ups k = ups ∧ tk_network k = network)
             then atMetrics k (with_FinalizationLag (Store upsLag)) t
             else t)
          t.

(** The key is [tripletKey{ups: ups, network: network}]: the method is the
    empty string. *)
Definition RecordBlockHeadLargeRollback (ups network finality : string)
    (currentVal newVal : Z) (t : Tracker) : Tracker :=
  let rollback := sub64 currentVal newVal in
  let k := TripletKey ups network EmptyString in
  let '(_, t) := getMetrics k t in
  atMetrics k (with_BlockHeadLargeRollback (Store rollback)) t.

(** One tick of [resetMetricsLoop]: range over the store to reset all
    known metrics. *)
Definition resetMetricsTick (t : Tracker) : Tracker :=
  Range (metrics t) (λ k _ t, atMetrics k Reset t) t.

(** ** Sequential histories *)

(** The public operations of the tracker, and the tick of its reset loop. *)
Inductive op : Type :=
  | OpRecordUpstreamRequest (ups network method : string)
  | OpRecordUpstreamDuration (ups network method : string) (duration : Z)
  | OpRecordUpstreamFailure (ups network method : string)
  | OpRecordUpstreamSelfRateLimited (ups network method : string)
  | OpRecordUpstreamRemoteRateLimited (ups network method : string)
  | OpCordon (ups network method reason : string)
  | OpUncordon (ups network method : string)
  | OpIsCordoned (ups network method : string)
  | OpGetUpstreamMethodMetrics (ups network method : string)
  | OpGetUpstreamMetrics (upsId : string)
  | OpGetNetworkMethodMetrics (network method : string)
  | OpSetLatestBlockNumber (ups network : string) (blockNumber : Z)
  | OpSetFinalizedBlockNumber (ups network : string) (blockNumber : Z)
  | OpRecordBlockHeadLargeRollback (ups network finality : string)
      (currentVal newVal : Z)
  | OpResetTick.

(** The effect of one operation on the tracker (results are dropped). *)
Definition step (t : Tracker) (o : op) : Tracker :=
  match o with
  | OpRecordUpstreamRequest u n m => RecordUpstreamRequest u n m t
  | OpRecordUpstreamDuration u n m d => RecordUpstreamDuration u n m d t
  | OpRecordUpstreamFailure u n m => RecordUpstreamFailure u n m t
  | OpRecordUpstreamSelfRateLimited u n m => RecordUpstreamSelfRateLimited u n m t
  | OpRecordUpstreamRemoteRateLimited u n m =>
      RecordUpstreamRemoteRateLimited u n m t
  | OpCordon u n m r => Cordon u n m r t
  | OpUncordon u n m => Uncordon u n m t
  | OpIsCordoned _ _ _ => t
  | OpGetUpstreamMethodMetrics u n m => (GetUpstreamMethodMetrics u n m t).2
  | OpGetUpstreamMetrics _ => t
  | OpGetNetworkMethodMetrics n m => (GetNetworkMethodMetrics n m t).2
  | OpSetLatestBlockNumber u n b => SetLatestBlockNumber u n b t
  | OpSetFinalizedBlockNumber u n b => SetFinalizedBlockNumber u n b t
  | OpRecordBlockHeadLargeRollback u n f c v =>
      RecordBlockHeadLargeRollback u n f c v t
  | OpResetTick => resetMetricsTick t
  end.

Definition run (ops : list op) (t : Tracker) : Tracker := foldl step t ops.


(** ** Auxiliary definitions for the statements *)

(** The pattern [m := t.getMetrics(k); m.F.Store(..)]: the record of [k],
    created if absent, receives the write; no other record moves. *)
Definition touch (k : tripletKey) (upd : TrackedMetrics → TrackedMetrics)
    (t : Tracker) : Tracker :=
  let '(_, t) := getMetrics k t in atMetrics k upd t.


(** The cordon flag seen through a load of key [k]: the flag of the record
    if the store has one, false otherwise. *)
Definition cordonedAt (k : tripletKey) (t : Tracker) : bool :=
  match metrics t !! k with
  | Some tm => Cordoned tm
  | None => false
  end.

(** The marks read through the pointer of duo key [k] (0: never
    observed). *)
Definition latestMark (k : duoKey) (t : Tracker) : Z :=
  evmLatestBlockNumber (loadMetadata k t).

Definition finalizedMark (k : duoKey) (t : Tracker) : Z :=
  evmFinalizedBlockNumber (loadMetadata k t).

(** Every stored mark is an [int64]. *)
Definition int64_metadata (t : Tracker) : Prop :=
  map_Forall
    (λ _ nm, int64_range (evmLatestBlockNumber nm) ∧
             int64_range (evmFinalizedBlockNumber nm))
    (metadata t).

(** Steps 1 and 2 of [SetLatestBlockNumber]: the two watermark updates,
    with the [needsGlobalUpdate] flag. *)
Definition bumpLatest (ups network : string) (blockNumber : Z) (t : Tracker)
  : bool * Tracker :=
  let mdKey := DuoKey ups network in
  let ntwMdKey := DuoKey "*" network in
  let '(ntwMeta, t) := getMetadata ntwMdKey t in
  let oldNtwVal := evmLatestBlockNumber ntwMeta in
  let '(needsGlobalUpdate, t) :=
    if decide (blockNumber > oldNtwVal)
    then (true, atMetadata ntwMdKey (store_evmLatestBlockNumber blockNumber) t)
    else (false, t) in
  let '(_, t) := getMetadata mdKey t in
  let oldUpsVal := evmLatestBlockNumber (loadMetadata mdKey t) in
  let t :=
    if decide (blockNumber > oldUpsVal)
    then atMetadata mdKey (store_evmLatestBlockNumber blockNumber) t
    else t in
  (needsGlobalUpdate, t).

(** The same two updates of [SetFinalizedBlockNumber]. *)
Definition bumpFinalized (ups network : string) (blockNumber : Z) (t : Tracker)
  : bool * Tracker :=
  let mdKey := DuoKey ups network in
  let ntwMdKey := DuoKey "*" network in
  let '(_, t) := getMetadata mdKey t in
  let '(_, t) := getMetadata ntwMdKey t in
  let oldNtwVal := evmFinalizedBlockNumber (loadMetadata ntwMdKey t) in
  let '(needsGlobalUpdate, t) :=
    if decide (blockNumber > oldNtwVal)
    then (true,
          atMetadata ntwMdKey (store_evmFinalizedBlockNumber blockNumber) t)
    else (false, t) in
  let oldUpsVal := evmFinalizedBlockNumber (loadMetadata mdKey t) in
  let t :=
    if decide (blockNumber > oldUpsVal)
    then atMetadata mdKey (store_evmFinalizedBlockNumber blockNumber) t
    else t in
  (needsGlobalUpdate, t).

(** The visitors of the two [Range] calls of step 4, for the gauge written
    by [w] and the mark read by [val]. *)
Definition cascadeAll (val : NetworkMetadata → Z)
    (w : (Z → Z) → TrackedMetrics → TrackedMetrics)
    (network : string) (ntwBn : Z)
    (k : tripletKey) (_ : TrackedMetrics) (t : Tracker) : Tracker :=
  if decide (tk_network k = network) then
    let '(otherUpsMeta, t) := getMetadata (DuoKey (tk_ups k) network) t in
    let otherVal := val otherUpsMeta in
    if decide (otherVal ≤ 0) then t
    else atMetrics k (w (Store (sub64 ntwBn otherVal))) t
  else t.

Definition cascadeOne (w : (Z → Z) → TrackedMetrics → TrackedMetrics)
    (ups network : string) (upsLag : Z)
    (k : tripletKey) (_ : TrackedMetrics) (t : Tracker) : Tracker :=
  if decide (tk_ups k = ups ∧ tk_network k = network)
  then atMetrics k (w (Store upsLag)) t
  else t.

(** The write a full cascade makes on the record of key [k], given the
    marks [mark] of the network's upstreams: none off the network, none
    for an upstream whose mark is not positive, otherwise the gauge
    written by [w] receives the network mark minus the upstream's own. *)
Definition lagAll (w : (Z → Z) → TrackedMetrics → TrackedMetrics)
    (mark : duoKey → Z) (network : string) (k : tripletKey)
  : TrackedMetrics → TrackedMetrics :=
  if decide (tk_network k = network) then
    if decide (mark (DuoKey (tk_ups k) network) ≤ 0) then id
    else w (Store (sub64 (mark (DuoKey "*" network))
                     (mark (DuoKey (tk_ups k) network))))
  else id.

(** The write of the narrow update: only the records of [ups] on
    [network]. *)
Definition lagOne (w : (Z → Z) → TrackedMetrics → TrackedMetrics)
    (mark : duoKey → Z) (ups network : string) (k : tripletKey)
  : TrackedMetrics → TrackedMetrics :=
  if decide (tk_ups k = ups ∧ tk_network k = network)
  then w (Store (sub64 (mark (DuoKey "*" network)) (mark (DuoKey ups network))))
  else id.

#[global] Instance int64_range_dec (z : Z) : Decision (int64_range z).
Proof. unfold int64_range. apply _. Defined.

#[global] Instance int64_metadata_dec (t : Tracker) :
  Decision (int64_metadata t).
Proof. unfold int64_metadata. apply _. Defined.

(** A small history used to exercise the statements: two upstreams A and
    B seen on network n, A having reported block 100 (finalized 90). *)
Definition sampleTracker : Tracker :=
  run [ OpRecordUpstreamRequest "A" "n" "m";
        OpRecordUpstreamRequest "B" "n" "m";
        OpSetLatestBlockNumber "A" "n" 100;
        OpSetFinalizedBlockNumber "A" "n" 90 ]
      (NewTracker "p" 60).

(** A run of reports of one upstream on one network. *)
Definition observeLatest (ups network : string) (xs : list Z) (t : Tracker)
  : Tracker :=
  foldl (λ t x, SetLatestBlockNumber ups network x t) t xs.

Definition observeFinalized (ups network : string) (xs : list Z) (t : Tracker)
  : Tracker :=
  foldl (λ t x, SetFinalizedBlockNumber ups network x t) t xs.

(** The maximum of the strictly positive members of [xs]; 0 when there is
    none. *)
Definition maxPositive (xs : list Z) : Z :=
  foldr Z.max 0 (filter (λ x, 0 < x) xs).

(** The strictly positive block numbers reported as latest for network
    [n] in a history, by any upstream. *)
Definition reportedLatest (n : string) (ops : list op) : list Z :=
  omap (λ o, match o with
             | OpSetLatestBlockNumber _ n' b =>
                 if decide (n' = n ∧ 0 < b) then Some b else None
             | _ => None
             end) ops.

(** The maximum of the latest-block marks the store holds for the concrete
    (non-wildcard) upstreams of network [n]; 0 when it holds none. *)
Definition maxConcreteLatest (t : Tracker) (n : string) : Z :=
  map_fold
    (λ dk nm acc,
       if decide (dk_network dk = n ∧ dk_ups dk ≠ "*"%string)
       then Z.max (evmLatestBlockNumber nm) acc
       else acc)
    0 (metadata t).

(** The reporting upstream of a latest-block report is a concrete one. *)
Definition concreteReporter (o : op) : Prop :=
  match o with
  | OpSetLatestBlockNumber u _ _ => u ≠ "*"%string
  | _ => True
  end.

(** The keys an operation hands to [getMetrics]. *)
Definition touched (o : op) : list tripletKey :=
  match o with
  | OpRecordUpstreamRequest u n m
  | OpRecordUpstreamDuration u n m _
  | OpRecordUpstreamFailure u n m
  | OpRecordUpstreamSelfRateLimited u n m
  | OpRecordUpstreamRemoteRateLimited u n m => getKeys u n m
  | OpCordon u n m _ | OpUncordon u n m => [TripletKey u n m]
  | OpGetUpstreamMethodMetrics u n m => [TripletKey u n m]
  | OpGetNetworkMethodMetrics n m => [TripletKey "*" n m]
  | OpRecordBlockHeadLargeRollback u n _ _ _ => [TripletKey u n EmptyString]
  | OpIsCordoned _ _ _ | OpGetUpstreamMetrics _
  | OpSetLatestBlockNumber _ _ _ | OpSetFinalizedBlockNumber _ _ _
  | OpResetTick => []
  end.

(** The keys an operation observes, in the sense of the specification: the
    five-key expansion of the triplet of a recorder call. *)
Definition observed (o : op) : list tripletKey :=
  match o with
  | OpRecordUpstreamRequest u n m
  | OpRecordUpstreamDuration u n m _
  | OpRecordUpstreamFailure u n m
  | OpRecordUpstreamSelfRateLimited u n m
  | OpRecordUpstreamRemoteRateLimited u n m => getKeys u n m
  | _ => []
  end.

(** A history of requests ([true]) and failures ([false]) on one triplet. *)
Definition requestsAndFailures (u n m : string) (l : list bool) : list op :=
  map (λ b : bool, if b then OpRecordUpstreamRequest u n m
                   else OpRecordUpstreamFailure u n m) l.

Definition countZ (b : bool) (l : list bool) : Z :=
  Z.of_nat (length (filter (λ x, x = b) l)).

(** ** Further operations of the tracker *)

Definition float64_add (a b : float64) : float64 := SFadd 53 1024 a b.

Definition ThrottledRate (m : TrackedMetrics) : float64 :=
  let reqs := RequestsTotal m in
  if decide (reqs = 0) then float64_zero
  else
    let throttled :=
      float64_add (float64_of_int64 (RemoteRateLimitedTotal m))
                  (float64_of_int64 (SelfRateLimitedTotal m)) in
    float64_div throttled (float64_of_int64 reqs).

(** ** Auxiliary definitions for the further statements *)

(** How often key [k] occurs in a list of keys. *)
Definition occurrences (k : tripletKey) (keys : list tripletKey) : nat :=
  length (filter (λ k', k' = k) keys).

(** A triplet none of whose components is the wildcard. *)
Definition concreteKey (k : tripletKey) : Prop :=
  tk_ups k ≠ "*"%string ∧ tk_network k ≠ "*"%string ∧
  tk_method k ≠ "*"%string.

(** The history of one request per listed triplet. *)
Definition requestsOf (trs : list tripletKey) : list op :=
  map (λ tr, OpRecordUpstreamRequest (tk_ups tr) (tk_network tr) (tk_method tr))
      trs.

(** The number of listed triplets whose five-key expansion contains [k]. *)
Definition expandingTo (k : tripletKey) (trs : list tripletKey) : Z :=
  Z.of_nat
    (length
       (filter (λ tr, k ∈ getKeys (tk_ups tr) (tk_network tr) (tk_method tr))
               trs)).

(** The operations that write a cordon flag: [Cordon], [Uncordon] and the
    tick of the reset loop. *)
Definition cordonOp (o : op) : Prop :=
  match o with
  | OpCordon _ _ _ _ | OpUncordon _ _ _ | OpResetTick => True
  | _ => False
  end.

(** The block numbers handed to the setters by an operation are [int64]
    values. *)
Definition int64Args (o : op) : Prop :=
  match o with
  | OpSetLatestBlockNumber _ _ b | OpSetFinalizedBlockNumber _ _ b =>
      int64_range b
  | _ => True
  end.

(** Both lag gauges of every record lie between 0 and the mark of the
    record's network. *)
Definition lagsWithin (t : Tracker) : Prop :=
  ∀ k m, metrics t !! k = Some m →
    0 ≤ BlockHeadLag m ≤ latestMark (DuoKey "*" (tk_network k)) t ∧
    0 ≤ FinalizationLag m ≤ finalizedMark (DuoKey "*" (tk_network k)) t.

(** A write that leaves both lag gauges of a record alone. *)
Definition keepsLags (upd : TrackedMetrics → TrackedMetrics) : Prop :=
  ∀ m, BlockHeadLag (upd m) = BlockHeadLag m ∧
       FinalizationLag (upd m) = FinalizationLag m.

(** The strictly positive block numbers reported as finalized for network
    [n] in a history, by any upstream. *)
Definition reportedFinalized (n : string) (ops : list op) : list Z :=
  omap (λ o, match o with
             | OpSetFinalizedBlockNumber _ n' b =>
                 if decide (n' = n ∧ 0 < b) then Some b else None
             | _ => None
             end) ops.

(** The key under which [GetUpstreamMetrics] files the record of [k]. *)
Definition upstreamSuffix (k : tripletKey) : string :=
  (tk_network k +:+ "|" +:+ tk_method k)%string.

(** The traffic events that feed the throttled rate. *)
Inductive traffic : Type := Request | SelfLimited | RemoteLimited.

#[global] Instance traffic_eq_dec : EqDecision traffic.
Proof. solve_decision. Defined.

(** A history of traffic events on one triplet. *)
Definition trafficOps (u n m : string) (l : list traffic) : list op :=
  map (λ e, match e with
            | Request => OpRecordUpstreamRequest u n m
            | SelfLimited => OpRecordUpstreamSelfRateLimited u n m
            | RemoteLimited => OpRecordUpstreamRemoteRateLimited u n m
            end) l.

Definition countOf (e : traffic) (l : list traffic) : Z :=
  Z.of_nat (length (filter (λ x, x = e) l)).

(** ** Reading a record field by field *)

(** The four counters of a record. *)
Definition counters (m : TrackedMetrics) : Z * Z * Z * Z :=
  (RequestsTotal m, ErrorsTotal m, SelfRateLimitedTotal m,
   RemoteRateLimitedTotal m).

(** Everything in a record but its counters. *)
Definition gaugesAndCordon (m : TrackedMetrics)
  : QuantileTracker * Z * Z * Z * bool * option string :=
  (ResponseQuantiles m, BlockHeadLag m, FinalizationLag m,
   BlockHeadLargeRollback m, Cordoned m, CordonedReason m).

(** Everything in a record but its block-head-lag gauge, respectively its
    finalization-lag gauge. *)
Definition exceptBlockHeadLag (m : TrackedMetrics)
  : QuantileTracker * (Z * Z * Z * Z) * Z * Z * bool * option string :=
  (ResponseQuantiles m, counters m, FinalizationLag m,
   BlockHeadLargeRollback m, Cordoned m, CordonedReason m).

Definition exceptFinalizationLag (m : TrackedMetrics)
  : QuantileTracker * (Z * Z * Z * Z) * Z * Z * bool * option string :=
  (ResponseQuantiles m, counters m, BlockHeadLag m,
   BlockHeadLargeRollback m, Cordoned m, CordonedReason m).

(** A tracker holding one record whose two lag gauges are 9 and 7, under
    the network-wide key of method m on network n. *)
Definition staleWildcardTracker : Tracker :=
  with_metrics
    (insert (TripletKey "*" "n" "m")
       {| ResponseQuantiles := NewQuantileTracker;
          ErrorsTotal := 1; SelfRateLimitedTotal := 0;
          RemoteRateLimitedTotal := 0; RequestsTotal := 4;
          BlockHeadLag := 9; FinalizationLag := 7;
          BlockHeadLargeRollback := 0; Cordoned := false;
          CordonedReason := None |})
    (NewTracker "p" 60).

(** ** Reading a float64 against a rational *)

(** [l] locates the rational [num / den] in the interval from [m] to
    [m + 1]: exactly at [m], or strictly inside, below, at or above the
    middle. *)
Definition located (num den m : Z) (l : location) : Prop :=
  0 < den ∧ m * den ≤ num < (m + 1) * den ∧
  match l with
  | loc_Exact => num = m * den
  | loc_Inexact c => num ≠ m * den ∧ (2 * (num - m * den) ?= den) = c
  end.

(** [f] is a float64 nearest to the non-negative rational [num / den]:
    positive zero when the rational is 0, and otherwise a positive normal
    float64 (a mantissa of 53 binary digits) whose distance to [num / den]
    is at most half of the unit in its last place.  Both sides of the
    comparison are read in units of 2^-1074, the smallest positive
    float64, and multiplied by [den]. *)
Definition float64_nearest (num den : Z) (f : float64) : Prop :=
  match f with
  | S754_zero false => num = 0
  | S754_finite false m ex =>
      2 ^ 52 ≤ Z.pos m < 2 ^ 53 ∧ -1074 ≤ ex ≤ 971 ∧
      2 * Z.abs (Z.pos m * 2 ^ (ex + 1074) * den - num * 2 ^ 1074)
        ≤ 2 ^ (ex + 1074) * den
  | _ => False
  end.

#[global] Instance float64_nearest_dec (num den : Z) (f : float64) :
  Decision (float64_nearest num den f).
Proof.
  destruct f as [[|]|[|]| |[|] m ex]; unfold float64_nearest; apply _.
Defined.
(** * Properties *)

(** ** int64 arithmetic *)

Lemma wrap64_id (z : Z) : int64_range z → wrap64 z = z.
Proof.
  unfold int64_range, min_int64, max_int64, wrap64. intros Hz.
  rewrite Z.mod_small by lia. lia.
Qed.

Lemma wrap64_range (z : Z) : int64_range (wrap64 z).
Proof.
  unfold int64_range, min_int64, max_int64, wrap64.
  pose proof (Z.mod_pos_bound (z + 2 ^ 63) (2 ^ 64)). lia.
Qed.

Lemma wrap64_add_l (a b : Z) : wrap64 (wrap64 a + b) = wrap64 (a + b).
Proof.
  unfold wrap64.
  replace ((a + 2 ^ 63) `mod` 2 ^ 64 - 2 ^ 63 + b + 2 ^ 63)
    with ((a + 2 ^ 63) `mod` 2 ^ 64 + b) by lia.
  rewrite Zplus_mod_idemp_l. do 2 f_equal. lia.
Qed.

Lemma add64_succ (c : Z) : min_int64 ≤ c < max_int64 → add64 c 1 = c + 1.
Proof.
  intros Hc. unfold add64. apply wrap64_id.
  unfold int64_range, min_int64, max_int64 in *. lia.
Qed.

Lemma sub64_pos (a b : Z) :
  0 < a ≤ max_int64 → 0 < b ≤ max_int64 → sub64 a b = a - b.
Proof.
  intros Ha Hb. unfold sub64. apply wrap64_id.
  unfold int64_range, min_int64, max_int64 in *. lia.
Qed.

Lemma sub64_diag (a : Z) : sub64 a a = 0.
Proof. unfold sub64. rewrite Z.sub_diag. reflexivity. Qed.

(** ** The stores under [getMetrics], [getMetadata] and pointer writes *)

Lemma getMetrics_fst (k : tripletKey) (t : Tracker) :
  (getMetrics k t).1 = default newTrackedMetrics (metrics t !! k).
Proof. unfold getMetrics. by destruct (metrics t !! k). Qed.

Lemma getMetrics_lookup (k k' : tripletKey) (t : Tracker) :
  metrics (getMetrics k t).2 !! k' =
    if decide (k = k')
    then Some (default newTrackedMetrics (metrics t !! k))
    else metrics t !! k'.
Proof.
  unfold getMetrics. destruct (metrics t !! k) eqn:Hk; simpl.
  - case_decide; by subst.
  - rewrite lookup_insert. by case_decide.
Qed.

Lemma getMetrics_metadata (k : tripletKey) (t : Tracker) :
  metadata (getMetrics k t).2 = metadata t.
Proof. unfold getMetrics. by destruct (metrics t !! k). Qed.

Lemma atMetrics_lookup (k k' : tripletKey) f (t : Tracker) :
  metrics (atMetrics k f t) !! k' =
    if decide (k = k') then f <$> metrics t !! k' else metrics t !! k'.
Proof.
  unfold atMetrics; simpl. rewrite lookup_alter.
  case_decide; by subst.
Qed.

Lemma atMetrics_metadata (k : tripletKey) f (t : Tracker) :
  metadata (atMetrics k f t) = metadata t.
Proof. reflexivity. Qed.

Lemma touch_lookup (k k' : tripletKey) upd (t : Tracker) :
  metrics (touch k upd t) !! k' =
    if decide (k = k')
    then Some (upd (default newTrackedMetrics (metrics t !! k)))
    else metrics t !! k'.
Proof.
  unfold touch. destruct (getMetrics k t) as [tm t1] eqn:Hg.
  assert (t1 = (getMetrics k t).2) as -> by by rewrite Hg.
  rewrite atMetrics_lookup, getMetrics_lookup.
  by case_decide.
Qed.

Lemma touch_metadata (k : tripletKey) upd (t : Tracker) :
  metadata (touch k upd t) = metadata t.
Proof.
  unfold touch. destruct (getMetrics k t) as [tm t1] eqn:Hg.
  assert (t1 = (getMetrics k t).2) as -> by by rewrite Hg.
  by rewrite atMetrics_metadata, getMetrics_metadata.
Qed.

Lemma forKeys_touch (keys : list tripletKey) upd (t : Tracker) :
  forKeys keys upd t = foldl (λ t k, touch k upd t) t keys.
Proof. reflexivity. Qed.

Lemma forKeys_metadata (keys : list tripletKey) upd (t : Tracker) :
  metadata (forKeys keys upd t) = metadata t.
Proof.
  rewrite forKeys_touch. revert t.
  induction keys as [|k keys IH]; intros t; simpl; [done|].
  by rewrite IH, touch_metadata.
Qed.

Lemma forKeys_lookup_notin (keys : list tripletKey) upd (t : Tracker) k' :
  k' ∉ keys → metrics (forKeys keys upd t) !! k' = metrics t !! k'.
Proof.
  rewrite forKeys_touch. revert t.
  induction keys as [|k keys IH]; intros t Hk'; simpl; [done|].
  apply not_elem_of_cons in Hk' as [Hne Hk'].
  rewrite IH by done. rewrite touch_lookup. by case_decide.
Qed.

(** Over keys without repetition each listed record receives the write
    exactly once. *)
Lemma forKeys_lookup_in (keys : list tripletKey) upd (t : Tracker) k' :
  NoDup keys → k' ∈ keys →
  metrics (forKeys keys upd t) !! k' =
    Some (upd (default newTrackedMetrics (metrics t !! k'))).
Proof.
  rewrite forKeys_touch. revert t.
  induction keys as [|k keys IH]; intros t Hnd Hk'; simpl.
  - by apply elem_of_nil in Hk'.
  - apply NoDup_cons in Hnd as [Hk Hnd].
    apply elem_of_cons in Hk' as [->|Hk'].
    + rewrite <- forKeys_touch, forKeys_lookup_notin by done.
      rewrite touch_lookup. by case_decide.
    + rewrite IH by done. rewrite touch_lookup.
      case_decide; [by subst|done].
Qed.

Lemma getKeys_NoDup (ups network method : string) :
  ups ≠ "*"%string → network ≠ "*"%string → method ≠ "*"%string →
  NoDup (getKeys ups network method).
Proof.
  intros Hu Hn Hm. unfold getKeys.
  repeat (apply NoDup_cons; split;
          [rewrite ?elem_of_cons, elem_of_nil; intros H;
           repeat (destruct H as [H|H]); congruence|]).
  apply NoDup_nil_2.
Qed.

(** ** Recorders *)

Section recorders.
Context (ups network method : string).
Hypothesis Hups : ups ≠ "*"%string.
Hypothesis Hnetwork : network ≠ "*"%string.
Hypothesis Hmethod : method ≠ "*"%string.

Lemma forKeys_getKeys_spec upd (t : Tracker) (k : tripletKey) :
  metrics (forKeys (getKeys ups network method) upd t) !! k =
    if decide (k ∈ getKeys ups network method)
    then Some (upd (default newTrackedMetrics (metrics t !! k)))
    else metrics t !! k.
Proof.
  case_decide.
  - apply forKeys_lookup_in; [by apply getKeys_NoDup|done].
  - by apply forKeys_lookup_notin.
Qed.
End recorders.

Lemma counters_inv (m : TrackedMetrics) (a b c d : Z) :
  counters m = (a, b, c, d) →
  RequestsTotal m = a ∧ ErrorsTotal m = b ∧
  SelfRateLimitedTotal m = c ∧ RemoteRateLimitedTotal m = d.
Proof. unfold counters. intros [= -> -> -> ->]. done. Qed.

Lemma exceptBlockHeadLag_counters (m m' : TrackedMetrics) :
  exceptBlockHeadLag m' = exceptBlockHeadLag m → counters m' = counters m.
Proof. intros H. exact (f_equal (λ x, x.1.1.1.1.2) H). Qed.

(** C7.  For a concrete triplet each of the four recorders increments its
    counter by 1 (an [int64] addition, which is the mathematical successor
    below the largest [int64]) on each of the five expanded keys, which are
    pairwise distinct, creating the record if it is absent and leaving its
    other counters, gauges, accumulator and cordon state as they were;
    every record at any other key, and the head metadata, are unchanged. *)
Theorem record_five_keys (ups network method : string) (t : Tracker) :
  ups ≠ "*"%string → network ≠ "*"%string → method ≠ "*"%string →
  let keys := getKeys ups network method in
  let old k := default newTrackedMetrics (metrics t !! k) in
  keys = [ TripletKey ups network method; TripletKey ups network "*";
           TripletKey ups "*" "*"; TripletKey "*" network method;
           TripletKey "*" network "*" ] ∧
  NoDup keys ∧
  (∀ c, min_int64 ≤ c < max_int64 → add64 c 1 = c + 1) ∧
  (∀ k, k ∈ keys →
     (∃ m', metrics (RecordUpstreamRequest ups network method t) !! k
              = Some m' ∧
            counters m' =
              (add64 (RequestsTotal (old k)) 1, ErrorsTotal (old k),
               SelfRateLimitedTotal (old k), RemoteRateLimitedTotal (old k)) ∧
            gaugesAndCordon m' = gaugesAndCordon (old k)) ∧
     (∃ m', metrics (RecordUpstreamFailure ups network method t) !! k
              = Some m' ∧
            counters m' =
              (RequestsTotal (old k), add64 (ErrorsTotal (old k)) 1,
               SelfRateLimitedTotal (old k), RemoteRateLimitedTotal (old k)) ∧
            gaugesAndCordon m' = gaugesAndCordon (old k)) ∧
     (∃ m', metrics (RecordUpstreamSelfRateLimited ups network method t) !! k
              = Some m' ∧
            counters m' =
              (RequestsTotal (old k), ErrorsTotal (old k),
               add64 (SelfRateLimitedTotal (old k)) 1,
               RemoteRateLimitedTotal (old k)) ∧
            gaugesAndCordon m' = gaugesAndCordon (old k)) ∧
     (∃ m', metrics (RecordUpstreamRemoteRateLimited ups network method t) !! k
              = Some m' ∧
            counters m' =
              (RequestsTotal (old k), ErrorsTotal (old k),
               SelfRateLimitedTotal (old k),
               add64 (RemoteRateLimitedTotal (old k)) 1) ∧
            gaugesAndCordon m' = gaugesAndCordon (old k))) ∧
  (∀ k, k ∉ keys →
     metrics (RecordUpstreamRequest ups network method t) !! k
       = metrics t !! k ∧
     metrics (RecordUpstreamFailure ups network method t) !! k
       = metrics t !! k ∧
     metrics (RecordUpstreamSelfRateLimited ups network method t) !! k
       = metrics t !! k ∧
     metrics (RecordUpstreamRemoteRateLimited ups network method t) !! k
       = metrics t !! k) ∧
  metadata (RecordUpstreamRequest ups network method t) = metadata t ∧
  metadata (RecordUpstreamFailure ups network method t) = metadata t ∧
  metadata (RecordUpstreamSelfRateLimited ups network method t) = metadata t ∧
  metadata (RecordUpstreamRemoteRateLimited ups network method t) = metadata t.
Proof.
  intros Hu Hn Hm keys old.
  split; [reflexivity|]. split; [by apply getKeys_NoDup|].
  split; [intros c Hc; by apply add64_succ|].
  unfold RecordUpstreamRequest, RecordUpstreamFailure,
    RecordUpstreamSelfRateLimited, RecordUpstreamRemoteRateLimited.
  split; [|split].
  - intros k Hk.
    rewrite !forKeys_getKeys_spec by done. rewrite !decide_True by done.
    fold (old k). repeat split; eexists; (split; [reflexivity|]); done.
  - intros k Hk.
    rewrite !forKeys_getKeys_spec by done. by rewrite !decide_False by done.
  - by rewrite !forKeys_metadata.
Qed.

Lemma record_five_keys_witness :
  let t1 := RecordUpstreamRequest "x" "eth" "eth_call" (NewTracker "p" 60) in
  let t2 := RecordUpstreamRequest "x" "eth" "eth_call" t1 in
  RequestsTotal <$> metrics t1 !! TripletKey "x" "eth" "*" = Some 1 ∧
  RequestsTotal <$> metrics t2 !! TripletKey "x" "eth" "*" = Some 2 ∧
  ErrorsTotal <$>
    metrics (RecordUpstreamFailure "x" "eth" "eth_call" t2)
      !! TripletKey "*" "eth" "eth_call" = Some 1 ∧
  metrics t2 !! TripletKey "x" "eth" "eth_getLogs" = None.
Proof.
  cbn zeta.
  assert (TripletKey "x" "eth" "*" ∈ getKeys "x" "eth" "eth_call") as Hin
    by (right; left).
  assert (TripletKey "*" "eth" "eth_call" ∈ getKeys "x" "eth" "eth_call")
    as Hin' by (do 3 right; left).
  assert (TripletKey "x" "eth" "eth_getLogs" ∉ getKeys "x" "eth" "eth_call")
    as Hout.
  { unfold getKeys. rewrite !not_elem_of_cons.
    repeat split; try discriminate. apply not_elem_of_nil. }
  pose proof (record_five_keys "x" "eth" "eth_call" (NewTracker "p" 60)
                ltac:(discriminate) ltac:(discriminate) ltac:(discriminate))
    as (_ & _ & _ & H1 & _).
  pose proof (record_five_keys "x" "eth" "eth_call"
                (RecordUpstreamRequest "x" "eth" "eth_call" (NewTracker "p" 60))
                ltac:(discriminate) ltac:(discriminate) ltac:(discriminate))
    as (_ & _ & _ & H2 & Hframe & _).
  pose proof (record_five_keys "x" "eth" "eth_call"
                (RecordUpstreamRequest "x" "eth" "eth_call"
                   (RecordUpstreamRequest "x" "eth" "eth_call"
                      (NewTracker "p" 60)))
                ltac:(discriminate) ltac:(discriminate) ltac:(discriminate))
    as (_ & _ & _ & H3 & _).
  destruct (H1 _ Hin) as ((m1 & Hm1 & Hc1 & _) & _).
  destruct (H2 _ Hin) as ((m2 & Hm2 & Hc2 & _) & _).
  destruct (H3 _ Hin') as (_ & (m3 & Hm3 & Hc3 & _) & _).
  destruct (Hframe _ Hout) as (Hf & _).
  split; [|split; [|split]].
  - rewrite Hm1. cbn [fmap option_fmap option_map]. f_equal.
    apply counters_inv in Hc1 as (-> & _). vm_compute. reflexivity.
  - rewrite Hm2. cbn [fmap option_fmap option_map]. f_equal.
    apply counters_inv in Hc2 as (-> & _). vm_compute. reflexivity.
  - rewrite Hm3. cbn [fmap option_fmap option_map]. f_equal.
    apply counters_inv in Hc3 as (_ & -> & _). vm_compute. reflexivity.
  - rewrite Hf. vm_compute. reflexivity.
Defined.

(** ** Non-positive block numbers *)

Lemma Set_nonpositive_id (ups network : string) (blockNumber : Z)
    (t : Tracker) :
  blockNumber ≤ 0 →
  SetLatestBlockNumber ups network blockNumber t = t ∧
  SetFinalizedBlockNumber ups network blockNumber t = t.
Proof.
  intros Hb. unfold SetLatestBlockNumber, SetFinalizedBlockNumber.
  by rewrite !decide_True by done.
Qed.

(** C8.  [SetLatestBlockNumber] and [SetFinalizedBlockNumber] with
    [blockNumber <= 0] return the tracker as it was: no head-metadata record
    is created for (ups, network) or ("*", network), no mark and no lag
    gauge changes. *)
Theorem Set_nonpositive_noop (ups network : string) (blockNumber : Z)
    (t : Tracker) :
  blockNumber ≤ 0 →
  SetLatestBlockNumber ups network blockNumber t = t ∧
  SetFinalizedBlockNumber ups network blockNumber t = t.
Proof.
  intros Hb. by apply Set_nonpositive_id.
Qed.

Lemma Set_nonpositive_noop_witness :
  SetLatestBlockNumber "x" "eth" (-5) (NewTracker "p" 60) = NewTracker "p" 60 ∧
  SetFinalizedBlockNumber "x" "eth" (-5) (NewTracker "p" 60)
    = NewTracker "p" 60.
Proof. apply (Set_nonpositive_noop "x" "eth" (-5)). lia. Defined.

(** ** Cordon *)

Lemma Cordon_touch (ups network method reason : string) (t : Tracker) k :
  metrics (Cordon ups network method reason t) !! k =
    if decide (TripletKey ups network method = k)
    then Some (with_CordonedReason (Store (Some reason))
                 (with_Cordoned (Store true)
                    (default newTrackedMetrics (metrics t !! k))))
    else metrics t !! k.
Proof.
  unfold Cordon. destruct (getMetrics _ t) as [tm t1] eqn:Hg.
  assert (t1 = (getMetrics (TripletKey ups network method) t).2) as ->
    by by rewrite Hg.
  rewrite !atMetrics_lookup, getMetrics_lookup.
  case_decide; [by subst|done].
Qed.

Lemma Uncordon_touch (ups network method : string) (t : Tracker) k :
  metrics (Uncordon ups network method t) !! k =
    if decide (TripletKey ups network method = k)
    then Some (with_CordonedReason (Store (Some EmptyString))
                 (with_Cordoned (Store false)
                    (default newTrackedMetrics (metrics t !! k))))
    else metrics t !! k.
Proof.
  unfold Uncordon. destruct (getMetrics _ t) as [tm t1] eqn:Hg.
  assert (t1 = (getMetrics (TripletKey ups network method) t).2) as ->
    by by rewrite Hg.
  rewrite !atMetrics_lookup, getMetrics_lookup.
  case_decide; [by subst|done].
Qed.

(** The flag a lookup of [k] sees: the record's flag, false without
    record. *)
Lemma IsCordoned_unfold (ups network method : string) (t : Tracker) :
  IsCordoned ups network method t =
    cordonedAt (TripletKey ups network "*") t
    || cordonedAt (TripletKey ups network method) t.
Proof.
  unfold IsCordoned, cordonedAt.
  destruct (metrics t !! TripletKey ups network "*") as [tm|]; simpl; [|done].
  by destruct (Cordoned tm).
Qed.

(** C6 as the specification words it fails: with (u, n, "*") cordoned,
    [IsCordoned u n m] is still true immediately after [Uncordon u n m],
    and it is true for the key (u, n, m') that has no record. *)
Lemma IsCordoned_after_Uncordon_counterexample :
  let t := Uncordon "u" "n" "m" (Cordon "u" "n" "*" "down" (NewTracker "p" 60)) in
  IsCordoned "u" "n" "m" t ≠ false ∧
  (metrics t !! TripletKey "u" "n" "m'" = None ∧
   IsCordoned "u" "n" "m'" t ≠ false).
Proof. vm_compute. repeat split; discriminate. Qed.

(** C6 (as amended).  [IsCordoned u n m] is true if the record of
    (u, n, "*") exists with its flag set; otherwise it is the flag of the
    record of (u, n, m) if that exists; otherwise false.  So it is true
    immediately after [Cordon u n m reason] and for every method after
    [Cordon u n "*" reason]; it is false immediately after [Uncordon u n m]
    when [m] is "*" or the record of (u, n, "*") is absent or not cordoned;
    and it is false when neither (u, n, m) nor (u, n, "*") has a record. *)
Theorem IsCordoned_spec (u n m : string) (t : Tracker) :
  (IsCordoned u n m t =
     match metrics t !! TripletKey u n "*" with
     | Some w =>
         if Cordoned w then true
         else match metrics t !! TripletKey u n m with
              | Some tm => Cordoned tm
              | None => false
              end
     | None =>
         match metrics t !! TripletKey u n m with
         | Some tm => Cordoned tm
         | None => false
         end
     end) ∧
  (∀ reason, IsCordoned u n m (Cordon u n m reason t) = true) ∧
  (∀ reason, IsCordoned u n m (Cordon u n "*" reason t) = true) ∧
  (m = "*"%string ∨ cordonedAt (TripletKey u n "*") t = false →
     IsCordoned u n m (Uncordon u n m t) = false) ∧
  (metrics t !! TripletKey u n "*" = None →
     metrics t !! TripletKey u n m = None →
     IsCordoned u n m t = false).
Proof.
  split; [reflexivity|]. split; [|split; [|split]].
  - intros reason. rewrite IsCordoned_unfold. unfold cordonedAt.
    rewrite !Cordon_touch. rewrite (decide_True (P := _ = TripletKey u n m)) by done.
    simpl. apply orb_true_r.
  - intros reason. rewrite IsCordoned_unfold. unfold cordonedAt.
    rewrite !Cordon_touch. by rewrite (decide_True (P := _ = TripletKey u n "*")).
  - intros Hw. rewrite IsCordoned_unfold. unfold cordonedAt in *.
    rewrite !Uncordon_touch.
    rewrite (decide_True (P := _ = TripletKey u n m)) by done. simpl.
    rewrite orb_false_r. case_decide as Heq; [done|].
    destruct Hw as [->|Hw]; [done|]. exact Hw.
  - intros Hw Hk. unfold IsCordoned. by rewrite Hw, Hk.
Qed.

Lemma IsCordoned_spec_witness :
  IsCordoned "u" "n" "m"
    (Uncordon "u" "n" "m" (Cordon "u" "n" "m" "down" (NewTracker "p" 60)))
  = false ∧
  IsCordoned "u" "n" "m" (NewTracker "p" 60) = false.
Proof.
  pose proof (IsCordoned_spec "u" "n" "m"
                (Cordon "u" "n" "m" "down" (NewTracker "p" 60)))
    as (_ & _ & _ & Hunc & _).
  pose proof (IsCordoned_spec "u" "n" "m" (NewTracker "p" 60))
    as (_ & _ & _ & _ & Habs).
  split.
  - apply Hunc. right. vm_compute. reflexivity.
  - apply Habs; vm_compute; reflexivity.
Defined.

(** ** Head metadata under [getMetadata] and pointer writes *)

Lemma getMetadata_fst (k : duoKey) (t : Tracker) :
  (getMetadata k t).1 = loadMetadata k t.
Proof. unfold getMetadata, loadMetadata. by destruct (metadata t !! k). Qed.

Lemma getMetadata_lookup (k k' : duoKey) (t : Tracker) :
  metadata (getMetadata k t).2 !! k' =
    if decide (k = k') then Some (loadMetadata k t) else metadata t !! k'.
Proof.
  unfold getMetadata, loadMetadata. destruct (metadata t !! k) eqn:Hk; simpl.
  - case_decide; by subst.
  - rewrite lookup_insert. by case_decide.
Qed.

Lemma getMetadata_metrics (k : duoKey) (t : Tracker) :
  metrics (getMetadata k t).2 = metrics t.
Proof. unfold getMetadata. by destruct (metadata t !! k). Qed.

Lemma getMetadata_load (k k' : duoKey) (t : Tracker) :
  loadMetadata k' (getMetadata k t).2 = loadMetadata k' t.
Proof.
  unfold loadMetadata at 1. rewrite getMetadata_lookup.
  case_decide; by subst.
Qed.

Lemma atMetadata_lookup (k k' : duoKey) f (t : Tracker) :
  metadata (atMetadata k f t) !! k' =
    if decide (k = k') then f <$> metadata t !! k' else metadata t !! k'.
Proof.
  unfold atMetadata; simpl. rewrite lookup_alter. case_decide; by subst.
Qed.

Lemma atMetadata_metrics (k : duoKey) f (t : Tracker) :
  metrics (atMetadata k f t) = metrics t.
Proof. reflexivity. Qed.

(** ** [Range] with a visitor that writes only the visited record *)

Section Range_local.
Context (f : tripletKey → TrackedMetrics → Tracker → Tracker).
Context (h : tripletKey → TrackedMetrics → TrackedMetrics).
Context (Inv : Tracker → Prop).

Hypothesis Hstep : ∀ k x t,
  Inv t →
  Inv (f k x t) ∧
  ∀ k', metrics (f k x t) !! k' =
          if decide (k = k') then h k <$> metrics t !! k'
          else metrics t !! k'.

Lemma Range_local (m : gmap tripletKey TrackedMetrics) (t0 : Tracker) :
  Inv t0 →
  Inv (Range m f t0) ∧
  ∀ k', metrics (Range m f t0) !! k' =
          match m !! k' with
          | Some _ => h k' <$> metrics t0 !! k'
          | None => metrics t0 !! k'
          end.
Proof.
  intros H0. unfold Range.
  apply (map_fold_weak_ind
           (λ r m, Inv r ∧
              ∀ k', metrics r !! k' =
                      match m !! k' with
                      | Some _ => h k' <$> metrics t0 !! k'
                      | None => metrics t0 !! k'
                      end)).
  - split; [done|]. intros k'. by rewrite lookup_empty.
  - intros i x m' r Hi [HI Hr]. destruct (Hstep i x r HI) as [HI' Hs].
    split; [done|]. intros k'. rewrite Hs, lookup_insert.
    case_decide as Hik; [subst k'|apply Hr].
    by rewrite Hr, Hi.
Qed.

Lemma Range_local_self (t0 : Tracker) :
  Inv t0 →
  Inv (Range (metrics t0) f t0) ∧
  ∀ k', metrics (Range (metrics t0) f t0) !! k' = h k' <$> metrics t0 !! k'.
Proof.
  intros H0. destruct (Range_local (metrics t0) t0 H0) as [HI Hr].
  split; [done|]. intros k'. rewrite Hr.
  by destruct (metrics t0 !! k').
Qed.
End Range_local.

(** The reset tick resets every record and nothing else. *)
Lemma resetMetricsTick_lookup (t : Tracker) (k : tripletKey) :
  metrics (resetMetricsTick t) !! k = Reset <$> metrics t !! k.
Proof.
  unfold resetMetricsTick.
  apply (Range_local_self (λ k _ t, atMetrics k Reset t) (λ _, Reset)
           (λ _, True)); [|done].
  intros i x r _. split; [done|]. intros k'. apply atMetrics_lookup.
Qed.

Lemma resetMetricsTick_metadata (t : Tracker) :
  metadata (resetMetricsTick t) = metadata t.
Proof.
  unfold resetMetricsTick.
  apply (Range_local_self (λ k _ t, atMetrics k Reset t) (λ _, Reset)
           (λ r, metadata r = metadata t)); [|done].
  intros i x r Hr. split; [done|]. intros k'. apply atMetrics_lookup.
Qed.

(** ** Reset *)

Lemma IsCordoned_after_tick (t : Tracker) (u n m : string) :
  IsCordoned u n m (resetMetricsTick t) = false.
Proof.
  rewrite IsCordoned_unfold. unfold cordonedAt.
  rewrite !resetMetricsTick_lookup.
  by destruct (metrics t !! TripletKey u n "*"),
              (metrics t !! TripletKey u n m).
Qed.

(** C1 (as amended).  [Reset] sets the request, error, self-rate-limited
    and remote-rate-limited counters, the block-head-lag gauge and the
    finalization-lag gauge to zero, resets the quantile accumulator, and
    unconditionally sets the cordon flag to false and the cordon reason to
    the empty string.  A tick of the reset loop does this to every record,
    so that nothing is cordoned after it, even what was cordoned just
    before. *)
Theorem Reset_spec (m : TrackedMetrics) :
  RequestsTotal (Reset m) = 0 ∧
  ErrorsTotal (Reset m) = 0 ∧
  SelfRateLimitedTotal (Reset m) = 0 ∧
  RemoteRateLimitedTotal (Reset m) = 0 ∧
  BlockHeadLag (Reset m) = 0 ∧
  FinalizationLag (Reset m) = 0 ∧
  ResponseQuantiles (Reset m) = NewQuantileTracker ∧
  Cordoned (Reset m) = false ∧
  CordonedReason (Reset m) = Some EmptyString ∧
  (∀ t k, metrics (resetMetricsTick t) !! k = Reset <$> metrics t !! k) ∧
  (∀ t u n method reason,
     IsCordoned u n method (Cordon u n method reason t) = true ∧
     IsCordoned u n method (resetMetricsTick (Cordon u n method reason t))
       = false).
Proof.
  repeat (split; [reflexivity|]).
  split; [apply resetMetricsTick_lookup|].
  intros t u n method reason. split; [|apply IsCordoned_after_tick].
  rewrite IsCordoned_unfold. unfold cordonedAt. rewrite !Cordon_touch.
  rewrite (decide_True (P := _ = TripletKey u n method)) by done.
  simpl. apply orb_true_r.
Qed.

(** C1 as the specification words it fails: [Reset] does not write the
    large-rollback gauge; a record whose gauge holds 7 still holds 7 after
    [Reset], not zero. *)
Lemma Reset_keeps_rollback_counterexample :
  BlockHeadLargeRollback
    (Reset (with_BlockHeadLargeRollback (Store 7) newTrackedMetrics)) ≠ 0.
Proof. vm_compute. discriminate. Qed.

(** The narrow update: the records of one upstream on one network. *)
Lemma cascadeOne_spec w (ups network : string) (upsLag : Z) (t : Tracker) :
  let r := Range (metrics t) (cascadeOne w ups network upsLag) t in
  metadata r = metadata t ∧
  ∀ k, metrics r !! k =
         (if decide (tk_ups k = ups ∧ tk_network k = network)
          then w (Store upsLag) else id) <$> metrics t !! k.
Proof.
  apply (Range_local_self (cascadeOne w ups network upsLag)
           (λ k, if decide (tk_ups k = ups ∧ tk_network k = network)
                 then w (Store upsLag) else id)
           (λ r, metadata r = metadata t)); [|done].
  intros i x r Hr. unfold cascadeOne. case_decide.
  - split; [done|]. intros k'. apply atMetrics_lookup.
  - split; [done|]. intros k'. case_decide; [|done].
    by rewrite option_fmap_id.
Qed.

(** The full cascade: every record of the network whose upstream has a
    positive mark; the marks themselves do not move (a missing head
    metadata record is created with its zero value). *)
Lemma cascadeAll_spec val w (network : string) (ntwBn : Z) (t : Tracker) :
  let r := Range (metrics t) (cascadeAll val w network ntwBn) t in
  (∀ dk, loadMetadata dk r = loadMetadata dk t) ∧
  ∀ k, metrics r !! k =
         (if decide (tk_network k = network) then
            if decide (val (loadMetadata (DuoKey (tk_ups k) network) t) ≤ 0)
            then id
            else w (Store (sub64 ntwBn
                             (val (loadMetadata (DuoKey (tk_ups k) network) t))))
          else id) <$> metrics t !! k.
Proof.
  apply (Range_local_self (cascadeAll val w network ntwBn)
           (λ k, if decide (tk_network k = network) then
                   if decide (val (loadMetadata (DuoKey (tk_ups k) network) t) ≤ 0)
                   then id
                   else w (Store (sub64 ntwBn
                             (val (loadMetadata (DuoKey (tk_ups k) network) t))))
                 else id)
           (λ r, ∀ dk, loadMetadata dk r = loadMetadata dk t)); [|done].
  intros i x r Hr. unfold cascadeAll. case_decide as Hn.
  - destruct (getMetadata (DuoKey (tk_ups i) network) r) as [md r1] eqn:Hg.
    assert (md = loadMetadata (DuoKey (tk_ups i) network) t) as ->.
    { rewrite <- Hr, <- getMetadata_fst. by rewrite Hg. }
    assert (r1 = (getMetadata (DuoKey (tk_ups i) network) r).2) as ->
      by by rewrite Hg.
    case_decide as Hv.
    + split.
      * intros dk. by rewrite getMetadata_load.
      * intros k'. rewrite getMetadata_metrics.
        case_decide; [|done]. by rewrite option_fmap_id.
    + split.
      * intros dk. unfold loadMetadata at 1. rewrite atMetrics_metadata.
        fold (loadMetadata dk (getMetadata (DuoKey (tk_ups i) network) r).2).
        by rewrite getMetadata_load.
      * intros k'. rewrite atMetrics_lookup, getMetadata_metrics. done.
  - split; [done|]. intros k'. case_decide; [|done].
    by rewrite option_fmap_id.
Qed.

Lemma getMetadata_present (k : duoKey) (t : Tracker) :
  is_Some (metadata (getMetadata k t).2 !! k).
Proof. rewrite getMetadata_lookup. by rewrite decide_True. Qed.

Lemma getMetadata_keeps (k k' : duoKey) (t : Tracker) :
  is_Some (metadata t !! k') → is_Some (metadata (getMetadata k t).2 !! k').
Proof.
  intros Hk'. rewrite getMetadata_lookup. case_decide; [done|done].
Qed.

Lemma atMetadata_keeps (k k' : duoKey) f (t : Tracker) :
  is_Some (metadata t !! k') → is_Some (metadata (atMetadata k f t) !! k').
Proof.
  intros Hk'. rewrite atMetadata_lookup. case_decide; [|done].
  by apply fmap_is_Some.
Qed.

Lemma atMetadata_load (k k' : duoKey) f (t : Tracker) :
  is_Some (metadata t !! k) →
  loadMetadata k' (atMetadata k f t) =
    if decide (k = k') then f (loadMetadata k' t) else loadMetadata k' t.
Proof.
  intros [nm Hk]. unfold loadMetadata. rewrite atMetadata_lookup.
  case_decide; [subst k'|done]. by rewrite Hk.
Qed.

(** Naming the two components of a [getMetadata] call. *)
Ltac name_getMetadata :=
  match goal with
  | |- context [getMetadata ?k ?t] =>
      let md := fresh "md" in
      let t1 := fresh "t" in
      let Hg := fresh "Hg" in
      destruct (getMetadata k t) as [md t1] eqn:Hg;
      assert (md = loadMetadata k t)
        by (rewrite <- getMetadata_fst; by rewrite Hg);
      assert (t1 = (getMetadata k t).2) by (by rewrite Hg);
      clear Hg; subst md t1
  end.

Lemma getMetadata_latestMark (k dk : duoKey) (t : Tracker) :
  latestMark dk (getMetadata k t).2 = latestMark dk t.
Proof. unfold latestMark. by rewrite getMetadata_load. Qed.

Lemma getMetadata_finalizedMark (k dk : duoKey) (t : Tracker) :
  finalizedMark dk (getMetadata k t).2 = finalizedMark dk t.
Proof. unfold finalizedMark. by rewrite getMetadata_load. Qed.

Lemma store_latest_marks (k dk : duoKey) (b : Z) (t : Tracker) :
  is_Some (metadata t !! k) →
  latestMark dk (atMetadata k (store_evmLatestBlockNumber b) t)
    = (if decide (k = dk) then b else latestMark dk t) ∧
  finalizedMark dk (atMetadata k (store_evmLatestBlockNumber b) t)
    = finalizedMark dk t.
Proof.
  intros Hk. unfold latestMark, finalizedMark.
  rewrite atMetadata_load by done. by case_decide.
Qed.

Lemma store_finalized_marks (k dk : duoKey) (b : Z) (t : Tracker) :
  is_Some (metadata t !! k) →
  finalizedMark dk (atMetadata k (store_evmFinalizedBlockNumber b) t)
    = (if decide (k = dk) then b else finalizedMark dk t) ∧
  latestMark dk (atMetadata k (store_evmFinalizedBlockNumber b) t)
    = latestMark dk t.
Proof.
  intros Hk. unfold latestMark, finalizedMark.
  rewrite atMetadata_load by done. by case_decide.
Qed.

Ltac solve_marks :=
  first [ lia | tauto | intuition congruence
        | exfalso; intuition congruence
        | intuition (simplify_eq; lia) ].

Lemma bumpLatest_spec (ups network : string) (blockNumber : Z) (t : Tracker) :
  let r := bumpLatest ups network blockNumber t in
  metrics r.2 = metrics t ∧
  r.1 = bool_decide (blockNumber > latestMark (DuoKey "*" network) t) ∧
  (∀ dk, latestMark dk r.2 =
           if decide (dk = DuoKey "*" network ∨ dk = DuoKey ups network)
           then Z.max (latestMark dk t) blockNumber
           else latestMark dk t) ∧
  (∀ dk, finalizedMark dk r.2 = finalizedMark dk t).
Proof.
  unfold bumpLatest. name_getMetadata.
  fold (latestMark (DuoKey "*" network) t).
  pose proof (getMetadata_present (DuoKey "*" network) t) as Hp1.
  pose proof (λ dk, getMetadata_latestMark (DuoKey "*" network) dk t) as Hl1.
  pose proof (λ dk, getMetadata_finalizedMark (DuoKey "*" network) dk t) as Hf1.
  pose proof (getMetadata_metrics (DuoKey "*" network) t) as Hm1.
  set (t1 := (getMetadata (DuoKey "*" network) t).2) in *. clearbody t1.
  set (g := bool_decide (blockNumber > latestMark (DuoKey "*" network) t)).
  assert (∃ t2,
    (if decide (blockNumber > latestMark (DuoKey "*" network) t)
     then (true, atMetadata (DuoKey "*" network)
                   (store_evmLatestBlockNumber blockNumber) t1)
     else (false, t1)) = (g, t2) ∧
    metrics t2 = metrics t ∧
    (∀ dk, latestMark dk t2 =
             if decide (dk = DuoKey "*" network)
             then Z.max (latestMark dk t) blockNumber else latestMark dk t) ∧
    (∀ dk, finalizedMark dk t2 = finalizedMark dk t))
    as (t2 & -> & Hm2 & Hl2 & Hf2).
  { subst g. case_decide as Hb.
    - eexists; split; [by rewrite bool_decide_eq_true_2|].
      split; [done|]. split; intros dk.
      + destruct (store_latest_marks (DuoKey "*" network) dk blockNumber t1 Hp1)
          as [-> _].
        rewrite Hl1. repeat case_decide; subst; try done. lia.
      + destruct (store_latest_marks (DuoKey "*" network) dk blockNumber t1 Hp1)
          as [_ ->]. apply Hf1.
    - eexists; split; [by rewrite bool_decide_eq_false_2|].
      split; [done|]. split; intros dk; [|apply Hf1].
      rewrite Hl1. case_decide; subst; [lia|done]. }
  clear dependent t1.
  name_getMetadata.
  pose proof (getMetadata_present (DuoKey ups network) t2) as Hp3.
  pose proof (λ dk, getMetadata_latestMark (DuoKey ups network) dk t2) as Hl3.
  pose proof (λ dk, getMetadata_finalizedMark (DuoKey ups network) dk t2) as Hf3.
  pose proof (getMetadata_metrics (DuoKey ups network) t2) as Hm3.
  set (t3 := (getMetadata (DuoKey ups network) t2).2) in *. clearbody t3.
  fold (latestMark (DuoKey ups network) t3). simpl.
  split; [|split; [done|]].
  { case_decide; [rewrite atMetadata_metrics|]; congruence. }
  split; intros dk.
  - case_decide as Hb.
    + destruct (store_latest_marks (DuoKey ups network) dk blockNumber t3 Hp3)
        as [-> _].
      rewrite Hl3, Hl2 in *.
      repeat case_decide; simplify_eq; solve_marks.
    + rewrite Hl3, Hl2 in *.
      repeat case_decide; simplify_eq; solve_marks.
  - case_decide.
    + destruct (store_latest_marks (DuoKey ups network) dk blockNumber t3 Hp3)
        as [_ ->]. by rewrite Hf3.
    + by rewrite Hf3.
Qed.

Lemma bumpFinalized_spec (ups network : string) (blockNumber : Z) (t : Tracker) :
  let r := bumpFinalized ups network blockNumber t in
  metrics r.2 = metrics t ∧
  r.1 = bool_decide (blockNumber > finalizedMark (DuoKey "*" network) t) ∧
  (∀ dk, finalizedMark dk r.2 =
           if decide (dk = DuoKey "*" network ∨ dk = DuoKey ups network)
           then Z.max (finalizedMark dk t) blockNumber
           else finalizedMark dk t) ∧
  (∀ dk, latestMark dk r.2 = latestMark dk t).
Proof.
  unfold bumpFinalized. name_getMetadata.
  pose proof (getMetadata_present (DuoKey ups network) t) as Hp0.
  pose proof (λ dk, getMetadata_latestMark (DuoKey ups network) dk t) as Hl0.
  pose proof (λ dk, getMetadata_finalizedMark (DuoKey ups network) dk t) as Hf0.
  pose proof (getMetadata_metrics (DuoKey ups network) t) as Hm0.
  set (t0 := (getMetadata (DuoKey ups network) t).2) in *. clearbody t0.
  name_getMetadata.
  pose proof (getMetadata_present (DuoKey "*" network) t0) as Hp1.
  pose proof (getMetadata_keeps (DuoKey "*" network) _ t0 Hp0) as Hp1'.
  pose proof (λ dk, getMetadata_latestMark (DuoKey "*" network) dk t0) as Hl1.
  pose proof (λ dk, getMetadata_finalizedMark (DuoKey "*" network) dk t0) as Hf1.
  pose proof (getMetadata_metrics (DuoKey "*" network) t0) as Hm1.
  set (t1 := (getMetadata (DuoKey "*" network) t0).2) in *. clearbody t1.
  fold (finalizedMark (DuoKey "*" network) t1).
  rewrite (Hf1 (DuoKey "*" network)), (Hf0 (DuoKey "*" network)).
  set (g := bool_decide (blockNumber > finalizedMark (DuoKey "*" network) t)).
  assert (∃ t2,
    (if decide (blockNumber > finalizedMark (DuoKey "*" network) t)
     then (true, atMetadata (DuoKey "*" network)
                   (store_evmFinalizedBlockNumber blockNumber) t1)
     else (false, t1)) = (g, t2) ∧
    metrics t2 = metrics t ∧
    is_Some (metadata t2 !! DuoKey ups network) ∧
    (∀ dk, finalizedMark dk t2 =
             if decide (dk = DuoKey "*" network)
             then Z.max (finalizedMark dk t) blockNumber
             else finalizedMark dk t) ∧
    (∀ dk, latestMark dk t2 = latestMark dk t))
    as (t2 & -> & Hm2 & Hp2 & Hf2 & Hl2).
  { subst g. case_decide as Hb.
    - eexists; split; [by rewrite bool_decide_eq_true_2|].
      split; [simpl; congruence|]. split; [by apply atMetadata_keeps|].
      split; intros dk.
      + destruct (store_finalized_marks (DuoKey "*" network) dk blockNumber
                    t1 Hp1) as [-> _].
        rewrite Hf1, Hf0. repeat case_decide; simplify_eq; solve_marks.
      + destruct (store_finalized_marks (DuoKey "*" network) dk blockNumber
                    t1 Hp1) as [_ ->]. by rewrite Hl1, Hl0.
    - eexists; split; [by rewrite bool_decide_eq_false_2|].
      split; [congruence|]. split; [done|].
      split; intros dk; [|by rewrite Hl1, Hl0].
      rewrite Hf1, Hf0. case_decide; simplify_eq; solve_marks. }
  clear dependent t1. clear dependent t0.
  fold (finalizedMark (DuoKey ups network) t2). simpl.
  split; [|split; [done|]].
  { case_decide; [rewrite atMetadata_metrics|]; congruence. }
  split; intros dk.
  - case_decide as Hb.
    + destruct (store_finalized_marks (DuoKey ups network) dk blockNumber
                  t2 Hp2) as [-> _].
      rewrite Hf2 in *. repeat case_decide; simplify_eq; solve_marks.
    + rewrite Hf2 in *. repeat case_decide; simplify_eq; solve_marks.
  - case_decide.
    + destruct (store_finalized_marks (DuoKey ups network) dk blockNumber
                  t2 Hp2) as [_ ->]. by rewrite Hl2.
    + by rewrite Hl2.
Qed.

Lemma Range_ext {S : Type} (m : gmap tripletKey TrackedMetrics)
    (f g : tripletKey → TrackedMetrics → S → S) (s : S) :
  (∀ k x s, f k x s = g k x s) → Range m f s = Range m g s.
Proof.
  intros Hfg. unfold Range. rewrite !map_fold_foldr.
  apply foldr_ext; [|done..]. intros [k x] s'. apply Hfg.
Qed.

(** [SetLatestBlockNumber] as its guard, the two watermark updates, and one
    of the two passes over the records. *)
Lemma SetLatestBlockNumber_unfold (ups network : string) (blockNumber : Z)
    (t : Tracker) :
  SetLatestBlockNumber ups network blockNumber t =
    if decide (blockNumber ≤ 0) then t
    else
      let r := bumpLatest ups network blockNumber t in
      let ntwBn := latestMark (DuoKey "*" network) r.2 in
      if decide (ntwBn ≤ 0) then r.2
      else if r.1 then
        Range (metrics r.2)
          (cascadeAll evmLatestBlockNumber with_BlockHeadLag network ntwBn) r.2
      else
        Range (metrics r.2)
          (cascadeOne with_BlockHeadLag ups network
             (sub64 ntwBn (latestMark (DuoKey ups network) r.2))) r.2.
Proof.
  unfold SetLatestBlockNumber, bumpLatest, latestMark.
  case_decide; [done|].
  destruct (getMetadata (DuoKey "*" network) t) as [ntwMeta t1].
  destruct (decide (blockNumber > evmLatestBlockNumber ntwMeta));
    destruct (getMetadata (DuoKey ups network) _) as [upsMeta t2];
    simpl; case_decide; done.
Qed.

Lemma SetFinalizedBlockNumber_unfold (ups network : string) (blockNumber : Z)
    (t : Tracker) :
  SetFinalizedBlockNumber ups network blockNumber t =
    if decide (blockNumber ≤ 0) then t
    else
      let r := bumpFinalized ups network blockNumber t in
      let ntwVal := finalizedMark (DuoKey "*" network) r.2 in
      if decide (ntwVal ≤ 0) then r.2
      else if r.1 then
        Range (metrics r.2)
          (cascadeAll evmFinalizedBlockNumber with_FinalizationLag network
             ntwVal) r.2
      else
        Range (metrics r.2)
          (cascadeOne with_FinalizationLag ups network
             (sub64 ntwVal (finalizedMark (DuoKey ups network) r.2))) r.2.
Proof.
  unfold SetFinalizedBlockNumber, bumpFinalized, finalizedMark.
  case_decide; [done|].
  destruct (getMetadata (DuoKey ups network) t) as [upsMeta t1].
  destruct (getMetadata (DuoKey "*" network) t1) as [ntwMeta t2].
  destruct (decide (blockNumber > _)); simpl; case_decide; try done.
  apply Range_ext. intros k x s. unfold cascadeAll.
  destruct (decide (tk_network k = network)) as [Hn|]; [|done].
  by rewrite Hn.
Qed.

Lemma loadMetadata_ext (t1 t2 : Tracker) :
  metadata t1 = metadata t2 → ∀ dk, loadMetadata dk t1 = loadMetadata dk t2.
Proof. intros H dk. unfold loadMetadata. by rewrite H. Qed.

(** What one call of [SetLatestBlockNumber] with a positive block number
    does to the marks and to the records. *)
Lemma SetLatestBlockNumber_spec (ups network : string) (blockNumber : Z)
    (t : Tracker) :
  0 < blockNumber →
  let t' := SetLatestBlockNumber ups network blockNumber t in
  (∀ dk, latestMark dk t' =
           if decide (dk = DuoKey "*" network ∨ dk = DuoKey ups network)
           then Z.max (latestMark dk t) blockNumber
           else latestMark dk t) ∧
  (∀ dk, finalizedMark dk t' = finalizedMark dk t) ∧
  (∀ k, metrics t' !! k =
          (if decide (blockNumber > latestMark (DuoKey "*" network) t)
           then lagAll with_BlockHeadLag (λ dk, latestMark dk t') network k
           else lagOne with_BlockHeadLag (λ dk, latestMark dk t') ups network k)
          <$> metrics t !! k).
Proof.
  intros Hb t'. subst t'. rewrite SetLatestBlockNumber_unfold.
  rewrite decide_False by lia.
  destruct (bumpLatest_spec ups network blockNumber t) as (Hm & Hg & Hl & Hf).
  destruct (bumpLatest ups network blockNumber t) as [g t2]. simpl in *.
  assert (¬ latestMark (DuoKey "*" network) t2 ≤ 0) as Hpos.
  { rewrite Hl. rewrite decide_True by (by left). lia. }
  rewrite (decide_False (P := latestMark _ t2 ≤ 0)) by done.
  subst g. case_bool_decide as Hadv.
  - destruct (cascadeAll_spec evmLatestBlockNumber with_BlockHeadLag network
                (latestMark (DuoKey "*" network) t2) t2) as [Hload Hrec].
    set (r := Range _ _ t2) in *. clearbody r.
    assert (∀ dk, latestMark dk r = latestMark dk t2) as Hlr.
    { intros dk. unfold latestMark. by rewrite Hload. }
    split; [intros dk; by rewrite Hlr, Hl|].
    split; [intros dk; unfold finalizedMark; rewrite Hload; apply Hf|].
    intros k. rewrite Hrec, Hm.
    rewrite (decide_True (P := blockNumber > _)) by done.
    unfold lagAll. rewrite !Hlr. done.
  - destruct (cascadeOne_spec with_BlockHeadLag ups network
                (sub64 (latestMark (DuoKey "*" network) t2)
                   (latestMark (DuoKey ups network) t2)) t2) as [Hmd Hrec].
    set (r := Range _ _ t2) in *. clearbody r.
    pose proof (loadMetadata_ext r t2 Hmd) as Hload.
    assert (∀ dk, latestMark dk r = latestMark dk t2) as Hlr.
    { intros dk. unfold latestMark. by rewrite Hload. }
    split; [intros dk; by rewrite Hlr, Hl|].
    split; [intros dk; unfold finalizedMark; rewrite Hload; apply Hf|].
    intros k. rewrite Hrec, Hm.
    rewrite (decide_False (P := blockNumber > _)) by done.
    unfold lagOne. rewrite !Hlr. done.
Qed.

Lemma SetFinalizedBlockNumber_spec (ups network : string) (blockNumber : Z)
    (t : Tracker) :
  0 < blockNumber →
  let t' := SetFinalizedBlockNumber ups network blockNumber t in
  (∀ dk, finalizedMark dk t' =
           if decide (dk = DuoKey "*" network ∨ dk = DuoKey ups network)
           then Z.max (finalizedMark dk t) blockNumber
           else finalizedMark dk t) ∧
  (∀ dk, latestMark dk t' = latestMark dk t) ∧
  (∀ k, metrics t' !! k =
          (if decide (blockNumber > finalizedMark (DuoKey "*" network) t)
           then lagAll with_FinalizationLag (λ dk, finalizedMark dk t') network k
           else lagOne with_FinalizationLag (λ dk, finalizedMark dk t')
                  ups network k)
          <$> metrics t !! k).
Proof.
  intros Hb t'. subst t'. rewrite SetFinalizedBlockNumber_unfold.
  rewrite decide_False by lia.
  destruct (bumpFinalized_spec ups network blockNumber t)
    as (Hm & Hg & Hf & Hl).
  destruct (bumpFinalized ups network blockNumber t) as [g t2]. simpl in *.
  assert (¬ finalizedMark (DuoKey "*" network) t2 ≤ 0) as Hpos.
  { rewrite Hf. rewrite decide_True by (by left). lia. }
  rewrite (decide_False (P := finalizedMark _ t2 ≤ 0)) by done.
  subst g. case_bool_decide as Hadv.
  - destruct (cascadeAll_spec evmFinalizedBlockNumber with_FinalizationLag
                network (finalizedMark (DuoKey "*" network) t2) t2)
      as [Hload Hrec].
    set (r := Range _ _ t2) in *. clearbody r.
    assert (∀ dk, finalizedMark dk r = finalizedMark dk t2) as Hfr.
    { intros dk. unfold finalizedMark. by rewrite Hload. }
    split; [intros dk; by rewrite Hfr, Hf|].
    split; [intros dk; unfold latestMark; rewrite Hload; apply Hl|].
    intros k. rewrite Hrec, Hm.
    rewrite (decide_True (P := blockNumber > _)) by done.
    unfold lagAll. rewrite !Hfr. done.
  - destruct (cascadeOne_spec with_FinalizationLag ups network
                (sub64 (finalizedMark (DuoKey "*" network) t2)
                   (finalizedMark (DuoKey ups network) t2)) t2) as [Hmd Hrec].
    set (r := Range _ _ t2) in *. clearbody r.
    pose proof (loadMetadata_ext r t2 Hmd) as Hload.
    assert (∀ dk, finalizedMark dk r = finalizedMark dk t2) as Hfr.
    { intros dk. unfold finalizedMark. by rewrite Hload. }
    split; [intros dk; by rewrite Hfr, Hf|].
    split; [intros dk; unfold latestMark; rewrite Hload; apply Hl|].
    intros k. rewrite Hrec, Hm.
    rewrite (decide_False (P := blockNumber > _)) by done.
    unfold lagOne. rewrite !Hfr. done.
Qed.

(** ** The lag cascade *)

Lemma int64_metadata_marks (t : Tracker) (dk : duoKey) :
  int64_metadata t →
  int64_range (latestMark dk t) ∧ int64_range (finalizedMark dk t).
Proof.
  intros Hwf. unfold latestMark, finalizedMark, loadMetadata.
  destruct (metadata t !! dk) as [nm|] eqn:Hdk; simpl.
  - exact (Hwf dk nm Hdk).
  - unfold int64_range, min_int64, max_int64. lia.
Qed.

(** The two passes, for either gauge: what the record of [k] holds after a
    pass whose marks are [mark], in exact integer arithmetic when the marks
    are [int64] values. *)
Lemma lagAll_exact w (mark : duoKey → Z) (network : string) (k : tripletKey)
    (tm : TrackedMetrics) :
  (∀ dk, int64_range (mark dk)) → 0 < mark (DuoKey "*" network) →
  tk_network k = network →
  lagAll w mark network k tm =
    if decide (mark (DuoKey (tk_ups k) network) ≤ 0) then tm
    else w (Store (mark (DuoKey "*" network) - mark (DuoKey (tk_ups k) network)))
           tm.
Proof.
  intros Hr Hpos Hn. unfold lagAll. rewrite decide_True by done.
  case_decide; [done|]. rewrite sub64_pos; [done| |].
  - destruct (Hr (DuoKey "*" network)). lia.
  - destruct (Hr (DuoKey (tk_ups k) network)). lia.
Qed.

Lemma lagOne_exact w (mark : duoKey → Z) (ups network : string)
    (k : tripletKey) (tm : TrackedMetrics) :
  (∀ dk, int64_range (mark dk)) →
  0 < mark (DuoKey "*" network) → 0 < mark (DuoKey ups network) →
  lagOne w mark ups network k tm =
    if decide (tk_ups k = ups ∧ tk_network k = network)
    then w (Store (mark (DuoKey "*" network) - mark (DuoKey ups network))) tm
    else tm.
Proof.
  intros Hr Hpos Hposu. unfold lagOne. case_decide; [|done].
  rewrite sub64_pos; [done| |].
  - destruct (Hr (DuoKey "*" network)). lia.
  - destruct (Hr (DuoKey ups network)). lia.
Qed.

(** C2.  For [SetLatestBlockNumber ups n b] with [b > 0] (and in the same
    way [SetFinalizedBlockNumber] with the finalized mark and the
    finalization-lag gauge): when [b] exceeds the stored network mark of
    [n], the network mark becomes [b] and every existing record whose key
    has network [n] holds lag gauge = new network mark minus the mark of its
    key's own upstream, except the records whose upstream mark is still
    [<= 0], which are left unchanged; when [b] does not exceed the network
    mark, exactly the records whose key has upstream [ups] and network [n]
    have the gauge overwritten, with network mark minus the mark of [ups],
    and every other record is unchanged.  The marks are the ones after the
    call; no other field of a record is written. *)
Theorem lag_cascade (ups n : string) (b : Z) (t : Tracker) :
  0 < b → int64_range b → int64_metadata t →
  let ntw := DuoKey "*" n in
  (let t' := SetLatestBlockNumber ups n b t in
   (latestMark ntw t < b →
    latestMark ntw t' = b ∧
    ∀ k tm, metrics t !! k = Some tm → tk_network k = n →
      let own := latestMark (DuoKey (tk_ups k) n) t' in
      metrics t' !! k =
        Some (if decide (own ≤ 0) then tm
              else with_BlockHeadLag (Store (latestMark ntw t' - own)) tm)) ∧
   (b ≤ latestMark ntw t →
    latestMark ntw t' = latestMark ntw t ∧
    ∀ k tm, metrics t !! k = Some tm →
      metrics t' !! k =
        Some (if decide (tk_ups k = ups ∧ tk_network k = n)
              then with_BlockHeadLag
                     (Store (latestMark ntw t' - latestMark (DuoKey ups n) t'))
                     tm
              else tm))) ∧
  (let t' := SetFinalizedBlockNumber ups n b t in
   (finalizedMark ntw t < b →
    finalizedMark ntw t' = b ∧
    ∀ k tm, metrics t !! k = Some tm → tk_network k = n →
      let own := finalizedMark (DuoKey (tk_ups k) n) t' in
      metrics t' !! k =
        Some (if decide (own ≤ 0) then tm
              else with_FinalizationLag (Store (finalizedMark ntw t' - own))
                     tm)) ∧
   (b ≤ finalizedMark ntw t →
    finalizedMark ntw t' = finalizedMark ntw t ∧
    ∀ k tm, metrics t !! k = Some tm →
      metrics t' !! k =
        Some (if decide (tk_ups k = ups ∧ tk_network k = n)
              then with_FinalizationLag
                     (Store (finalizedMark ntw t'
                             - finalizedMark (DuoKey ups n) t'))
                     tm
              else tm))).
Proof.
  intros Hb Hbr Hwf ntw. subst ntw. split.
  - destruct (SetLatestBlockNumber_spec ups n b t Hb) as (Hl & _ & Hrec).
    set (t' := SetLatestBlockNumber ups n b t) in *. clearbody t'.
    assert (∀ dk, int64_range (latestMark dk t')) as Hr'.
    { intros dk. rewrite Hl.
      destruct (int64_metadata_marks t dk Hwf) as [Hdk _].
      unfold int64_range in *. destruct (decide (dk = _ ∨ _)); lia. }
    assert (latestMark (DuoKey "*" n) t' = latestMark (DuoKey "*" n) t `max` b)
      as Hntw.
    { rewrite Hl. rewrite decide_True by (by left). done. }
    assert (latestMark (DuoKey ups n) t'
            = latestMark (DuoKey ups n) t `max` b) as Hups.
    { rewrite Hl. rewrite decide_True by (by right). done. }
    simpl. split.
    + intros Hadv. split; [lia|]. intros k tm Hk Hkn.
      rewrite Hrec, Hk. rewrite (decide_True (P := b > _)) by lia. simpl.
      f_equal. apply (lagAll_exact _ (λ dk, latestMark dk t')); [done| |done].
      lia.
    + intros Hadv. split; [lia|]. intros k tm Hk.
      rewrite Hrec, Hk. rewrite (decide_False (P := b > _)) by lia. simpl.
      f_equal. apply (lagOne_exact _ (λ dk, latestMark dk t')); [done| |].
      * lia.
      * lia.
  - destruct (SetFinalizedBlockNumber_spec ups n b t Hb) as (Hf & _ & Hrec).
    set (t' := SetFinalizedBlockNumber ups n b t) in *. clearbody t'.
    assert (∀ dk, int64_range (finalizedMark dk t')) as Hr'.
    { intros dk. rewrite Hf.
      destruct (int64_metadata_marks t dk Hwf) as [_ Hdk].
      unfold int64_range in *. destruct (decide (dk = _ ∨ _)); lia. }
    assert (finalizedMark (DuoKey "*" n) t'
            = finalizedMark (DuoKey "*" n) t `max` b) as Hntw.
    { rewrite Hf. rewrite decide_True by (by left). done. }
    assert (finalizedMark (DuoKey ups n) t'
            = finalizedMark (DuoKey ups n) t `max` b) as Hups.
    { rewrite Hf. rewrite decide_True by (by right). done. }
    simpl. split.
    + intros Hadv. split; [lia|]. intros k tm Hk Hkn.
      rewrite Hrec, Hk. rewrite (decide_True (P := b > _)) by lia. simpl.
      f_equal. apply (lagAll_exact _ (λ dk, finalizedMark dk t')); [done| |done].
      lia.
    + intros Hadv. split; [lia|]. intros k tm Hk.
      rewrite Hrec, Hk. rewrite (decide_False (P := b > _)) by lia. simpl.
      f_equal. apply (lagOne_exact _ (λ dk, finalizedMark dk t')); [done| |].
      * lia.
      * lia.
Qed.

Lemma lag_cascade_witness :
  BlockHeadLag <$>
    metrics (SetLatestBlockNumber "B" "n" 150 sampleTracker)
      !! TripletKey "A" "n" "m" = Some 50 ∧
  BlockHeadLag <$>
    metrics (SetLatestBlockNumber "B" "n" 150 sampleTracker)
      !! TripletKey "B" "n" "m" = Some 0 ∧
  FinalizationLag <$>
    metrics (SetFinalizedBlockNumber "B" "n" 80 sampleTracker)
      !! TripletKey "B" "n" "m" = Some 10.
Proof.
  destruct (lag_cascade "B" "n" 150 sampleTracker) as [[Hadv _] _].
  { lia. }
  { vm_compute. split; discriminate. }
  { apply (bool_decide_unpack _). vm_compute. exact I. }
  destruct (lag_cascade "B" "n" 80 sampleTracker) as [_ [_ Hnar]].
  { lia. }
  { vm_compute. split; discriminate. }
  { apply (bool_decide_unpack _). vm_compute. exact I. }
  destruct Hadv as [_ Hall]; [vm_compute; reflexivity|].
  destruct Hnar as [_ Hone]; [vm_compute; discriminate|].
  pose proof (Hall (TripletKey "A" "n" "m")
                (with_RequestsTotal (Store 1) newTrackedMetrics)) as HA.
  pose proof (Hall (TripletKey "B" "n" "m")
                (with_RequestsTotal (Store 1) newTrackedMetrics)) as HB.
  pose proof (Hone (TripletKey "B" "n" "m")
                (with_RequestsTotal (Store 1) newTrackedMetrics)) as HF.
  split; [|split].
  - rewrite HA; vm_compute; reflexivity.
  - rewrite HB; vm_compute; reflexivity.
  - rewrite HF; vm_compute; reflexivity.
Defined.

(** C10.  When [SetLatestBlockNumber] makes a global advance on network
    [n], every existing record whose key has upstream "*" and network [n]
    has block-head-lag gauge 0 afterwards, whatever it held before, the duo
    key ("*", n) being the network mark itself, and nothing else in the
    record changes; likewise the finalization-lag gauge in
    [SetFinalizedBlockNumber]. *)
Theorem wildcard_lag_zero (ups n : string) (b : Z) (t : Tracker) :
  0 < b →
  (latestMark (DuoKey "*" n) t < b →
   ∀ k tm, metrics t !! k = Some tm →
     tk_ups k = "*"%string → tk_network k = n →
     ∃ tm', metrics (SetLatestBlockNumber ups n b t) !! k = Some tm' ∧
            BlockHeadLag tm' = 0 ∧
            exceptBlockHeadLag tm' = exceptBlockHeadLag tm) ∧
  (finalizedMark (DuoKey "*" n) t < b →
   ∀ k tm, metrics t !! k = Some tm →
     tk_ups k = "*"%string → tk_network k = n →
     ∃ tm', metrics (SetFinalizedBlockNumber ups n b t) !! k = Some tm' ∧
            FinalizationLag tm' = 0 ∧
            exceptFinalizationLag tm' = exceptFinalizationLag tm).
Proof.
  intros Hb. split.
  - intros Hadv k tm Hk Hku Hkn.
    destruct (SetLatestBlockNumber_spec ups n b t Hb) as (Hl & _ & Hrec).
    rewrite Hrec, Hk. rewrite (decide_True (P := b > _)) by lia.
    cbn [fmap option_fmap option_map]. eexists. split; [reflexivity|].
    unfold lagAll. rewrite decide_True by done. rewrite Hku.
    assert (latestMark (DuoKey "*" n) (SetLatestBlockNumber ups n b t) = b)
      as ->.
    { rewrite Hl. rewrite decide_True by (by left). lia. }
    rewrite decide_False by lia. rewrite sub64_diag. done.
  - intros Hadv k tm Hk Hku Hkn.
    destruct (SetFinalizedBlockNumber_spec ups n b t Hb) as (Hf & _ & Hrec).
    rewrite Hrec, Hk. rewrite (decide_True (P := b > _)) by lia.
    cbn [fmap option_fmap option_map]. eexists. split; [reflexivity|].
    unfold lagAll. rewrite decide_True by done. rewrite Hku.
    assert (finalizedMark (DuoKey "*" n) (SetFinalizedBlockNumber ups n b t)
            = b) as ->.
    { rewrite Hf. rewrite decide_True by (by left). lia. }
    rewrite decide_False by lia. rewrite sub64_diag. done.
Qed.

Lemma wildcard_lag_zero_witness :
  BlockHeadLag <$> metrics staleWildcardTracker !! TripletKey "*" "n" "m"
    = Some 9 ∧
  BlockHeadLag <$>
    metrics (SetLatestBlockNumber "B" "n" 150 staleWildcardTracker)
      !! TripletKey "*" "n" "m" = Some 0 ∧
  FinalizationLag <$>
    metrics (SetFinalizedBlockNumber "B" "n" 140 staleWildcardTracker)
      !! TripletKey "*" "n" "m" = Some 0 ∧
  RequestsTotal <$>
    metrics (SetLatestBlockNumber "B" "n" 150 staleWildcardTracker)
      !! TripletKey "*" "n" "m" = Some 4.
Proof.
  destruct (wildcard_lag_zero "B" "n" 150 staleWildcardTracker)
    as [Hlatest _]; [lia|].
  destruct (wildcard_lag_zero "B" "n" 140 staleWildcardTracker)
    as [_ Hfinal]; [lia|].
  assert (metrics staleWildcardTracker !! TripletKey "*" "n" "m"
          = Some (mkTrackedMetrics NewQuantileTracker 1 0 0 4 9 7 0 false None))
    as Hk by (vm_compute; reflexivity).
  destruct (Hlatest ltac:(vm_compute; reflexivity) _ _ Hk eq_refl eq_refl)
    as (m1 & Hm1 & Hz1 & Hs1).
  destruct (Hfinal ltac:(vm_compute; reflexivity) _ _ Hk eq_refl eq_refl)
    as (m2 & Hm2 & Hz2 & _).
  split; [|split; [|split]].
  - rewrite Hk. reflexivity.
  - rewrite Hm1. cbn [fmap option_fmap option_map]. by rewrite Hz1.
  - rewrite Hm2. cbn [fmap option_fmap option_map]. by rewrite Hz2.
  - rewrite Hm1. cbn [fmap option_fmap option_map]. f_equal.
    apply exceptBlockHeadLag_counters, counters_inv in Hs1 as (-> & _).
    reflexivity.
Defined.

(** ** Watermarks *)

Lemma SetLatestBlockNumber_latestMark (ups n : string) (b : Z) (t : Tracker)
    (dk : duoKey) :
  latestMark dk (SetLatestBlockNumber ups n b t) =
    if decide (0 < b ∧ (dk = DuoKey "*" n ∨ dk = DuoKey ups n))
    then Z.max (latestMark dk t) b
    else latestMark dk t.
Proof.
  destruct (decide (0 < b)) as [Hb|Hb].
  - destruct (SetLatestBlockNumber_spec ups n b t Hb) as (-> & _ & _).
    repeat case_decide; solve_marks.
  - destruct (Set_nonpositive_id ups n b t) as [-> _]; [lia|].
    rewrite decide_False by tauto. done.
Qed.

Lemma SetLatestBlockNumber_finalizedMark (ups n : string) (b : Z) (t : Tracker)
    (dk : duoKey) :
  finalizedMark dk (SetLatestBlockNumber ups n b t) = finalizedMark dk t.
Proof.
  destruct (decide (0 < b)) as [Hb|Hb].
  - by destruct (SetLatestBlockNumber_spec ups n b t Hb) as (_ & -> & _).
  - by destruct (Set_nonpositive_id ups n b t) as [-> _]; [lia|].
Qed.

Lemma SetFinalizedBlockNumber_finalizedMark (ups n : string) (b : Z)
    (t : Tracker) (dk : duoKey) :
  finalizedMark dk (SetFinalizedBlockNumber ups n b t) =
    if decide (0 < b ∧ (dk = DuoKey "*" n ∨ dk = DuoKey ups n))
    then Z.max (finalizedMark dk t) b
    else finalizedMark dk t.
Proof.
  destruct (decide (0 < b)) as [Hb|Hb].
  - destruct (SetFinalizedBlockNumber_spec ups n b t Hb) as (-> & _ & _).
    repeat case_decide; solve_marks.
  - destruct (Set_nonpositive_id ups n b t) as [_ ->]; [lia|].
    rewrite decide_False by tauto. done.
Qed.

Lemma SetFinalizedBlockNumber_latestMark (ups n : string) (b : Z) (t : Tracker)
    (dk : duoKey) :
  latestMark dk (SetFinalizedBlockNumber ups n b t) = latestMark dk t.
Proof.
  destruct (decide (0 < b)) as [Hb|Hb].
  - by destruct (SetFinalizedBlockNumber_spec ups n b t Hb) as (_ & -> & _).
  - by destruct (Set_nonpositive_id ups n b t) as [_ ->]; [lia|].
Qed.

Lemma foldr_max_init (a b : Z) (l : list Z) :
  foldr Z.max (Z.max a b) l = Z.max b (foldr Z.max a l).
Proof. induction l as [|x l IH]; simpl; [lia|]. rewrite IH. lia. Qed.

Lemma foldr_max_Permutation (a : Z) (l l' : list Z) :
  l ≡ₚ l' → foldr Z.max a l = foldr Z.max a l'.
Proof.
  induction 1 as [|x l l' _ IH|x y l|l l' l'' _ IH1 _ IH2]; simpl;
    [done|by rewrite IH|lia|congruence].
Qed.

(** The mark after a run of reports, from any starting tracker. *)
Lemma observeLatest_mark (u n : string) (xs : list Z) (t : Tracker) :
  latestMark (DuoKey u n) (observeLatest u n xs t) =
    foldr Z.max (latestMark (DuoKey u n) t) (filter (λ x, 0 < x) xs).
Proof.
  unfold observeLatest. revert t.
  induction xs as [|x xs IH]; intros t; simpl; [done|].
  rewrite IH, SetLatestBlockNumber_latestMark.
  rewrite filter_cons. destruct (decide (0 < x)) as [Hx|Hx].
  - rewrite decide_True by (split; [done|by right]). simpl.
    apply foldr_max_init.
  - rewrite decide_False by tauto. done.
Qed.

Lemma observeFinalized_mark (u n : string) (xs : list Z) (t : Tracker) :
  finalizedMark (DuoKey u n) (observeFinalized u n xs t) =
    foldr Z.max (finalizedMark (DuoKey u n) t) (filter (λ x, 0 < x) xs).
Proof.
  unfold observeFinalized. revert t.
  induction xs as [|x xs IH]; intros t; simpl; [done|].
  rewrite IH, SetFinalizedBlockNumber_finalizedMark.
  rewrite filter_cons. destruct (decide (0 < x)) as [Hx|Hx].
  - rewrite decide_True by (split; [done|by right]). simpl.
    apply foldr_max_init.
  - rewrite decide_False by tauto. done.
Qed.

(** [maxPositive] is the maximum of the strictly positive members. *)
Lemma maxPositive_spec (xs : list Z) :
  (∀ x, x ∈ xs → 0 < x → x ≤ maxPositive xs) ∧
  ((maxPositive xs = 0 ∧ ∀ x, x ∈ xs → x ≤ 0) ∨
   (0 < maxPositive xs ∧ maxPositive xs ∈ xs)).
Proof.
  unfold maxPositive. induction xs as [|x xs [IHub IHat]].
  - split; [by intros x ?%elem_of_nil|]. left. split; [done|].
    by intros x ?%elem_of_nil.
  - rewrite filter_cons. destruct (decide (0 < x)) as [Hx|Hx]; simpl.
    + split.
      * intros y [->|Hy]%elem_of_cons Hpos; [lia|].
        specialize (IHub y Hy Hpos). lia.
      * right. split; [lia|].
        destruct (Z.max_spec x (foldr Z.max 0 (filter (λ x, 0 < x) xs)))
          as [[Hlt ->]|[_ ->]]; [|by left].
        destruct IHat as [[H0 _]|[_ Hin]]; [lia|by right].
    + split.
      * intros y [->|Hy]%elem_of_cons Hpos; [lia|]. by apply IHub.
      * destruct IHat as [[H0 Hall]|[Hpos Hin]].
        -- left. split; [done|]. intros y [->|Hy]%elem_of_cons; [lia|].
           by apply Hall.
        -- right. split; [done|]. by right.
Qed.

(** C4.  After any finite run of [SetLatestBlockNumber u n x1],
    [SetLatestBlockNumber u n x2], ... the latest-block mark of (u, n) is
    the maximum of the mark before the run and of all strictly positive
    [xi]; from a new tracker it is the maximum of the strictly positive
    [xi], and 0 (never observed) if no [xi] is positive; the order of
    arrival does not matter, and no call ever decreases a mark.  The same
    holds for [SetFinalizedBlockNumber] and the finalized-block mark. *)
Theorem watermark_max (u n : string) (xs : list Z) (t : Tracker) :
  latestMark (DuoKey u n) (observeLatest u n xs t)
    = foldr Z.max (latestMark (DuoKey u n) t) (filter (λ x, 0 < x) xs) ∧
  finalizedMark (DuoKey u n) (observeFinalized u n xs t)
    = foldr Z.max (finalizedMark (DuoKey u n) t) (filter (λ x, 0 < x) xs) ∧
  (∀ p w,
     latestMark (DuoKey u n) (observeLatest u n xs (NewTracker p w))
       = maxPositive xs ∧
     finalizedMark (DuoKey u n) (observeFinalized u n xs (NewTracker p w))
       = maxPositive xs) ∧
  ((∀ x, x ∈ xs → 0 < x → x ≤ maxPositive xs) ∧
   ((maxPositive xs = 0 ∧ ∀ x, x ∈ xs → x ≤ 0) ∨
    (0 < maxPositive xs ∧ maxPositive xs ∈ xs))) ∧
  (∀ ys, xs ≡ₚ ys →
     latestMark (DuoKey u n) (observeLatest u n xs t)
       = latestMark (DuoKey u n) (observeLatest u n ys t) ∧
     finalizedMark (DuoKey u n) (observeFinalized u n xs t)
       = finalizedMark (DuoKey u n) (observeFinalized u n ys t)) ∧
  (∀ b dk,
     latestMark dk t ≤ latestMark dk (SetLatestBlockNumber u n b t) ∧
     finalizedMark dk t ≤ finalizedMark dk (SetFinalizedBlockNumber u n b t)).
Proof.
  split; [apply observeLatest_mark|].
  split; [apply observeFinalized_mark|].
  split; [|split; [apply maxPositive_spec|split]].
  - intros p w. by rewrite observeLatest_mark, observeFinalized_mark.
  - intros ys Hp. rewrite !observeLatest_mark, !observeFinalized_mark.
    split; apply foldr_max_Permutation; by rewrite Hp.
  - intros b dk.
    rewrite SetLatestBlockNumber_latestMark,
      SetFinalizedBlockNumber_finalizedMark.
    split; case_decide; lia.
Qed.

Lemma watermark_max_witness :
  latestMark (DuoKey "x" "eth")
    (observeLatest "x" "eth" [3; -1; 7; 0; 5] (NewTracker "p" 60)) = 7 ∧
  finalizedMark (DuoKey "x" "eth")
    (observeFinalized "x" "eth" [-2; 0] (NewTracker "p" 60)) = 0.
Proof.
  destruct (watermark_max "x" "eth" [3; -1; 7; 0; 5] (NewTracker "p" 60))
    as (_ & _ & Hnew & _).
  destruct (Hnew "p" 60) as [-> _].
  destruct (watermark_max "x" "eth" [-2; 0] (NewTracker "p" 60))
    as (_ & _ & Hnew' & _).
  destruct (Hnew' "p" 60) as [_ ->].
  vm_compute. split; reflexivity.
Defined.

(** ** Histories *)

Lemma run_snoc (ops : list op) (o : op) (t : Tracker) :
  run (ops ++ [o]) t = step (run ops t) o.
Proof. unfold run. by rewrite foldl_app. Qed.

Lemma Cordon_metadata (u n m r : string) (t : Tracker) :
  metadata (Cordon u n m r t) = metadata t.
Proof.
  unfold Cordon. destruct (getMetrics _ t) as [tm t1] eqn:Hg.
  assert (t1 = (getMetrics (TripletKey u n m) t).2) as -> by by rewrite Hg.
  by rewrite !atMetrics_metadata, getMetrics_metadata.
Qed.

Lemma Uncordon_metadata (u n m : string) (t : Tracker) :
  metadata (Uncordon u n m t) = metadata t.
Proof.
  unfold Uncordon. destruct (getMetrics _ t) as [tm t1] eqn:Hg.
  assert (t1 = (getMetrics (TripletKey u n m) t).2) as -> by by rewrite Hg.
  by rewrite !atMetrics_metadata, getMetrics_metadata.
Qed.

Lemma RecordBlockHeadLargeRollback_touch (u n f : string) (c v : Z)
    (t : Tracker) :
  RecordBlockHeadLargeRollback u n f c v t =
    touch (TripletKey u n EmptyString) (with_BlockHeadLargeRollback (Store (sub64 c v))) t.
Proof. reflexivity. Qed.

(** Only the two watermark setters write head metadata. *)
Lemma step_metadata (t : Tracker) (o : op) :
  match o with
  | OpSetLatestBlockNumber _ _ _ | OpSetFinalizedBlockNumber _ _ _ => True
  | _ => metadata (step t o) = metadata t
  end.
Proof.
  destruct o; cbn [step]; try exact I;
    first [ apply forKeys_metadata | apply Cordon_metadata
          | apply Uncordon_metadata | apply getMetrics_metadata
          | apply touch_metadata | apply resetMetricsTick_metadata
          | reflexivity ].
Qed.

Lemma step_latestMark (t : Tracker) (o : op) (dk : duoKey) :
  latestMark dk (step t o) =
    match o with
    | OpSetLatestBlockNumber u n b =>
        if decide (0 < b ∧ (dk = DuoKey "*" n ∨ dk = DuoKey u n))
        then Z.max (latestMark dk t) b
        else latestMark dk t
    | _ => latestMark dk t
    end.
Proof.
  pose proof (step_metadata t o) as Hmd.
  destruct o;
    try (unfold latestMark; by rewrite (loadMetadata_ext _ _ Hmd)).
  - apply SetLatestBlockNumber_latestMark.
  - apply SetFinalizedBlockNumber_latestMark.
Qed.

Lemma foldr_max_snoc (l : list Z) (b : Z) :
  foldr Z.max 0 (l ++ [b]) = Z.max (foldr Z.max 0 l) b.
Proof. rewrite foldr_app. simpl. rewrite Z.max_comm, foldr_max_init. lia. Qed.

(** The network mark is the running maximum of the positive reports. *)
Lemma network_mark_reported (p : string) (w : Z) (ops : list op) (n : string) :
  latestMark (DuoKey "*" n) (run ops (NewTracker p w))
    = foldr Z.max 0 (reportedLatest n ops).
Proof.
  induction ops as [|o ops IH] using rev_ind; [done|].
  rewrite run_snoc, step_latestMark. unfold reportedLatest.
  rewrite omap_app. fold (reportedLatest n ops). simpl.
  destruct o; rewrite ?app_nil_r; try done.
  destruct (decide (network = n ∧ 0 < blockNumber)) as [[-> Hb]|Hne].
  - rewrite decide_True by (split; [done|by left]).
    simpl. by rewrite foldr_max_snoc, IH.
  - rewrite app_nil_r. rewrite decide_False; [done|].
    intros [Hb [Heq|Heq]]; simplify_eq; tauto.
Qed.

(** No upstream is ahead of its network, and no mark is negative. *)
Lemma marks_bounded (p : string) (w : Z) (ops : list op) (dk : duoKey) :
  let t := run ops (NewTracker p w) in
  0 ≤ latestMark dk t ≤ latestMark (DuoKey "*" (dk_network dk)) t.
Proof.
  simpl. revert dk. induction ops as [|o ops IH] using rev_ind; intros dk.
  - done.
  - rewrite run_snoc, !step_latestMark.
    pose proof (IH dk) as Hdk.
    destruct o as [| | | | | | | | | | |u n b| | |]; try done.
    destruct dk as [u' n']; simpl in *.
    destruct (decide (0 < b ∧ (DuoKey u' n' = DuoKey "*" n
                               ∨ DuoKey u' n' = DuoKey u n)))
      as [[Hb Hk]|Hk].
    + assert (n' = n) as -> by (destruct Hk; congruence).
      rewrite decide_True by (split; [done|by left]). lia.
    + destruct (decide (0 < b ∧ _)); lia.
Qed.

(** With concrete reporters, a positive network mark is the mark of some
    concrete upstream. *)
Lemma network_mark_attained (p : string) (w : Z) (ops : list op) (n : string) :
  Forall concreteReporter ops →
  let t := run ops (NewTracker p w) in
  latestMark (DuoKey "*" n) t = 0 ∨
  ∃ u, u ≠ "*"%string ∧
       latestMark (DuoKey u n) t = latestMark (DuoKey "*" n) t.
Proof.
  simpl. induction ops as [|o ops IH] using rev_ind; intros Hc.
  - by left.
  - apply Forall_app in Hc as [Hc Ho]. apply Forall_inv in Ho.
    specialize (IH Hc). rewrite run_snoc.
    destruct o as [| | | | | | | | | | |u n' b| | |];
      try (rewrite step_latestMark;
           destruct IH as [IH|(u0 & Hu0 & IH)]; [by left|];
           right; exists u0; split; [done|]; by rewrite step_latestMark).
    simpl in Ho.
    destruct (decide (0 < b ∧ n' = n)) as [[Hb ->]|Hne].
    + right.
      pose proof (marks_bounded p w ops (DuoKey u n)) as Hbu. simpl in Hbu.
      destruct (decide (latestMark (DuoKey "*" n) (run ops (NewTracker p w))
                        < b)) as [Hadv|Hadv].
      * exists u. split; [done|]. rewrite !step_latestMark.
        rewrite !decide_True by (split; [done|tauto]). lia.
      * destruct IH as [IH|(u0 & Hu0 & IH)]; [lia|].
        exists u0. split; [done|]. rewrite !step_latestMark.
        rewrite (decide_True (P := 0 < b ∧ (DuoKey "*" n = _ ∨ _)))
          by (split; [done|by left]).
        destruct (decide (0 < b ∧ _)); lia.
    + assert (∀ u', latestMark (DuoKey u' n)
                      (step (run ops (NewTracker p w))
                         (OpSetLatestBlockNumber u n' b))
                    = latestMark (DuoKey u' n) (run ops (NewTracker p w)))
        as Hsame.
      { intros u'. rewrite step_latestMark. rewrite decide_False; [done|].
        intros [Hb [Heq|Heq]]; simplify_eq; tauto. }
      rewrite !Hsame.
      destruct IH as [IH|(u0 & Hu0 & IH)]; [by left|].
      right. exists u0. by rewrite Hsame.
Qed.

(** [maxConcreteLatest] bounds the stored marks of the concrete upstreams
    of the network and, unless 0, is one of them. *)
Lemma maxConcreteLatest_spec (t : Tracker) (n : string) :
  (∀ dk nm, metadata t !! dk = Some nm →
            dk_network dk = n → dk_ups dk ≠ "*"%string →
            evmLatestBlockNumber nm ≤ maxConcreteLatest t n) ∧
  0 ≤ maxConcreteLatest t n ∧
  (maxConcreteLatest t n = 0 ∨
   ∃ dk nm, metadata t !! dk = Some nm ∧
            dk_network dk = n ∧ dk_ups dk ≠ "*"%string ∧
            evmLatestBlockNumber nm = maxConcreteLatest t n).
Proof.
  unfold maxConcreteLatest.
  apply (map_fold_weak_ind
           (λ r (m : gmap duoKey NetworkMetadata),
              (∀ dk nm, m !! dk = Some nm →
                        dk_network dk = n → dk_ups dk ≠ "*"%string →
                        evmLatestBlockNumber nm ≤ r) ∧
              0 ≤ r ∧
              (r = 0 ∨
               ∃ dk nm, m !! dk = Some nm ∧
                        dk_network dk = n ∧ dk_ups dk ≠ "*"%string ∧
                        evmLatestBlockNumber nm = r))).
  - split; [|split; [done|by left]]. intros dk nm. by rewrite lookup_empty.
  - intros i x m r Hi (Hub & H0 & Hat).
    destruct (decide (dk_network i = n ∧ dk_ups i ≠ "*"%string)) as [Hm|Hm].
    + split; [|split; [lia|]].
      * intros dk nm. rewrite lookup_insert.
        case_decide as Heq; [intros [= <-] _ _; lia|].
        intros Hdk Hn Hu. specialize (Hub dk nm Hdk Hn Hu). lia.
      * destruct (Z.max_spec (evmLatestBlockNumber x) r)
          as [[Hlt ->]|[Hle ->]].
        -- destruct Hat as [->|(dk & nm & Hdk & Hn & Hu & Hv)]; [by left|].
           right. exists dk, nm. split; [|done].
           rewrite lookup_insert_ne; [done|]. intros ->. congruence.
        -- right. exists i, x. rewrite lookup_insert_eq. tauto.
    + split; [|split; [done|]].
      * intros dk nm. rewrite lookup_insert.
        case_decide as Heq; [intros [= <-] Hn Hu; subst; tauto|].
        apply Hub.
      * destruct Hat as [->|(dk & nm & Hdk & Hn & Hu & Hv)]; [by left|].
        right. exists dk, nm. split; [|done].
        rewrite lookup_insert_ne; [done|]. intros ->. congruence.
Qed.

(** C5 as the specification words it: the network mark is not the maximum
    across the concrete upstreams' marks when a report names "*" itself as
    its upstream.  After the one report of block 5 by "*" for network n the
    mark of ("*", n) is 5, the maximum of the positive reports, while no
    concrete upstream of n holds a mark, so that their maximum is 0. *)
Lemma network_mark_wildcard_reporter_counterexample :
  let t := run [OpSetLatestBlockNumber "*" "n" 5] (NewTracker "p" 60) in
  latestMark (DuoKey "*" "n") t = 5 ∧
  foldr Z.max 0 (reportedLatest "n" [OpSetLatestBlockNumber "*" "n" 5]) = 5 ∧
  maxConcreteLatest t "n" = 0 ∧
  latestMark (DuoKey "*" "n") t ≠ maxConcreteLatest t "n".
Proof. vm_compute. repeat split; discriminate. Qed.

(** C5 (as amended).  In every state reached from a new tracker by a
    sequential history of operations, the latest-block value of the
    wildcard head metadata ("*", n) is the maximum of all positive block
    numbers ever reported for [n], by whichever upstream name, and bounds
    the mark of every upstream of [n]; when every report names a concrete
    upstream it is the maximum of the marks held for the concrete upstreams
    of [n]; and whenever a call of [SetLatestBlockNumber] advances the
    network mark, the reporting upstream's own mark is set by the same call
    to that same new value. *)
Theorem network_mark_is_max (p : string) (w : Z) (ops : list op) (n : string) :
  let t := run ops (NewTracker p w) in
  latestMark (DuoKey "*" n) t = foldr Z.max 0 (reportedLatest n ops) ∧
  (∀ u, latestMark (DuoKey u n) t ≤ latestMark (DuoKey "*" n) t) ∧
  (Forall concreteReporter ops →
   latestMark (DuoKey "*" n) t = maxConcreteLatest t n) ∧
  (∀ ups b, 0 < b → latestMark (DuoKey "*" n) t < b →
     latestMark (DuoKey "*" n) (SetLatestBlockNumber ups n b t) = b ∧
     latestMark (DuoKey ups n) (SetLatestBlockNumber ups n b t) = b).
Proof.
  simpl. split; [apply network_mark_reported|].
  assert (∀ u, latestMark (DuoKey u n) (run ops (NewTracker p w))
               ≤ latestMark (DuoKey "*" n) (run ops (NewTracker p w))) as Hle.
  { intros u. apply (marks_bounded p w ops (DuoKey u n)). }
  split; [done|]. split.
  - intros Hc.
    destruct (maxConcreteLatest_spec (run ops (NewTracker p w)) n)
      as (Hub & H0 & Hat).
    apply Z.le_antisymm.
    + destruct (network_mark_attained p w ops n Hc) as [->|(u & Hu & Heq)];
        [done|].
      destruct (decide (latestMark (DuoKey "*" n) (run ops (NewTracker p w))
                        = 0)) as [->|Hpos]; [done|].
      rewrite <- Heq in *. unfold latestMark, loadMetadata in *.
      destruct (metadata (run ops (NewTracker p w)) !! DuoKey u n)
        as [nm|] eqn:Hnm; simpl in *; [|done].
      by apply (Hub (DuoKey u n) nm).
    + destruct Hat as [->|(dk & nm & Hdk & Hn & Hu & <-)].
      * apply (marks_bounded p w ops (DuoKey "*" n)).
      * destruct dk as [u' n']. simpl in *. subst n'.
        specialize (Hle u'). unfold latestMark at 1 in Hle.
        unfold loadMetadata in Hle. by rewrite Hdk in Hle.
  - intros ups b Hb Hadv. rewrite !SetLatestBlockNumber_latestMark.
    rewrite !decide_True by (split; [done|tauto]).
    specialize (Hle ups). lia.
Qed.

Lemma network_mark_is_max_witness :
  latestMark (DuoKey "*" "n") sampleTracker = maxConcreteLatest sampleTracker "n" ∧
  latestMark (DuoKey "B" "n") (SetLatestBlockNumber "B" "n" 150 sampleTracker)
    = 150.
Proof.
  pose proof (network_mark_is_max "p" 60
                [ OpRecordUpstreamRequest "A" "n" "m";
                  OpRecordUpstreamRequest "B" "n" "m";
                  OpSetLatestBlockNumber "A" "n" 100;
                  OpSetFinalizedBlockNumber "A" "n" 90 ] "n")
    as (_ & _ & Hmax & Hadv).
  split.
  - apply Hmax. repeat constructor; simpl; discriminate.
  - apply (Hadv "B" 150); [lia|vm_compute; reflexivity].
Defined.

(** ** Existence of records *)

Lemma forKeys_is_Some (keys : list tripletKey) upd (t : Tracker) k :
  is_Some (metrics (forKeys keys upd t) !! k) ↔
  is_Some (metrics t !! k) ∨ k ∈ keys.
Proof.
  rewrite forKeys_touch. revert t.
  induction keys as [|k0 keys IH]; intros t; simpl.
  - rewrite elem_of_nil. tauto.
  - rewrite IH, touch_lookup, elem_of_cons.
    case_decide as Heq; [subst k0|].
    + split; [intros _; right; by left|intros _; left; done].
    + split; [tauto|]. intros [?|[?|?]]; [tauto|congruence|tauto].
Qed.

Lemma touch_is_Some (k0 : tripletKey) upd (t : Tracker) k :
  is_Some (metrics (touch k0 upd t) !! k) ↔
  is_Some (metrics t !! k) ∨ k ∈ [k0].
Proof. apply (forKeys_is_Some [k0]). Qed.

Lemma fmap_lookup_is_Some (f : TrackedMetrics → TrackedMetrics)
    (m m' : gmap tripletKey TrackedMetrics) k :
  m' !! k = f <$> m !! k → is_Some (m' !! k) ↔ is_Some (m !! k).
Proof. intros ->. apply fmap_is_Some. Qed.

Lemma Set_metrics_is_Some (ups n : string) (b : Z) (t : Tracker) k :
  (is_Some (metrics (SetLatestBlockNumber ups n b t) !! k)
     ↔ is_Some (metrics t !! k)) ∧
  (is_Some (metrics (SetFinalizedBlockNumber ups n b t) !! k)
     ↔ is_Some (metrics t !! k)).
Proof.
  destruct (decide (0 < b)) as [Hb|Hb].
  - destruct (SetLatestBlockNumber_spec ups n b t Hb) as (_ & _ & Hl).
    destruct (SetFinalizedBlockNumber_spec ups n b t Hb) as (_ & _ & Hf).
    split; eapply fmap_lookup_is_Some; [apply Hl|apply Hf].
  - destruct (Set_nonpositive_id ups n b t) as [-> ->]; [lia|done].
Qed.

(** A record exists after an operation iff it existed before or the
    operation handed its key to [getMetrics]. *)
Lemma step_is_Some (t : Tracker) (o : op) (k : tripletKey) :
  is_Some (metrics (step t o) !! k) ↔
  is_Some (metrics t !! k) ∨ k ∈ touched o.
Proof.
  destruct o; simpl;
    try apply forKeys_is_Some; try apply touch_is_Some;
    try (rewrite elem_of_nil; tauto).
  - (* Cordon *)
    rewrite Cordon_touch, list_elem_of_singleton.
    case_decide; [subst; split; [by right|done]|].
    split; [tauto|]. intros [?|?]; [done|congruence].
  - (* Uncordon *)
    rewrite Uncordon_touch, list_elem_of_singleton.
    case_decide; [subst; split; [by right|done]|].
    split; [tauto|]. intros [?|?]; [done|congruence].
  - (* GetUpstreamMethodMetrics *)
    unfold GetUpstreamMethodMetrics.
    rewrite getMetrics_lookup, list_elem_of_singleton.
    case_decide; [subst; split; [by right|done]|].
    split; [tauto|]. intros [?|?]; [done|congruence].
  - (* GetNetworkMethodMetrics *)
    unfold GetNetworkMethodMetrics.
    rewrite getMetrics_lookup, list_elem_of_singleton.
    case_decide; [subst; split; [by right|done]|].
    split; [tauto|]. intros [?|?]; [done|congruence].
  - rewrite elem_of_nil.
    destruct (Set_metrics_is_Some ups network blockNumber t k) as [-> _].
    tauto.
  - rewrite elem_of_nil.
    destruct (Set_metrics_is_Some ups network blockNumber t k) as [_ ->].
    tauto.
  - rewrite elem_of_nil, resetMetricsTick_lookup, fmap_is_Some. tauto.
Qed.

Lemma run_is_Some (ops : list op) (t : Tracker) (k : tripletKey) :
  is_Some (metrics (run ops t) !! k) ↔
  is_Some (metrics t !! k) ∨ ∃ o, o ∈ ops ∧ k ∈ touched o.
Proof.
  induction ops as [|o ops IH] using rev_ind.
  - simpl. split; [tauto|]. intros [?|(o & Ho & _)]; [done|].
    by apply elem_of_nil in Ho.
  - rewrite run_snoc, step_is_Some, IH. split.
    + intros [[?|(o' & Ho' & Hk)]|Hk]; [tauto| |].
      * right. exists o'. split; [|done]. apply elem_of_app. by left.
      * right. exists o. split; [|done]. apply elem_of_app. right.
        by apply list_elem_of_singleton.
    + intros [?|(o' & Ho' & Hk)]; [tauto|].
      apply elem_of_app in Ho' as [Ho'|Ho'].
      * left. right. by exists o'.
      * apply list_elem_of_singleton in Ho' as ->. by right.
Qed.

(** C3 as the specification words it fails: after the single read
    [GetUpstreamMethodMetrics "u" "n" "m"] on a new tracker the record of
    ("u", "n", "m") exists although nothing was observed, and the accessor
    has changed the store. *)
Lemma accessor_creates_record_counterexample :
  let ops := [OpGetUpstreamMethodMetrics "u" "n" "m"] in
  let k := TripletKey "u" "n" "m" in
  ¬ (is_Some (metrics (run ops (NewTracker "p" 60)) !! k) ↔
     ∃ o, o ∈ ops ∧ k ∈ observed o) ∧
  metrics (GetUpstreamMethodMetrics "u" "n" "m" (NewTracker "p" 60)).2 !! k
    ≠ None.
Proof.
  simpl. split.
  - intros [Hex _]. destruct Hex as (o & Ho & Hk).
    + vm_compute. eauto.
    + apply list_elem_of_singleton in Ho as ->. simpl in Hk.
      by apply elem_of_nil in Hk.
  - vm_compute. discriminate.
Qed.

(** C3 (as amended).  In a state reached from a new tracker by a
    sequential history, a record for a triplet exists if and only if some
    operation of the history handed that key to [getMetrics]: a recorder
    call (request, duration, failure, self- or remote-rate-limited) whose
    five-key expansion includes it, a cordon or uncordon of it, a
    large-rollback record on its (upstream, network) when its method is
    empty, or a read of it through [GetUpstreamMethodMetrics] or
    [GetNetworkMethodMetrics]; every observed key is such a key.  The two
    read accessors, looking up a key without record, return a fresh zero
    record and store it under that key; they leave the store unchanged when
    the record exists. *)
Theorem record_exists_iff (p : string) (w : Z) (ops : list op)
    (k : tripletKey) :
  (is_Some (metrics (run ops (NewTracker p w)) !! k) ↔
   ∃ o, o ∈ ops ∧ k ∈ touched o) ∧
  (∀ o, k ∈ observed o → k ∈ touched o) ∧
  (∀ t u n m,
     let key := TripletKey u n m in
     (metrics t !! key = None →
      GetUpstreamMethodMetrics u n m t
        = (newTrackedMetrics, with_metrics (insert key newTrackedMetrics) t)) ∧
     (∀ tm, metrics t !! key = Some tm →
      GetUpstreamMethodMetrics u n m t = (tm, t))) ∧
  (∀ t n m,
     let key := TripletKey "*" n m in
     (metrics t !! key = None →
      GetNetworkMethodMetrics n m t
        = (newTrackedMetrics, with_metrics (insert key newTrackedMetrics) t)) ∧
     (∀ tm, metrics t !! key = Some tm →
      GetNetworkMethodMetrics n m t = (tm, t))).
Proof.
  split; [|split; [|split]].
  - rewrite run_is_Some. simpl. rewrite lookup_empty.
    split; [intros [[? [=]]|?]; done|by right].
  - intros o. destruct o; simpl; try done; by intros ?%elem_of_nil.
  - intros t u n m key. unfold GetUpstreamMethodMetrics, getMetrics.
    fold key. split; [by intros ->|by intros tm ->].
  - intros t n m key. unfold GetNetworkMethodMetrics, getMetrics.
    fold key. split; [by intros ->|by intros tm ->].
Qed.

Lemma record_exists_iff_witness :
  GetUpstreamMethodMetrics "u" "n" "m" (NewTracker "p" 60)
  = (newTrackedMetrics,
     with_metrics (insert (TripletKey "u" "n" "m") newTrackedMetrics)
       (NewTracker "p" 60)).
Proof.
  pose proof (record_exists_iff "p" 60 [] (TripletKey "u" "n" "m"))
    as (_ & _ & Hget & _).
  apply (Hget (NewTracker "p" 60) "u" "n" "m"). vm_compute. reflexivity.
Defined.

(** ** Rounding of the float64 operations *)

Lemma digits2_pos_bounds (p : positive) :
  2 ^ (Z.pos (digits2_pos p) - 1) ≤ Z.pos p < 2 ^ Z.pos (digits2_pos p).
Proof.
  induction p as [p IH|p IH|]; cbn [digits2_pos].
  - rewrite Pos2Z.inj_succ, (Pos2Z.inj_xI p).
    replace (Z.succ (Z.pos (digits2_pos p)) - 1)
      with (Z.succ (Z.pos (digits2_pos p) - 1)) by lia.
    rewrite !Z.pow_succ_r by lia. lia.
  - rewrite Pos2Z.inj_succ, (Pos2Z.inj_xO p).
    replace (Z.succ (Z.pos (digits2_pos p)) - 1)
      with (Z.succ (Z.pos (digits2_pos p) - 1)) by lia.
    rewrite !Z.pow_succ_r by lia. lia.
  - simpl. lia.
Qed.

Lemma digits2_pos_unique (p : positive) (k : Z) :
  2 ^ (k - 1) ≤ Z.pos p < 2 ^ k → Z.pos (digits2_pos p) = k.
Proof.
  intros [Hlo Hhi]. pose proof (digits2_pos_bounds p) as [Hlo' Hhi'].
  destruct (Z.lt_trichotomy (Z.pos (digits2_pos p)) k) as [Hlt|[?|Hgt]];
    [|done|].
  - assert (0 ≤ k - 1) by lia.
    pose proof (Z.pow_le_mono_r 2 (Z.pos (digits2_pos p)) (k - 1)
                  ltac:(lia) ltac:(lia)). lia.
  - destruct (Z.le_gt_cases 0 k) as [Hk|Hk].
    + pose proof (Z.pow_le_mono_r 2 k (Z.pos (digits2_pos p) - 1)
                    ltac:(lia) ltac:(lia)). lia.
    + rewrite (Z.pow_neg_r 2 k) in Hhi by lia. lia.
Qed.

Lemma Pos_iter_xO (p d : positive) :
  Z.pos (Pos.iter xO p d) = Z.pos p * 2 ^ Z.pos d.
Proof.
  induction d as [|d IH] using Pos.peano_ind.
  - simpl. lia.
  - rewrite Pos.iter_succ, (Pos2Z.inj_xO (Pos.iter _ _ _)), IH, Pos2Z.inj_succ.
    rewrite Z.pow_succ_r by lia. lia.
Qed.

Lemma iter_pos_nat {A} (f : A → A) (p : positive) (x : A) :
  SpecFloat.iter_pos f p x = Nat.iter (Pos.to_nat p) f x.
Proof.
  revert x. induction p as [p IH|p IH|]; intros x; cbn [SpecFloat.iter_pos].
  - rewrite !IH, Pos2Nat.inj_xI.
    replace (S (2 * Pos.to_nat p))%nat
      with (Pos.to_nat p + S (Pos.to_nat p))%nat by lia.
    rewrite Nat.iter_add. f_equal. by rewrite Nat.iter_succ_r.
  - rewrite !IH, Pos2Nat.inj_xO.
    replace (2 * Pos.to_nat p)%nat
      with (Pos.to_nat p + Pos.to_nat p)%nat by lia.
    by rewrite Nat.iter_add.
  - done.
Qed.

Lemma shr_nat (mrs : shr_record) (e n : Z) :
  0 ≤ n → shr mrs e n = (Nat.iter (Z.to_nat n) shr_1 mrs, e + n).
Proof.
  intros Hn. destruct n as [|p|p]; [|  |lia].
  - simpl. by rewrite Z.add_0_r.
  - simpl. by rewrite iter_pos_nat.
Qed.

Lemma loc_of_shr_record_of_loc (m : Z) (l : location) :
  loc_of_shr_record (shr_record_of_loc m l) = l.
Proof. by destruct l as [|[]]. Qed.

Lemma shr_m_shr_record_of_loc (m : Z) (l : location) :
  shr_m (shr_record_of_loc m l) = m.
Proof. by destruct l as [|[]]. Qed.

Lemma new_location_located (m2 q r : Z) :
  0 ≤ r < m2 → located (q * m2 + r) m2 q (new_location m2 r).
Proof.
  intros Hr. unfold located. split; [lia|]. split; [nia|].
  unfold new_location, new_location_even, new_location_odd.
  destruct (Z.even m2) eqn:Hev.
  - destruct (Z.eqb_spec r 0) as [->|Hr0]; [lia|].
    split; [nia|]. f_equal. lia.
  - destruct (Z.eqb_spec r 0) as [->|Hr0]; [lia|].
    split; [nia|].
    assert (m2 = 2 * (m2 / 2) + 1) as Hodd.
    { rewrite <- Z.negb_odd in Hev. apply negb_false_iff in Hev.
      rewrite Zodd_mod in Hev. apply Z.eqb_eq in Hev.
      pose proof (Z.div_mod m2 2 ltac:(lia)). lia. }
    replace (2 * (q * m2 + r - q * m2)) with (2 * r) by lia.
    destruct (Z.compare_spec (2 * r + 1) m2);
      destruct (Z.compare_spec (2 * r) m2); try done; lia.
Qed.

Lemma round_nearest_even_located (num den m : Z) (l : location) :
  located num den m l →
  (round_nearest_even m l = m ∨ round_nearest_even m l = m + 1) ∧
  2 * Z.abs (round_nearest_even m l * den - num) ≤ den.
Proof.
  intros (Hden & Hin & Hl). destruct l as [|c]; simpl.
  - split; [by left|]. lia.
  - destruct Hl as [Hne Hc].
    destruct c; [destruct (Z.even m)| |].
    + apply Z.compare_eq in Hc. split; [by left|]. lia.
    + apply Z.compare_eq in Hc. split; [by right|]. lia.
    + rewrite Z.compare_lt_iff in Hc. split; [by left|]. lia.
    + rewrite Z.compare_gt_iff in Hc. split; [by right|]. lia.
Qed.

Lemma shr_1_located (num den : Z) (mrs : shr_record) :
  0 ≤ shr_m mrs →
  located num den (shr_m mrs) (loc_of_shr_record mrs) →
  located num (2 * den) (shr_m (shr_1 mrs)) (loc_of_shr_record (shr_1 mrs)) ∧
  shr_m (shr_1 mrs) = shr_m mrs / 2.
Proof.
  destruct mrs as [m r s]. cbn [shr_m]. intros Hm (Hden & Hin & Hl).
  assert (∀ p, Z.pos p~0 / 2 = Z.pos p) as H0.
  { intros p. rewrite (Pos2Z.inj_xO p). symmetry.
    apply (Z.div_unique _ 2 _ 0); lia. }
  assert (∀ p, Z.pos p~1 / 2 = Z.pos p) as H1.
  { intros p. rewrite (Pos2Z.inj_xI p). symmetry.
    apply (Z.div_unique _ 2 _ 1); lia. }
  unfold located.
  destruct m as [|[p|p|]|]; [| | | |lia]; cbn [shr_1 shr_m]; rewrite ?H0, ?H1;
    (split; [|done]); (split; [lia|]);
    destruct r, s; cbn [loc_of_shr_record orb] in *;
    try rewrite (Pos2Z.inj_xO p) in *; try rewrite (Pos2Z.inj_xI p) in *;
    repeat match goal with
           | H : _ ∧ _ |- _ => destruct H
           | H : (_ ?= _) = Eq |- _ => apply Z.compare_eq in H
           | H : (_ ?= _) = Lt |- _ => rewrite Z.compare_lt_iff in H
           | H : (_ ?= _) = Gt |- _ => rewrite Z.compare_gt_iff in H
           end;
    rewrite ?Z.compare_eq_iff, ?Z.compare_lt_iff, ?Z.compare_gt_iff; lia.
Qed.

Lemma shr_iter_located (num den : Z) (k : nat) (mrs : shr_record) :
  0 ≤ shr_m mrs →
  located num den (shr_m mrs) (loc_of_shr_record mrs) →
  located num (2 ^ Z.of_nat k * den) (shr_m (Nat.iter k shr_1 mrs))
    (loc_of_shr_record (Nat.iter k shr_1 mrs)) ∧
  shr_m (Nat.iter k shr_1 mrs) = shr_m mrs / 2 ^ Z.of_nat k.
Proof.
  intros Hm Hl. induction k as [|k [IH1 IH2]].
  - change (Nat.iter 0 shr_1 mrs) with mrs.
    change (2 ^ Z.of_nat 0) with 1. rewrite Z.div_1_r, Z.mul_1_l. done.
  - change (Nat.iter (S k) shr_1 mrs) with (shr_1 (Nat.iter k shr_1 mrs)).
    assert (0 ≤ shr_m (Nat.iter k shr_1 mrs)) as Hk.
    { rewrite IH2. apply Z.div_pos; lia. }
    destruct (shr_1_located _ _ _ Hk IH1) as [H1 H2].
    rewrite Nat2Z.inj_succ, Z.pow_succ_r by lia. split.
    + by rewrite <- Z.mul_assoc.
    + rewrite H2, IH2, Z.div_div by lia. f_equal. lia.
Qed.

Lemma fexp_normal (e : Z) : -1021 ≤ e → fexp 53 1024 e = e - 53.
Proof. intros He. unfold fexp, emin. lia. Qed.

(** Rounding a located mantissa of at least 53 digits, away from the
    subnormal and the overflow range: the mantissa is shifted down to 53
    digits and rounded to nearest. *)
Lemma binary_round_aux_nearest (sx : bool) (mx : positive) (ex : Z)
      (lx : location) (num den n : Z) :
  located num den (Z.pos mx) lx →
  n = Z.pos (digits2_pos mx) - 53 →
  0 ≤ n → -1074 ≤ ex → ex + n < 971 →
  ∃ M0 : Z,
    (M0 = Z.pos mx / 2 ^ n ∨ M0 = Z.pos mx / 2 ^ n + 1) ∧
    2 ^ 52 ≤ M0 ≤ 2 ^ 53 ∧
    2 * Z.abs (M0 * (2 ^ n * den) - num) ≤ 2 ^ n * den ∧
    binary_round_aux 53 1024 sx (Z.pos mx) ex lx =
      if decide (M0 < 2 ^ 53)
      then S754_finite sx (Z.to_pos M0) (ex + n)
      else S754_finite sx (Z.to_pos (2 ^ 52)) (ex + n + 1).
Proof.
  intros Hloc Hn Hn0 Hex Hov.
  pose proof (digits2_pos_bounds mx) as [Hlo Hhi].
  assert (shr_fexp 53 1024 (Z.pos mx) ex lx =
          (Nat.iter (Z.to_nat n) shr_1 (shr_record_of_loc (Z.pos mx) lx),
           ex + n)) as Hshr.
  { unfold shr_fexp. cbn [Zdigits2]. rewrite fexp_normal by lia.
    replace (Z.pos (digits2_pos mx) + ex - 53 - ex) with n by lia.
    by apply shr_nat. }
  destruct (shr_iter_located num den (Z.to_nat n)
              (shr_record_of_loc (Z.pos mx) lx)) as [Hl1 Hm1].
  { rewrite shr_m_shr_record_of_loc. lia. }
  { by rewrite shr_m_shr_record_of_loc, loc_of_shr_record_of_loc. }
  rewrite shr_m_shr_record_of_loc in Hm1. rewrite Z2Nat.id in Hl1, Hm1 by lia.
  set (mrs' := Nat.iter (Z.to_nat n) shr_1 (shr_record_of_loc (Z.pos mx) lx))
    in *.
  destruct (round_nearest_even_located _ _ _ _ Hl1) as [HM Hnear].
  set (M0 := round_nearest_even (shr_m mrs') (loc_of_shr_record mrs')) in *.
  assert (2 ^ 52 ≤ shr_m mrs' < 2 ^ 53) as Hm.
  { rewrite Hm1. assert (0 < 2 ^ n) by (apply Z.pow_pos_nonneg; lia). split.
    - apply Z.div_le_lower_bound; [done|].
      replace (Z.pos (digits2_pos mx) - 1) with (n + 52) in Hlo by lia.
      rewrite Z.pow_add_r in Hlo by lia. lia.
    - apply Z.div_lt_upper_bound; [done|].
      replace (Z.pos (digits2_pos mx)) with (n + 53) in Hhi by lia.
      rewrite Z.pow_add_r in Hhi by lia. lia. }
  exists M0. split; [rewrite <- Hm1; done|]. split; [lia|].
  split; [done|].
  unfold binary_round_aux. rewrite Hshr. cbv beta iota. fold M0.
  destruct (decide (M0 < 2 ^ 53)) as [Hlt|Hge].
  - destruct M0 as [|q|q] eqn:HM0; [lia| |lia].
    assert (Z.pos (digits2_pos q) = 53) as Hq
      by (apply digits2_pos_unique; lia).
    unfold shr_fexp. cbn [Zdigits2]. rewrite Hq, fexp_normal by lia.
    replace (53 + (ex + n) - 53 - (ex + n)) with 0 by lia.
    cbn [shr shr_record_of_loc shr_m].
    rewrite (proj2 (Z.leb_le _ _)) by lia. done.
  - assert (M0 = 2 ^ 53) as -> by lia.
    unfold shr_fexp. change (Zdigits2 (2 ^ 53)) with 54.
    rewrite fexp_normal by lia.
    replace (54 + (ex + n) - 53 - (ex + n)) with 1 by lia.
    cbn [shr shr_record_of_loc]. change (2 ^ 53) with (Z.pos (xO (2 ^ 52))).
    cbn [SpecFloat.iter_pos shr_1 shr_m orb].
    rewrite (proj2 (Z.leb_le _ _)) by lia. done.
Qed.

(** A 53-digit mantissa with its location exact is left as it is. *)
Lemma binary_round_aux_exact (sx : bool) (mx : positive) (ex : Z) :
  Z.pos (digits2_pos mx) = 53 → -1074 ≤ ex < 971 →
  binary_round_aux 53 1024 sx (Z.pos mx) ex loc_Exact = S754_finite sx mx ex.
Proof.
  intros Hd Hex. pose proof (digits2_pos_bounds mx) as Hb. rewrite Hd in Hb.
  destruct (binary_round_aux_nearest sx mx ex loc_Exact (Z.pos mx) 1 0)
    as (M0 & _ & _ & Hnear & ->); [|lia..|].
  { unfold located. lia. }
  change (2 ^ 0) with 1 in Hnear.
  assert (M0 = Z.pos mx) as -> by lia.
  rewrite decide_True by lia. by rewrite Z.add_0_r.
Qed.

(** Converting a positive integer below 2^53 is exact: the mantissa is the
    integer shifted up to 53 digits. *)
Lemma float64_of_int64_exact (z : Z) :
  0 < z < 2 ^ 53 →
  ∃ (m : positive) (a : Z),
    float64_of_int64 z = S754_finite false m (- a) ∧
    0 ≤ a ≤ 52 ∧ Z.pos m = z * 2 ^ a ∧ Z.pos (digits2_pos m) = 53.
Proof.
  intros Hz. destruct z as [|p|p]; [lia| |lia].
  pose proof (digits2_pos_bounds p) as [Hlo Hhi].
  assert (1 ≤ Z.pos (digits2_pos p) ≤ 53) as Hd.
  { split; [lia|].
    destruct (Z.le_gt_cases (Z.pos (digits2_pos p)) 53) as [|Hgt]; [done|].
    pose proof (Z.pow_le_mono_r 2 53 (Z.pos (digits2_pos p) - 1)
                  ltac:(lia) ltac:(lia)). lia. }
  unfold float64_of_int64, binary_normalize, binary_round.
  rewrite fexp_normal by lia. unfold shl_align.
  destruct (Z.pos (digits2_pos p) + 0 - 53 - 0) as [|k|k] eqn:Hk.
  - exists p, 0. rewrite binary_round_aux_exact by lia.
    split; [done|]. split; [lia|]. split; [|lia].
    change (2 ^ 0) with 1. lia.
  - lia.
  - assert (Z.pos (Pos.iter xO p k) = Z.pos p * 2 ^ Z.pos k) as Hm
      by apply Pos_iter_xO.
    assert (Z.pos (digits2_pos (Pos.iter xO p k)) = 53) as Hdig.
    { apply digits2_pos_unique. rewrite Hm.
      replace 53 with (Z.pos (digits2_pos p) + Z.pos k) by lia.
      replace (Z.pos (digits2_pos p) + Z.pos k - 1)
        with (Z.pos (digits2_pos p) - 1 + Z.pos k) by lia.
      rewrite !Z.pow_add_r by lia.
      assert (0 < 2 ^ Z.pos k) by (apply Z.pow_pos_nonneg; lia). nia. }
    exists (Pos.iter xO p k), (Z.pos k).
    rewrite binary_round_aux_exact by lia.
    split; [f_equal; lia|]. split; [lia|]. done.
Qed.

(** Dividing two normal floats whose exponents are those of converted
    integers below 2^53: the quotient is rounded to nearest. *)
Lemma SFdiv_nearest (m1 m2 : positive) (a b : Z) :
  Z.pos (digits2_pos m1) = 53 → Z.pos (digits2_pos m2) = 53 →
  0 ≤ a ≤ 52 → 0 ≤ b ≤ 52 →
  ∃ (M : positive) (k : Z),
    SFdiv 53 1024 (S754_finite false m1 (- a)) (S754_finite false m2 (- b))
      = S754_finite false M (k + b - a - 53) ∧
    2 ^ 52 ≤ Z.pos M < 2 ^ 53 ∧ 0 ≤ k ≤ 2 ∧
    2 * Z.abs (Z.pos M * 2 ^ k * Z.pos m2 - Z.pos m1 * 2 ^ 53)
      ≤ 2 ^ k * Z.pos m2.
Proof.
  intros Hd1 Hd2 Ha Hb.
  pose proof (digits2_pos_bounds m1) as Hb1. rewrite Hd1 in Hb1.
  pose proof (digits2_pos_bounds m2) as Hb2. rewrite Hd2 in Hb2.
  unfold SFdiv, SFdiv_core_binary. cbn [Zdigits2 xorb].
  rewrite Hd1, Hd2, fexp_normal by lia.
  rewrite Z.min_l by lia.
  replace (- a - - b - (53 + - a - (53 + - b) - 53)) with 53 by lia.
  cbv beta iota zeta. rewrite Z.shiftl_mul_pow2 by lia.
  pose proof (Z_div_mod (Z.pos m1 * 2 ^ 53) (Z.pos m2) ltac:(lia)) as Hdiv.
  destruct (Z.div_eucl (Z.pos m1 * 2 ^ 53) (Z.pos m2)) as [q r].
  destruct Hdiv as [Hqr Hr].
  assert (2 ^ 52 ≤ q < 2 ^ 54) as Hq.
  { change (2 ^ 54) with (2 * 2 ^ 53). split; nia. }
  destruct q as [|q|q]; [lia| |lia].
  assert (Z.pos (digits2_pos q) = 53 ∨ Z.pos (digits2_pos q) = 54) as Hdq.
  { destruct (decide (Z.pos q < 2 ^ 53)).
    - left. apply digits2_pos_unique. lia.
    - right. apply digits2_pos_unique. lia. }
  destruct (binary_round_aux_nearest false q (53 + - a - (53 + - b) - 53)
              (new_location (Z.pos m2) r) (Z.pos q * Z.pos m2 + r) (Z.pos m2)
              (Z.pos (digits2_pos q) - 53))
    as (M0 & HM0 & HM0r & Hnear & ->); [|done|lia..|].
  { by apply new_location_located. }
  replace (Z.pos q * Z.pos m2 + r) with (Z.pos m1 * 2 ^ 53) in Hnear by lia.
  set (n := Z.pos (digits2_pos q) - 53) in *.
  assert (0 ≤ n ≤ 1) as Hn by lia.
  case_decide as Hlt.
  - destruct M0 as [|M|M]; [lia| |lia]. exists M, n.
    split; [cbn [Z.to_pos]; f_equal; lia|]. split; [lia|]. split; [lia|].
    by rewrite <- Z.mul_assoc.
  - assert (M0 = 2 ^ 53) as -> by lia. exists (Z.to_pos (2 ^ 52)), (n + 1).
    split; [f_equal; lia|]. split; [done|]. split; [lia|].
    rewrite Z.pow_add_r by lia.
    change (Z.pos (Z.to_pos (2 ^ 52))) with (2 ^ 52).
    change (2 ^ 53) with (2 ^ 52 * 2 ^ 1) in Hnear at 1.
    assert (0 < 2 ^ n) by (apply Z.pow_pos_nonneg; lia).
    change (2 ^ 1) with 2 in *. lia.
Qed.

Lemma float64_of_int64_zero : float64_of_int64 0 = S754_zero false.
Proof. reflexivity. Qed.

(** The quotient of two converted integers below 2^53 is a float64 nearest
    to the quotient of the integers. *)
Lemma float64_div_nearest (e r : Z) :
  0 ≤ e < 2 ^ 53 → 0 < r < 2 ^ 53 →
  float64_nearest e r
    (float64_div (float64_of_int64 e) (float64_of_int64 r)).
Proof.
  intros He Hr.
  destruct (float64_of_int64_exact r Hr) as (m2 & b & -> & Hb & Hm2 & Hd2).
  destruct (decide (e = 0)) as [->|He0].
  { rewrite float64_of_int64_zero. done. }
  destruct (float64_of_int64_exact e ltac:(lia))
    as (m1 & a & -> & Ha & Hm1 & Hd1).
  destruct (SFdiv_nearest m1 m2 a b Hd1 Hd2 Ha Hb)
    as (M & k & HM & HMr & Hk & Hnear).
  unfold float64_div. rewrite HM. unfold float64_nearest.
  split; [done|]. split; [lia|].
  rewrite Hm1, Hm2 in Hnear.
  set (P := 2 ^ (1021 - a)).
  assert (0 < P) as HP by (apply Z.pow_pos_nonneg; lia).
  replace (k + b - a - 53 + 1074) with (k + b + (1021 - a)) by lia.
  replace (2 ^ 1074) with (2 ^ (a + 53 + (1021 - a))) by (f_equal; lia).
  rewrite !Z.pow_add_r by lia. fold P.
  replace (Z.pos M * (2 ^ k * 2 ^ b * P) * r - e * (2 ^ a * 2 ^ 53 * P))
    with ((Z.pos M * 2 ^ k * (r * 2 ^ b) - e * 2 ^ a * 2 ^ 53) * P) by ring.
  rewrite Z.abs_mul, (Z.abs_eq P) by lia.
  replace (2 ^ k * 2 ^ b * P * r) with (2 ^ k * (r * 2 ^ b) * P) by ring.
  rewrite Z.mul_assoc. apply Z.mul_le_mono_nonneg_r; [lia|done].
Qed.

(** Adding two converted non-negative integers whose sum is below 2^53 is
    exact. *)
Lemma float64_add_exact (x y : Z) :
  0 ≤ x → 0 ≤ y → x + y < 2 ^ 53 →
  float64_add (float64_of_int64 x) (float64_of_int64 y)
    = float64_of_int64 (x + y).
Proof.
  intros Hx Hy Hxy.
  destruct (decide (x = 0)) as [->|Hx0].
  { rewrite float64_of_int64_zero, Z.add_0_l.
    destruct (decide (y = 0)) as [->|Hy0]; [done|].
    destruct (float64_of_int64_exact y ltac:(lia)) as (m & a & -> & _).
    done. }
  destruct (decide (y = 0)) as [->|Hy0].
  { rewrite float64_of_int64_zero, Z.add_0_r.
    destruct (float64_of_int64_exact x ltac:(lia)) as (m & a & -> & _).
    done. }
  destruct (float64_of_int64_exact x ltac:(lia))
    as (mx & a & -> & Ha & Hmx & Hdx).
  destruct (float64_of_int64_exact y ltac:(lia))
    as (my & b & -> & Hb & Hmy & Hdy).
  destruct (float64_of_int64_exact (x + y) ltac:(lia))
    as (mz & c & -> & Hc & Hmz & Hdz).
  pose proof (digits2_pos_bounds mx) as Hbx. rewrite Hdx in Hbx.
  pose proof (digits2_pos_bounds my) as Hby. rewrite Hdy in Hby.
  pose proof (digits2_pos_bounds mz) as Hbz. rewrite Hdz in Hbz.
  set (u := Z.max a b).
  (* the sum's exponent is at least both summands' *)
  assert (c ≤ a) as Hca.
  { destruct (Z.le_gt_cases c a) as [|Hgt]; [done|].
    replace c with (a + 1 + (c - a - 1)) in Hmz by lia.
    rewrite !Z.pow_add_r in Hmz by lia.
    assert (0 < 2 ^ (c - a - 1)) by (apply Z.pow_pos_nonneg; lia).
    assert (0 < 2 ^ a) by (apply Z.pow_pos_nonneg; lia).
    change (2 ^ 1) with 2 in Hmz. change (2 ^ 53) with (2 * 2 ^ 52) in *.
    nia. }
  assert (c ≤ b) as Hcb.
  { destruct (Z.le_gt_cases c b) as [|Hgt]; [done|].
    replace c with (b + 1 + (c - b - 1)) in Hmz by lia.
    rewrite !Z.pow_add_r in Hmz by lia.
    assert (0 < 2 ^ (c - b - 1)) by (apply Z.pow_pos_nonneg; lia).
    assert (0 < 2 ^ b) by (apply Z.pow_pos_nonneg; lia).
    change (2 ^ 1) with 2 in Hmz. change (2 ^ 53) with (2 * 2 ^ 52) in *.
    nia. }
  assert (∀ (m : positive) (d : Z), 0 ≤ d ≤ u →
            Z.pos (shl_align m (- d) (- u)).1 = Z.pos m * 2 ^ (u - d))
    as Halign.
  { intros m d Hd. unfold shl_align.
    destruct (- u - - d) as [|p|p] eqn:Hp; cbn [fst].
    - replace (u - d) with 0 by lia. change (2 ^ 0) with 1. lia.
    - lia.
    - rewrite Pos_iter_xO. f_equal. f_equal. lia. }
  unfold float64_add, SFadd. cbn [cond_Zopp].
  replace (Z.min (- a) (- b)) with (- u) by lia.
  rewrite !Halign by lia.
  assert (Z.pos mx * 2 ^ (u - a) + Z.pos my * 2 ^ (u - b)
          = Z.pos mz * 2 ^ (u - c)) as Hsum.
  { rewrite Hmx, Hmy, Hmz, <- !Z.mul_assoc, <- !Z.pow_add_r by lia.
    replace (a + (u - a)) with u by lia.
    replace (b + (u - b)) with u by lia.
    replace (c + (u - c)) with u by lia. ring. }
  rewrite Hsum.
  assert (0 < 2 ^ (u - c)) as Hpow by (apply Z.pow_pos_nonneg; lia).
  destruct (Z.pos mz * 2 ^ (u - c)) as [|s|s] eqn:Hs; [lia| |lia].
  assert (Z.pos (digits2_pos s) = 53 + (u - c)) as Hds.
  { apply digits2_pos_unique. rewrite <- Hs.
    replace (53 + (u - c) - 1) with (52 + (u - c)) by lia.
    rewrite !Z.pow_add_r by lia. nia. }
  unfold binary_normalize, binary_round.
  rewrite Hds, fexp_normal by lia. unfold shl_align.
  destruct (53 + (u - c) + - u - 53 - - u) as [|p|p] eqn:Hp; [| |lia].
  - (* no shift *)
    assert (u = c) as Huc by lia. rewrite Huc in *.
    replace (c - c) with 0 in Hs by lia. change (2 ^ 0) with 1 in Hs.
    assert (s = mz) as -> by lia.
    by rewrite binary_round_aux_exact by lia.
  - destruct (binary_round_aux_nearest false s (- u) loc_Exact (Z.pos s) 1
                (u - c)) as (M0 & _ & HM0 & Hnear & ->); [|lia..|].
    { unfold located. lia. }
    rewrite <- Hs, Z.mul_1_r in Hnear.
    replace (M0 * 2 ^ (u - c) - Z.pos mz * 2 ^ (u - c))
      with ((M0 - Z.pos mz) * 2 ^ (u - c)) in Hnear by ring.
    rewrite Z.abs_mul, (Z.abs_eq (2 ^ (u - c))) in Hnear by lia.
    assert (M0 = Z.pos mz) as -> by nia.
    rewrite decide_True by lia. cbn [Z.to_pos]. f_equal. lia.
Qed.

(** ** Error rate *)

Lemma countZ_snoc (b x : bool) (l : list bool) :
  countZ b (l ++ [x]) = countZ b l + (if decide (x = b) then 1 else 0).
Proof.
  unfold countZ. rewrite filter_app, length_app, filter_cons, filter_nil.
  case_decide; simpl; lia.
Qed.

Lemma countZ_bounds (b : bool) (l : list bool) :
  0 ≤ countZ b l ≤ Z.of_nat (length l).
Proof.
  unfold countZ. pose proof (length_filter (λ x, x = b) l). lia.
Qed.

(** The two counters of the exact-key record count the calls, in [int64]
    arithmetic. *)
Lemma requestsAndFailures_counters (p : string) (w : Z) (u n m : string)
    (l : list bool) :
  u ≠ "*"%string → n ≠ "*"%string → m ≠ "*"%string →
  let t := run (requestsAndFailures u n m l) (NewTracker p w) in
  let tm := default newTrackedMetrics (metrics t !! TripletKey u n m) in
  RequestsTotal tm = wrap64 (countZ true l) ∧
  ErrorsTotal tm = wrap64 (countZ false l).
Proof.
  intros Hu Hn Hm. simpl.
  induction l as [|x l [IHr IHe]] using rev_ind; [done|].
  unfold requestsAndFailures in *. rewrite map_app. cbn [map].
  rewrite run_snoc, !countZ_snoc.
  assert (TripletKey u n m ∈ getKeys u n m) as Hin by (by left).
  destruct x; cbn [step].
  - unfold RecordUpstreamRequest. rewrite forKeys_getKeys_spec by done.
    rewrite decide_True by done.
    cbn [from_option id RequestsTotal ErrorsTotal with_RequestsTotal].
    unfold Add, add64.
    rewrite IHr, IHe, wrap64_add_l. by rewrite Z.add_0_r.
  - unfold RecordUpstreamFailure. rewrite forKeys_getKeys_spec by done.
    rewrite decide_True by done.
    cbn [from_option id RequestsTotal ErrorsTotal with_ErrorsTotal].
    unfold Add, add64.
    rewrite IHr, IHe, wrap64_add_l. by rewrite Z.add_0_r.
Qed.

(** C9.  [ErrorRate] of a record is exactly 0 when its request counter is
    0 and otherwise the [float64] quotient of the error counter by the
    request counter; for counters below 2^53, which [float64] holds
    exactly, that quotient is a float64 nearest to the rational
    errors / requests.  After any sequential history of requests and
    failures on a fixed concrete triplet of a new tracker, the two counters
    of its record are the numbers of requests and of failures, so that the
    error rate is 0 without request and failures / requests, rounded to
    nearest, otherwise. *)
Theorem ErrorRate_spec :
  (∀ tm,
     (RequestsTotal tm = 0 → ErrorRate tm = float64_zero) ∧
     (RequestsTotal tm ≠ 0 →
      ErrorRate tm =
        float64_div (float64_of_int64 (ErrorsTotal tm))
                    (float64_of_int64 (RequestsTotal tm))) ∧
     (0 ≤ ErrorsTotal tm < 2 ^ 53 → 0 < RequestsTotal tm < 2 ^ 53 →
      float64_nearest (ErrorsTotal tm) (RequestsTotal tm) (ErrorRate tm))) ∧
  (∀ p w u n m l,
     u ≠ "*"%string → n ≠ "*"%string → m ≠ "*"%string →
     Z.of_nat (length l) ≤ max_int64 →
     let t := run (requestsAndFailures u n m l) (NewTracker p w) in
     let tm := (GetUpstreamMethodMetrics u n m t).1 in
     RequestsTotal tm = countZ true l ∧
     ErrorsTotal tm = countZ false l ∧
     (countZ true l = 0 → ErrorRate tm = float64_zero) ∧
     (0 < countZ true l →
      ErrorRate tm =
        float64_div (float64_of_int64 (countZ false l))
                    (float64_of_int64 (countZ true l))) ∧
     (0 < countZ true l → Z.of_nat (length l) < 2 ^ 53 →
      float64_nearest (countZ false l) (countZ true l) (ErrorRate tm))).
Proof.
  assert (∀ tm, 0 ≤ ErrorsTotal tm < 2 ^ 53 → 0 < RequestsTotal tm < 2 ^ 53 →
            float64_nearest (ErrorsTotal tm) (RequestsTotal tm) (ErrorRate tm))
    as Hnearest.
  { intros tm He Hr. unfold ErrorRate. rewrite decide_False by lia.
    by apply float64_div_nearest. }
  split.
  - intros tm. split; [|split; [|apply Hnearest]]; unfold ErrorRate; intros Hr.
    + by rewrite decide_True.
    + by rewrite decide_False.
  - intros p w u n m l Hu Hn Hm Hlen. cbn zeta.
    unfold GetUpstreamMethodMetrics. rewrite getMetrics_fst.
    destruct (requestsAndFailures_counters p w u n m l Hu Hn Hm) as [Hr He].
    cbn zeta in Hr, He.
    pose proof (countZ_bounds true l) as Hbt.
    pose proof (countZ_bounds false l) as Hbf.
    rewrite wrap64_id in Hr
      by (unfold int64_range, min_int64, max_int64 in *; lia).
    rewrite wrap64_id in He
      by (unfold int64_range, min_int64, max_int64 in *; lia).
    split; [done|]. split; [done|].
    split; [|split].
    + intros Hc. unfold ErrorRate. rewrite Hr. by rewrite decide_True.
    + intros Hc. unfold ErrorRate. rewrite Hr, He.
      by rewrite decide_False by lia.
    + intros Hc Hl. rewrite <- Hr, <- He. apply Hnearest; lia.
Qed.

Lemma ErrorRate_spec_witness :
  let rate l :=
    ErrorRate
      (GetUpstreamMethodMetrics "x" "eth" "eth_call"
         (run (requestsAndFailures "x" "eth" "eth_call" l)
            (NewTracker "p" 60))).1 in
  rate [true; false; true] = S754_finite false 4503599627370496 (-53) ∧
  rate [true; true; false; true] = S754_finite false 6004799503160661 (-54) ∧
  float64_nearest 1 3 (rate [true; true; false; true]) ∧
  rate [true; false; false; false] = S754_finite false 6755399441055744 (-51) ∧
  rate [false; false] = float64_zero ∧
  rate [true; true] = float64_zero ∧
  ErrorRate
    {| ResponseQuantiles := NewQuantileTracker;
       ErrorsTotal := 2; SelfRateLimitedTotal := 0;
       RemoteRateLimitedTotal := 0; RequestsTotal := 7;
       BlockHeadLag := 0; FinalizationLag := 0;
       BlockHeadLargeRollback := 0; Cordoned := false;
       CordonedReason := None |}
  = S754_finite false 5146971002709138 (-54).
Proof.
  cbn zeta. destruct ErrorRate_spec as [Hrec Hrun].
  assert (Z.of_nat 2 ≤ max_int64) as H2 by (vm_compute; discriminate).
  assert (Z.of_nat 3 ≤ max_int64) as H3 by (vm_compute; discriminate).
  assert (Z.of_nat 4 ≤ max_int64) as H4 by (vm_compute; discriminate).
  destruct (Hrun "p" 60 "x" "eth" "eth_call" [true; false; true]
              ltac:(discriminate) ltac:(discriminate) ltac:(discriminate) H3)
    as (_ & _ & _ & Hhalf & _).
  destruct (Hrun "p" 60 "x" "eth" "eth_call" [true; true; false; true]
              ltac:(discriminate) ltac:(discriminate) ltac:(discriminate) H4)
    as (_ & _ & _ & Hthird & Hnear).
  destruct (Hrun "p" 60 "x" "eth" "eth_call" [true; false; false; false]
              ltac:(discriminate) ltac:(discriminate) ltac:(discriminate) H4)
    as (_ & _ & _ & Hthree & _).
  destruct (Hrun "p" 60 "x" "eth" "eth_call" [false; false]
              ltac:(discriminate) ltac:(discriminate) ltac:(discriminate) H2)
    as (_ & _ & Hnone & _).
  destruct (Hrun "p" 60 "x" "eth" "eth_call" [true; true]
              ltac:(discriminate) ltac:(discriminate) ltac:(discriminate) H2)
    as (_ & _ & _ & Hzero & _).
  destruct (Hrec (mkTrackedMetrics NewQuantileTracker 2 0 0 7 0 0 0 false None))
    as (_ & Hquot & _).
  split; [|split; [|split; [|split; [|split; [|split]]]]].
  - rewrite Hhalf by (vm_compute; reflexivity). vm_compute. reflexivity.
  - rewrite Hthird by (vm_compute; reflexivity). vm_compute. reflexivity.
  - apply Hnear; vm_compute; reflexivity.
  - rewrite Hthree by (vm_compute; reflexivity). vm_compute. reflexivity.
  - apply Hnone. vm_compute. reflexivity.
  - rewrite Hzero by (vm_compute; reflexivity). vm_compute. reflexivity.
  - rewrite Hquot by (vm_compute; discriminate). vm_compute. reflexivity.
Defined.

(** * Further properties of the tracker *)

(** ** Fetch-or-create *)

(** X1.  [getMetrics] and [getMetadata] are fetch-or-create: the record
    they return is the one the store holds under the key afterwards, every
    other key is untouched, and a second call returns the same record and
    changes nothing. *)
Theorem get_or_create_idempotent (t : Tracker) :
  (∀ k,
     let r := getMetrics k t in
     metrics r.2 !! k = Some r.1 ∧
     (∀ k', k' ≠ k → metrics r.2 !! k' = metrics t !! k') ∧
     metadata r.2 = metadata t ∧
     getMetrics k r.2 = r) ∧
  (∀ dk,
     let r := getMetadata dk t in
     metadata r.2 !! dk = Some r.1 ∧
     (∀ dk', dk' ≠ dk → metadata r.2 !! dk' = metadata t !! dk') ∧
     metrics r.2 = metrics t ∧
     getMetadata dk r.2 = r).
Proof.
  split.
  - intros k. cbn zeta. split; [|split; [|split]].
    + rewrite getMetrics_lookup, getMetrics_fst. by rewrite decide_True.
    + intros k' Hne. rewrite getMetrics_lookup. by rewrite decide_False.
    + apply getMetrics_metadata.
    + unfold getMetrics at 1.
      assert (metrics (getMetrics k t).2 !! k = Some (getMetrics k t).1) as ->.
      { rewrite getMetrics_lookup, getMetrics_fst. by rewrite decide_True. }
      by destruct (getMetrics k t).
  - intros dk. cbn zeta. split; [|split; [|split]].
    + rewrite getMetadata_lookup, getMetadata_fst. by rewrite decide_True.
    + intros dk' Hne. rewrite getMetadata_lookup. by rewrite decide_False.
    + apply getMetadata_metrics.
    + unfold getMetadata at 1.
      assert (metadata (getMetadata dk t).2 !! dk = Some (getMetadata dk t).1)
        as ->.
      { rewrite getMetadata_lookup, getMetadata_fst. by rewrite decide_True. }
      by destruct (getMetadata dk t).
Qed.

Lemma get_or_create_idempotent_witness :
  metrics (getMetrics (TripletKey "u" "n" "m") (NewTracker "p" 60)).2
    !! TripletKey "u" "n" "x"
  = metrics (NewTracker "p" 60) !! TripletKey "u" "n" "x".
Proof.
  destruct (get_or_create_idempotent (NewTracker "p" 60)) as [Hm _].
  destruct (Hm (TripletKey "u" "n" "m")) as (_ & Hother & _).
  apply Hother. discriminate.
Defined.

(** ** Key expansion with wildcards in the triplet *)

Lemma Nat_iter_shift {A : Type} (f : A → A) (n : nat) (x : A) :
  Nat.iter n f (f x) = f (Nat.iter n f x).
Proof. induction n as [|n IH]; simpl; [done|]. by rewrite IH. Qed.

Lemma occurrences_notin (k : tripletKey) (keys : list tripletKey) :
  k ∉ keys → occurrences k keys = 0%nat.
Proof.
  unfold occurrences. induction keys as [|k0 keys IH]; intros Hk; [done|].
  apply not_elem_of_cons in Hk as [Hne Hk].
  rewrite filter_cons, decide_False by done. by apply IH.
Qed.

(** Each listed record receives the write once per occurrence of its key
    in the list. *)
Lemma forKeys_lookup_occurrences (keys : list tripletKey) upd (t : Tracker) k :
  metrics (forKeys keys upd t) !! k =
    if decide (k ∈ keys)
    then Some (Nat.iter (occurrences k keys) upd
                 (default newTrackedMetrics (metrics t !! k)))
    else metrics t !! k.
Proof.
  rewrite forKeys_touch. revert t.
  induction keys as [|k0 keys IH]; intros t.
  - cbn [foldl]. rewrite decide_False; [done|]. by intros ?%elem_of_nil.
  - cbn [foldl]. rewrite IH, touch_lookup. unfold occurrences.
    rewrite filter_cons.
    destruct (decide (k0 = k)) as [->|Hne].
    + rewrite (decide_True (P := k ∈ k :: keys)) by (by left).
      cbn [length]. destruct (decide (k ∈ keys)).
      * cbn [from_option id]. by rewrite Nat_iter_shift.
      * fold (occurrences k keys). by rewrite occurrences_notin.
    + destruct (decide (k ∈ keys)).
      * rewrite (decide_True (P := k ∈ k0 :: keys)) by (by right). done.
      * rewrite (decide_False (P := k ∈ k0 :: keys)); [done|].
        intros [?|?]%elem_of_cons; congruence.
Qed.




(** ** Rollups *)

Lemma expandingTo_snoc (k tr : tripletKey) (trs : list tripletKey) :
  expandingTo k (trs ++ [tr]) =
    expandingTo k trs +
    (if decide (k ∈ getKeys (tk_ups tr) (tk_network tr) (tk_method tr))
     then 1 else 0).
Proof.
  unfold expandingTo. rewrite filter_app, length_app, filter_cons, filter_nil.
  case_decide; cbn [length]; lia.
Qed.

Lemma requestsOf_counter (p : string) (w : Z) (trs : list tripletKey)
    (k : tripletKey) :
  Forall concreteKey trs →
  RequestsTotal
    (default newTrackedMetrics
       (metrics (run (requestsOf trs) (NewTracker p w)) !! k))
  = wrap64 (expandingTo k trs).
Proof.
  induction trs as [|tr trs IH] using rev_ind; intros Hc; [done|].
  apply Forall_app in Hc as [Hc Htr]. apply Forall_inv in Htr.
  destruct Htr as (Hu & Hn & Hm). specialize (IH Hc).
  unfold requestsOf in *. rewrite map_app. cbn [map].
  rewrite run_snoc, expandingTo_snoc. cbn [step].
  unfold RecordUpstreamRequest. rewrite forKeys_getKeys_spec by done.
  case_decide.
  - cbn [from_option id RequestsTotal with_RequestsTotal]. unfold Add, add64.
    by rewrite IH, wrap64_add_l.
  - by rewrite IH, Z.add_0_r.
Qed.

Ltac key_cases :=
  let H := fresh "H" in
  intros [H|[H|[H|[H|[H|[]]]]]]; inversion H; subst;
  first [ congruence | split; congruence ].

(** X3.  After a history of requests on concrete triplets, from a new
    tracker, the request counter of every key (0 for a key without record)
    is the number of requests whose five-key expansion contains the key, in
    [int64] arithmetic: the record of ("*", n, "*") counts the requests on
    network [n], that of (u, "*", "*") the requests through upstream [u],
    that of (u, n, "*") (with [u] and [n] concrete) the requests through
    [u] on [n], and that of ("*", n, m) (with [m] concrete) the requests for
    method [m] on [n]. *)
Theorem rollup_counts (p : string) (w : Z) (trs : list tripletKey)
    (k : tripletKey) :
  Forall concreteKey trs →
  let t := run (requestsOf trs) (NewTracker p w) in
  RequestsTotal (default newTrackedMetrics (metrics t !! k))
    = wrap64 (expandingTo k trs) ∧
  (Z.of_nat (length trs) ≤ max_int64 →
   RequestsTotal (default newTrackedMetrics (metrics t !! k))
     = expandingTo k trs) ∧
  (∀ tr, concreteKey tr →
     let keys := getKeys (tk_ups tr) (tk_network tr) (tk_method tr) in
     (∀ n, TripletKey "*" n "*" ∈ keys ↔ tk_network tr = n) ∧
     (∀ u, TripletKey u "*" "*" ∈ keys ↔ tk_ups tr = u) ∧
     (∀ u n, u ≠ "*"%string → n ≠ "*"%string →
             TripletKey u n "*" ∈ keys ↔ tk_ups tr = u ∧ tk_network tr = n) ∧
     (∀ n m, m ≠ "*"%string →
             TripletKey "*" n m ∈ keys
             ↔ tk_network tr = n ∧ tk_method tr = m)).
Proof.
  intros Hc t. split; [by apply requestsOf_counter|]. split.
  - intros Hlen. subst t. rewrite requestsOf_counter by done.
    apply wrap64_id. unfold expandingTo, int64_range, min_int64 in *.
    pose proof (length_filter
                  (λ tr, k ∈ getKeys (tk_ups tr) (tk_network tr) (tk_method tr))
                  trs).
    lia.
  - intros [u' n' m'] (Hu & Hn & Hm). cbn in Hu, Hn, Hm. cbn zeta.
    cbn [tk_ups tk_network tk_method]. unfold getKeys.
    split; [|split; [|split]]; intros;
      rewrite !elem_of_cons, elem_of_nil; (split; [key_cases|]).
    + intros ->. do 4 right. by left.
    + intros ->. do 2 right. by left.
    + intros [-> ->]. right. by left.
    + intros [-> ->]. do 3 right. by left.
Qed.

Lemma rollup_counts_witness :
  RequestsTotal
    (default newTrackedMetrics
       (metrics
          (run (requestsOf [ TripletKey "A" "eth" "eth_call";
                             TripletKey "B" "eth" "eth_getLogs";
                             TripletKey "A" "arb" "eth_call" ])
               (NewTracker "p" 60))
        !! TripletKey "*" "eth" "*"))
  = 2.
Proof.
  destruct (rollup_counts "p" 60
              [ TripletKey "A" "eth" "eth_call";
                TripletKey "B" "eth" "eth_getLogs";
                TripletKey "A" "arb" "eth_call" ]
              (TripletKey "*" "eth" "*")) as (_ & Hcount & _).
  { repeat constructor; discriminate. }
  rewrite Hcount by (vm_compute; discriminate).
  vm_compute. reflexivity.
Defined.

(** ** Cordon state *)

Lemma cordonedAt_lookup (t t' : Tracker) (k : tripletKey)
    (f : TrackedMetrics → TrackedMetrics) :
  (∀ m, Cordoned (f m) = Cordoned m) →
  metrics t' !! k = f <$> metrics t !! k →
  cordonedAt k t' = cordonedAt k t.
Proof.
  intros Hf Hk. unfold cordonedAt. rewrite Hk.
  destruct (metrics t !! k); simpl; [apply Hf|done].
Qed.

Lemma Nat_iter_Cordoned (f : TrackedMetrics → TrackedMetrics) (c : nat)
    (m : TrackedMetrics) :
  (∀ m, Cordoned (f m) = Cordoned m) →
  Cordoned (Nat.iter c f m) = Cordoned m.
Proof. intros Hf. induction c as [|c IH]; simpl; [done|]. by rewrite Hf. Qed.

Lemma forKeys_cordonedAt (keys : list tripletKey) upd (t : Tracker) k :
  (∀ m, Cordoned (upd m) = Cordoned m) →
  cordonedAt k (forKeys keys upd t) = cordonedAt k t.
Proof.
  intros Hf. unfold cordonedAt. rewrite forKeys_lookup_occurrences.
  case_decide; [|done]. rewrite Nat_iter_Cordoned by done.
  by destruct (metrics t !! k).
Qed.

Lemma getMetrics_cordonedAt (k0 k : tripletKey) (t : Tracker) :
  cordonedAt k (getMetrics k0 t).2 = cordonedAt k t.
Proof.
  unfold cordonedAt. rewrite getMetrics_lookup.
  case_decide; [subst|done]. by destruct (metrics t !! k).
Qed.

Lemma lagAll_cases w mark network k m :
  lagAll w mark network k m = m ∨ ∃ v, lagAll w mark network k m = w (Store v) m.
Proof. unfold lagAll. repeat case_decide; eauto. Qed.

Lemma lagOne_cases w mark ups network k m :
  lagOne w mark ups network k m = m
  ∨ ∃ v, lagOne w mark ups network k m = w (Store v) m.
Proof. unfold lagOne. case_decide; eauto. Qed.

(** The setters keep the key set of the record store and write at most the
    lag gauge of their pipeline in a record. *)
Lemma Set_frame (ups n : string) (b : Z) (t : Tracker) k :
  (metrics (SetLatestBlockNumber ups n b t) !! k = None
     ↔ metrics t !! k = None) ∧
  (∀ m, metrics t !! k = Some m →
     metrics (SetLatestBlockNumber ups n b t) !! k = Some m ∨
     ∃ v, metrics (SetLatestBlockNumber ups n b t) !! k
          = Some (with_BlockHeadLag (Store v) m)) ∧
  (metrics (SetFinalizedBlockNumber ups n b t) !! k = None
     ↔ metrics t !! k = None) ∧
  (∀ m, metrics t !! k = Some m →
     metrics (SetFinalizedBlockNumber ups n b t) !! k = Some m ∨
     ∃ v, metrics (SetFinalizedBlockNumber ups n b t) !! k
          = Some (with_FinalizationLag (Store v) m)).
Proof.
  destruct (decide (0 < b)) as [Hb|Hb].
  - destruct (SetLatestBlockNumber_spec ups n b t Hb) as (_ & _ & Hl).
    destruct (SetFinalizedBlockNumber_spec ups n b t Hb) as (_ & _ & Hf).
    rewrite Hl, Hf, !fmap_None.
    split; [done|]. split; [|split; [done|]].
    + intros m ->. cbn [fmap option_fmap option_map].
      destruct (decide (b > latestMark (DuoKey "*" n) t)).
      * destruct (lagAll_cases with_BlockHeadLag
                    (λ dk, latestMark dk (SetLatestBlockNumber ups n b t))
                    n k m) as [->|[v ->]]; eauto.
      * destruct (lagOne_cases with_BlockHeadLag
                    (λ dk, latestMark dk (SetLatestBlockNumber ups n b t))
                    ups n k m) as [->|[v ->]]; eauto.
    + intros m ->. cbn [fmap option_fmap option_map].
      destruct (decide (b > finalizedMark (DuoKey "*" n) t)).
      * destruct (lagAll_cases with_FinalizationLag
                    (λ dk, finalizedMark dk (SetFinalizedBlockNumber ups n b t))
                    n k m) as [->|[v ->]]; eauto.
      * destruct (lagOne_cases with_FinalizationLag
                    (λ dk, finalizedMark dk (SetFinalizedBlockNumber ups n b t))
                    ups n k m) as [->|[v ->]]; eauto.
  - destruct (Set_nonpositive_id ups n b t) as [-> ->]; [lia|].
    split; [done|]. split; [eauto|]. split; [done|eauto].
Qed.

Lemma Set_cordonedAt (ups n : string) (b : Z) (t : Tracker) k :
  cordonedAt k (SetLatestBlockNumber ups n b t) = cordonedAt k t ∧
  cordonedAt k (SetFinalizedBlockNumber ups n b t) = cordonedAt k t.
Proof.
  destruct (Set_frame ups n b t k) as (HlN & HlS & HfN & HfS).
  unfold cordonedAt. destruct (metrics t !! k) as [m|] eqn:Hk.
  - split.
    + destruct (HlS m eq_refl) as [->|[v ->]]; done.
    + destruct (HfS m eq_refl) as [->|[v ->]]; done.
  - rewrite (proj2 HlN eq_refl), (proj2 HfN eq_refl). done.
Qed.

(** X4.  Only [Cordon], [Uncordon] and the reset tick change the answer of
    [IsCordoned]: every recorder, both read accessors, both block-number
    setters and the rollback recorder leave [IsCordoned] of every triplet
    as it was, also when they create records. *)
Theorem only_cordon_ops_change_IsCordoned (t : Tracker) (o : op)
    (u n m : string) :
  ¬ cordonOp o → IsCordoned u n m (step t o) = IsCordoned u n m t.
Proof.
  intros Ho. rewrite !IsCordoned_unfold.
  assert (∀ k, cordonedAt k (step t o) = cordonedAt k t) as Hk;
    [|by rewrite !Hk].
  intros k. destruct o; cbn [step]; cbn in Ho; try done;
    try (by apply forKeys_cordonedAt);
    try apply getMetrics_cordonedAt.
  - apply (Set_cordonedAt ups network blockNumber t k).
  - apply (Set_cordonedAt ups network blockNumber t k).
  - rewrite RecordBlockHeadLargeRollback_touch.
    by apply (forKeys_cordonedAt [TripletKey ups network EmptyString]).
Qed.

Lemma only_cordon_ops_change_IsCordoned_witness :
  IsCordoned "A" "n" "m"
    (step (Cordon "A" "n" "*" "down" sampleTracker)
          (OpRecordUpstreamFailure "A" "n" "m"))
  = IsCordoned "A" "n" "m" (Cordon "A" "n" "*" "down" sampleTracker).
Proof.
  apply (only_cordon_ops_change_IsCordoned
           (Cordon "A" "n" "*" "down" sampleTracker)
           (OpRecordUpstreamFailure "A" "n" "m")).
  intros [].
Defined.

Lemma Cordon_cordonedAt (u n m r : string) (t : Tracker) k :
  cordonedAt k (Cordon u n m r t) =
    if decide (TripletKey u n m = k) then true else cordonedAt k t.
Proof. unfold cordonedAt. rewrite Cordon_touch. by case_decide. Qed.

Lemma Uncordon_cordonedAt (u n m : string) (t : Tracker) k :
  cordonedAt k (Uncordon u n m t) =
    if decide (TripletKey u n m = k) then false else cordonedAt k t.
Proof. unfold cordonedAt. rewrite Uncordon_touch. by case_decide. Qed.

(** X5.  The exact effect of [Cordon u n m] and [Uncordon u n m] on every
    query: after [Cordon], [IsCordoned u' n' m'] is true where it was true
    before and, in addition, for (u', n') = (u, n) when [m] is the wildcard
    or [m' = m]; [Uncordon u n m] clears only the flag of the key
    (u, n, m) itself, so a query stays true when the other of the two
    records it reads is cordoned. *)
Theorem Cordon_Uncordon_effect (u n m : string) (t : Tracker)
    (u' n' m' : string) :
  (∀ reason,
     IsCordoned u' n' m' (Cordon u n m reason t) =
       IsCordoned u' n' m' t
       || bool_decide (u' = u ∧ n' = n ∧ (m = "*"%string ∨ m' = m))) ∧
  IsCordoned u' n' m' (Uncordon u n m t) =
    (if decide (TripletKey u n m = TripletKey u' n' "*") then false
     else cordonedAt (TripletKey u' n' "*") t)
    || (if decide (TripletKey u n m = TripletKey u' n' m') then false
        else cordonedAt (TripletKey u' n' m') t).
Proof.
  split.
  - intros reason. rewrite !IsCordoned_unfold, !Cordon_cordonedAt.
    destruct (decide (TripletKey u n m = TripletKey u' n' "*")) as [H1|H1],
             (decide (TripletKey u n m = TripletKey u' n' m')) as [H2|H2];
      case_bool_decide as Hb;
      first [ by destruct (cordonedAt (TripletKey u' n' "*") t),
                          (cordonedAt (TripletKey u' n' m') t)
            | exfalso; apply Hb; simplify_eq; tauto
            | exfalso; destruct Hb as (-> & -> & [->| ->]); congruence ].
  - by rewrite IsCordoned_unfold, !Uncordon_cordonedAt.
Qed.

(** Two trackers with the same configuration and the same stores are
    equal. *)
Lemma Tracker_ext (t1 t2 : Tracker) :
  projectId t1 = projectId t2 → windowSize t1 = windowSize t2 →
  (∀ k, metrics t1 !! k = metrics t2 !! k) →
  metadata t1 = metadata t2 → t1 = t2.
Proof.
  destruct t1, t2; simpl. intros -> -> Hm ->. f_equal. by apply map_eq.
Qed.

Lemma Cordon_config (u n m r : string) (t : Tracker) :
  projectId (Cordon u n m r t) = projectId t ∧
  windowSize (Cordon u n m r t) = windowSize t.
Proof. unfold Cordon, getMetrics. by destruct (metrics t !! _). Qed.

Lemma Uncordon_config (u n m : string) (t : Tracker) :
  projectId (Uncordon u n m t) = projectId t ∧
  windowSize (Uncordon u n m t) = windowSize t.
Proof. unfold Uncordon, getMetrics. by destruct (metrics t !! _). Qed.

(** X6.  On one key the last of [Cordon] / [Uncordon] wins: [Uncordon]
    after [Cordon] leaves the tracker that [Uncordon] alone gives, a second
    [Cordon] replaces the reason of the first, and [Cordon] after
    [Uncordon] is [Cordon] alone.  On two different keys [Cordon]s
    commute. *)
Theorem Cordon_Uncordon_compose (u n m : string) (t : Tracker) :
  (∀ r, Uncordon u n m (Cordon u n m r t) = Uncordon u n m t) ∧
  (∀ r1 r2, Cordon u n m r2 (Cordon u n m r1 t) = Cordon u n m r2 t) ∧
  (∀ r, Cordon u n m r (Uncordon u n m t) = Cordon u n m r t) ∧
  (∀ u' n' m' r r',
     TripletKey u' n' m' ≠ TripletKey u n m →
     Cordon u n m r (Cordon u' n' m' r' t)
       = Cordon u' n' m' r' (Cordon u n m r t)).
Proof.
  split; [|split; [|split]].
  - intros r. apply Tracker_ext.
    + destruct (Uncordon_config u n m (Cordon u n m r t)) as [-> _].
      destruct (Cordon_config u n m r t) as [-> _].
      by destruct (Uncordon_config u n m t) as [-> _].
    + destruct (Uncordon_config u n m (Cordon u n m r t)) as [_ ->].
      destruct (Cordon_config u n m r t) as [_ ->].
      by destruct (Uncordon_config u n m t) as [_ ->].
    + intros k. rewrite !Uncordon_touch, Cordon_touch.
      case_decide; [subst k|done]. done.
    + by rewrite !Uncordon_metadata, Cordon_metadata.
  - intros r1 r2. apply Tracker_ext.
    + destruct (Cordon_config u n m r2 (Cordon u n m r1 t)) as [-> _].
      destruct (Cordon_config u n m r1 t) as [-> _].
      by destruct (Cordon_config u n m r2 t) as [-> _].
    + destruct (Cordon_config u n m r2 (Cordon u n m r1 t)) as [_ ->].
      destruct (Cordon_config u n m r1 t) as [_ ->].
      by destruct (Cordon_config u n m r2 t) as [_ ->].
    + intros k. rewrite !Cordon_touch.
      case_decide; [subst k|done]. done.
    + by rewrite !Cordon_metadata.
  - intros r. apply Tracker_ext.
    + destruct (Cordon_config u n m r (Uncordon u n m t)) as [-> _].
      destruct (Uncordon_config u n m t) as [-> _].
      by destruct (Cordon_config u n m r t) as [-> _].
    + destruct (Cordon_config u n m r (Uncordon u n m t)) as [_ ->].
      destruct (Uncordon_config u n m t) as [_ ->].
      by destruct (Cordon_config u n m r t) as [_ ->].
    + intros k. rewrite !Cordon_touch, Uncordon_touch.
      case_decide; [subst k|done]. done.
    + by rewrite !Cordon_metadata, Uncordon_metadata.
  - intros u' n' m' r r' Hne. apply Tracker_ext.
    + destruct (Cordon_config u n m r (Cordon u' n' m' r' t)) as [-> _].
      destruct (Cordon_config u' n' m' r' t) as [-> _].
      destruct (Cordon_config u' n' m' r' (Cordon u n m r t)) as [-> _].
      by destruct (Cordon_config u n m r t) as [-> _].
    + destruct (Cordon_config u n m r (Cordon u' n' m' r' t)) as [_ ->].
      destruct (Cordon_config u' n' m' r' t) as [_ ->].
      destruct (Cordon_config u' n' m' r' (Cordon u n m r t)) as [_ ->].
      by destruct (Cordon_config u n m r t) as [_ ->].
    + intros k. rewrite !Cordon_touch.
      destruct (decide (TripletKey u n m = k)) as [<-|H1].
      * by rewrite !decide_False by done.
      * done.
    + by rewrite !Cordon_metadata.
Qed.

Lemma Cordon_Uncordon_compose_witness :
  Cordon "A" "n" "m" "slow" (Cordon "B" "n" "*" "down" sampleTracker)
  = Cordon "B" "n" "*" "down" (Cordon "A" "n" "m" "slow" sampleTracker).
Proof.
  destruct (Cordon_Uncordon_compose "A" "n" "m" sampleTracker)
    as (_ & _ & _ & Hcomm).
  apply Hcomm. discriminate.
Defined.

(** ** What the block-number setters leave alone *)

Lemma with_BlockHeadLag_same (m : TrackedMetrics) :
  with_BlockHeadLag (Store (BlockHeadLag m)) m = m.
Proof. by destruct m. Qed.

Lemma with_FinalizationLag_same (m : TrackedMetrics) :
  with_FinalizationLag (Store (FinalizationLag m)) m = m.
Proof. by destruct m. Qed.

Lemma lag_other_network w mark ups network k m :
  tk_network k ≠ network →
  lagAll w mark network k m = m ∧ lagOne w mark ups network k m = m.
Proof.
  intros Hne. unfold lagAll, lagOne.
  rewrite decide_False by done. rewrite decide_False by tauto. done.
Qed.

Lemma Set_other_network (ups n : string) (b : Z) (t : Tracker) k :
  tk_network k ≠ n →
  metrics (SetLatestBlockNumber ups n b t) !! k = metrics t !! k ∧
  metrics (SetFinalizedBlockNumber ups n b t) !! k = metrics t !! k.
Proof.
  intros Hne. destruct (decide (0 < b)) as [Hb|Hb].
  - destruct (SetLatestBlockNumber_spec ups n b t Hb) as (_ & _ & Hl).
    destruct (SetFinalizedBlockNumber_spec ups n b t Hb) as (_ & _ & Hf).
    rewrite Hl, Hf. clear Hl Hf. destruct (metrics t !! k) as [m|]; [|done].
    cbn [fmap option_fmap option_map].
    split; destruct (decide (b > _)); f_equal;
      by apply lag_other_network.
  - by destruct (Set_nonpositive_id ups n b t) as [-> ->]; [lia|].
Qed.

(** X7.  [SetLatestBlockNumber] and [SetFinalizedBlockNumber] never create
    or remove a metric record, and in an existing record they write nothing
    but the lag gauge of their own pipeline (block-head lag, respectively
    finalization lag): counters, accumulator, the other lag gauge, rollback
    gauge and cordon state stay.  Records and marks of other networks are
    untouched, and neither setter moves a mark of the other pipeline. *)
Theorem setters_frame (ups n : string) (b : Z) (t : Tracker) :
  let tl := SetLatestBlockNumber ups n b t in
  let tf := SetFinalizedBlockNumber ups n b t in
  (∀ k, metrics t !! k = None →
        metrics tl !! k = None ∧ metrics tf !! k = None) ∧
  (∀ k m, metrics t !! k = Some m →
     (∃ v, metrics tl !! k = Some (with_BlockHeadLag (Store v) m)) ∧
     (∃ v, metrics tf !! k = Some (with_FinalizationLag (Store v) m)) ∧
     (tk_network k ≠ n →
      metrics tl !! k = Some m ∧ metrics tf !! k = Some m)) ∧
  (∀ dk, dk_network dk ≠ n →
     latestMark dk tl = latestMark dk t ∧
     finalizedMark dk tf = finalizedMark dk t) ∧
  (∀ dk, finalizedMark dk tl = finalizedMark dk t ∧
         latestMark dk tf = latestMark dk t).
Proof.
  cbn zeta. split; [|split; [|split]].
  - intros k Hk. destruct (Set_frame ups n b t k) as (HlN & _ & HfN & _).
    split; [by apply HlN|by apply HfN].
  - intros k m Hk. destruct (Set_frame ups n b t k) as (_ & HlS & _ & HfS).
    split; [|split].
    + destruct (HlS m Hk) as [->|[v ->]]; [|by exists v].
      exists (BlockHeadLag m). by rewrite with_BlockHeadLag_same.
    + destruct (HfS m Hk) as [->|[v ->]]; [|by exists v].
      exists (FinalizationLag m). by rewrite with_FinalizationLag_same.
    + intros Hne. destruct (Set_other_network ups n b t k Hne) as [-> ->].
      done.
  - intros dk Hne.
    rewrite SetLatestBlockNumber_latestMark,
      SetFinalizedBlockNumber_finalizedMark.
    rewrite !decide_False; [done| |];
      intros [_ [->| ->]]; by apply Hne.
  - intros dk. split.
    + apply SetLatestBlockNumber_finalizedMark.
    + apply SetFinalizedBlockNumber_latestMark.
Qed.

Lemma setters_frame_witness :
  metrics (SetLatestBlockNumber "B" "n" 150 sampleTracker)
    !! TripletKey "A" "other" "m" = None ∧
  latestMark (DuoKey "A" "other") (SetLatestBlockNumber "B" "n" 150 sampleTracker)
  = latestMark (DuoKey "A" "other") sampleTracker.
Proof.
  destruct (setters_frame "B" "n" 150 sampleTracker) as (Hnone & _ & Hmark & _).
  destruct (Hnone (TripletKey "A" "other" "m")) as [Hl _];
    [vm_compute; reflexivity|].
  destruct (Hmark (DuoKey "A" "other")) as [Hm _]; [discriminate|].
  split; [exact Hl|exact Hm].
Defined.

(** ** Marks and lag gauges along a history *)

Lemma step_finalizedMark (t : Tracker) (o : op) (dk : duoKey) :
  finalizedMark dk (step t o) =
    match o with
    | OpSetFinalizedBlockNumber u n b =>
        if decide (0 < b ∧ (dk = DuoKey "*" n ∨ dk = DuoKey u n))
        then Z.max (finalizedMark dk t) b
        else finalizedMark dk t
    | _ => finalizedMark dk t
    end.
Proof.
  pose proof (step_metadata t o) as Hmd.
  destruct o;
    try (unfold finalizedMark; by rewrite (loadMetadata_ext _ _ Hmd)).
  - apply SetLatestBlockNumber_finalizedMark.
  - apply SetFinalizedBlockNumber_finalizedMark.
Qed.

Lemma finalized_marks_bounded (p : string) (w : Z) (ops : list op)
    (dk : duoKey) :
  let t := run ops (NewTracker p w) in
  0 ≤ finalizedMark dk t ≤ finalizedMark (DuoKey "*" (dk_network dk)) t.
Proof.
  cbn zeta. revert dk. induction ops as [|o ops IH] using rev_ind; intros dk.
  - done.
  - rewrite run_snoc, !step_finalizedMark.
    pose proof (IH dk) as Hdk.
    destruct o as [| | | | | | | | | | | |u n b| |]; try done.
    destruct dk as [u' n']; cbn [dk_network] in *.
    destruct (decide (0 < b ∧ (DuoKey u' n' = DuoKey "*" n
                               ∨ DuoKey u' n' = DuoKey u n)))
      as [[Hb Hk]|Hk].
    + assert (n' = n) as -> by (destruct Hk; congruence).
      rewrite decide_True by (split; [done|by left]). lia.
    + destruct (decide (0 < b ∧ _)); lia.
Qed.

(** With [int64] block numbers every mark is at most the largest
    [int64]. *)
Lemma marks_le_max (p : string) (w : Z) (ops : list op) (dk : duoKey) :
  Forall int64Args ops →
  let t := run ops (NewTracker p w) in
  latestMark dk t ≤ max_int64 ∧ finalizedMark dk t ≤ max_int64.
Proof.
  cbn zeta. induction ops as [|o ops IH] using rev_ind; intros Hc.
  - split; vm_compute; discriminate.
  - apply Forall_app in Hc as [Hc Ho]. apply Forall_inv in Ho.
    destruct (IH Hc) as [IHl IHf].
    rewrite run_snoc, step_latestMark, step_finalizedMark.
    destruct o; try done; cbn in Ho; unfold int64_range in Ho.
    + split; [|done]. destruct (decide (0 < blockNumber ∧ _)); lia.
    + split; [done|]. destruct (decide (0 < blockNumber ∧ _)); lia.
Qed.

Section lag_bounds.
Context (w : (Z → Z) → TrackedMetrics → TrackedMetrics).
Context (get : TrackedMetrics → Z).
Context (mark : duoKey → Z).
Hypothesis get_w : ∀ g m, get (w g m) = g (get m).
Hypothesis mark_bounded :
  ∀ dk, 0 ≤ mark dk ≤ mark (DuoKey "*" (dk_network dk)).
Hypothesis mark_le_max : ∀ dk, mark dk ≤ max_int64.

Lemma lagAll_within (network : string) (k : tripletKey) (m : TrackedMetrics) :
  0 ≤ get m ≤ mark (DuoKey "*" (tk_network k)) →
  0 ≤ get (lagAll w mark network k m) ≤ mark (DuoKey "*" (tk_network k)).
Proof.
  intros Hm. unfold lagAll. case_decide as Hn; [|done].
  case_decide as Hown; [done|]. rewrite get_w. unfold Store.
  pose proof (mark_bounded (DuoKey (tk_ups k) network)) as Hb.
  cbn [dk_network] in Hb.
  pose proof (mark_le_max (DuoKey "*" network)).
  pose proof (mark_le_max (DuoKey (tk_ups k) network)).
  rewrite sub64_pos by lia. rewrite Hn. lia.
Qed.

Lemma lagOne_within (ups network : string) (k : tripletKey)
    (m : TrackedMetrics) :
  0 < mark (DuoKey ups network) →
  0 ≤ get m ≤ mark (DuoKey "*" (tk_network k)) →
  0 ≤ get (lagOne w mark ups network k m) ≤ mark (DuoKey "*" (tk_network k)).
Proof.
  intros Hpos Hm. unfold lagOne. case_decide as Hk; [|done].
  destruct Hk as [Hu Hn]. rewrite get_w. unfold Store.
  pose proof (mark_bounded (DuoKey ups network)) as Hb.
  cbn [dk_network] in Hb.
  pose proof (mark_le_max (DuoKey "*" network)).
  pose proof (mark_le_max (DuoKey ups network)).
  rewrite sub64_pos by lia. rewrite Hn. lia.
Qed.
End lag_bounds.

Lemma Nat_iter_keepsLags upd (c : nat) (m : TrackedMetrics) :
  keepsLags upd →
  BlockHeadLag (Nat.iter c upd m) = BlockHeadLag m ∧
  FinalizationLag (Nat.iter c upd m) = FinalizationLag m.
Proof.
  intros Hk. induction c as [|c [IHb IHf]]; [done|]. simpl.
  destruct (Hk (Nat.iter c upd m)) as [-> ->]. done.
Qed.

(** A loop of writes that keep the lag gauges gives each record either
    the gauges it had or those of a fresh record. *)
Lemma forKeys_lags (keys : list tripletKey) upd (t : Tracker) k m' :
  keepsLags upd →
  metrics (forKeys keys upd t) !! k = Some m' →
  (BlockHeadLag m' = 0 ∧ FinalizationLag m' = 0) ∨
  ∃ m, metrics t !! k = Some m ∧
       BlockHeadLag m' = BlockHeadLag m ∧
       FinalizationLag m' = FinalizationLag m.
Proof.
  intros Hk. rewrite forKeys_lookup_occurrences. case_decide.
  - intros [= <-].
    destruct (Nat_iter_keepsLags upd (occurrences k keys)
                (default newTrackedMetrics (metrics t !! k)) Hk) as [-> ->].
    destruct (metrics t !! k) as [m|]; [right; by exists m|by left].
  - intros Hm'. right. by exists m'.
Qed.

Lemma step_lags (t : Tracker) (o : op) k m' :
  match o with
  | OpSetLatestBlockNumber _ _ _ | OpSetFinalizedBlockNumber _ _ _ => True
  | _ =>
      metrics (step t o) !! k = Some m' →
      (BlockHeadLag m' = 0 ∧ FinalizationLag m' = 0) ∨
      ∃ m, metrics t !! k = Some m ∧
           BlockHeadLag m' = BlockHeadLag m ∧
           FinalizationLag m' = FinalizationLag m
  end.
Proof.
  destruct o; cbn [step]; try done;
    try (apply forKeys_lags; by intros []);
    try (intros Hm'; right; by exists m').
  - rewrite Cordon_touch. case_decide; [|intros Hm'; right; by exists m'].
    intros [= <-]. subst k.
    destruct (metrics t !! _) as [m|]; [right; by exists m|by left].
  - rewrite Uncordon_touch. case_decide; [|intros Hm'; right; by exists m'].
    intros [= <-]. subst k.
    destruct (metrics t !! _) as [m|]; [right; by exists m|by left].
  - unfold GetUpstreamMethodMetrics. rewrite getMetrics_lookup.
    case_decide; [|intros Hm'; right; by exists m'].
    intros [= <-]. subst k.
    destruct (metrics t !! _) as [m|]; [right; by exists m|by left].
  - unfold GetNetworkMethodMetrics. rewrite getMetrics_lookup.
    case_decide; [|intros Hm'; right; by exists m'].
    intros [= <-]. subst k.
    destruct (metrics t !! _) as [m|]; [right; by exists m|by left].
  - rewrite RecordBlockHeadLargeRollback_touch.
    apply (forKeys_lags [TripletKey ups network EmptyString]). by intros [].
  - rewrite resetMetricsTick_lookup.
    destruct (metrics t !! k) as [m|]; [|done]. intros [= <-]. by left.
Qed.

Lemma lags_Set_latest (ups n : string) (b : Z) (t : Tracker) :
  0 < b →
  (∀ dk, 0 ≤ latestMark dk (SetLatestBlockNumber ups n b t)
         ≤ latestMark (DuoKey "*" (dk_network dk))
             (SetLatestBlockNumber ups n b t)) →
  (∀ dk, latestMark dk (SetLatestBlockNumber ups n b t) ≤ max_int64) →
  lagsWithin t → lagsWithin (SetLatestBlockNumber ups n b t).
Proof.
  intros Hb Hbd Hmax IH k m' Hk.
  destruct (SetLatestBlockNumber_spec ups n b t Hb) as (Hl & Hf & Hrec).
  rewrite Hrec in Hk. clear Hrec.
  destruct (metrics t !! k) as [m|] eqn:Hm; [|done].
  cbn [fmap option_fmap option_map] in Hk. injection Hk as <-.
  destruct (IH k m Hm) as [IHb IHf].
  assert (latestMark (DuoKey "*" (tk_network k)) t
          ≤ latestMark (DuoKey "*" (tk_network k))
              (SetLatestBlockNumber ups n b t)) as Hmono.
  { rewrite Hl. destruct (decide (_ ∨ _)); lia. }
  assert (0 < latestMark (DuoKey ups n) (SetLatestBlockNumber ups n b t))
    as Hpos.
  { rewrite Hl. rewrite decide_True by (by right). lia. }
  rewrite Hf. destruct (decide (b > latestMark (DuoKey "*" n) t)).
  - split.
    + apply (lagAll_within with_BlockHeadLag BlockHeadLag
               (λ dk, latestMark dk (SetLatestBlockNumber ups n b t)));
        [done|done|done|lia].
    + destruct (lagAll_cases with_BlockHeadLag
                  (λ dk, latestMark dk (SetLatestBlockNumber ups n b t))
                  n k m) as [->|[v ->]]; done.
  - split.
    + apply (lagOne_within with_BlockHeadLag BlockHeadLag
               (λ dk, latestMark dk (SetLatestBlockNumber ups n b t)));
        [done|done|done|done|lia].
    + destruct (lagOne_cases with_BlockHeadLag
                  (λ dk, latestMark dk (SetLatestBlockNumber ups n b t))
                  ups n k m) as [->|[v ->]]; done.
Qed.

Lemma lags_Set_finalized (ups n : string) (b : Z) (t : Tracker) :
  0 < b →
  (∀ dk, 0 ≤ finalizedMark dk (SetFinalizedBlockNumber ups n b t)
         ≤ finalizedMark (DuoKey "*" (dk_network dk))
             (SetFinalizedBlockNumber ups n b t)) →
  (∀ dk, finalizedMark dk (SetFinalizedBlockNumber ups n b t) ≤ max_int64) →
  lagsWithin t → lagsWithin (SetFinalizedBlockNumber ups n b t).
Proof.
  intros Hb Hbd Hmax IH k m' Hk.
  destruct (SetFinalizedBlockNumber_spec ups n b t Hb) as (Hf & Hl & Hrec).
  rewrite Hrec in Hk. clear Hrec.
  destruct (metrics t !! k) as [m|] eqn:Hm; [|done].
  cbn [fmap option_fmap option_map] in Hk. injection Hk as <-.
  destruct (IH k m Hm) as [IHb IHf].
  assert (finalizedMark (DuoKey "*" (tk_network k)) t
          ≤ finalizedMark (DuoKey "*" (tk_network k))
              (SetFinalizedBlockNumber ups n b t)) as Hmono.
  { rewrite Hf. destruct (decide (_ ∨ _)); lia. }
  assert (0 < finalizedMark (DuoKey ups n)
                (SetFinalizedBlockNumber ups n b t)) as Hpos.
  { rewrite Hf. rewrite decide_True by (by right). lia. }
  rewrite Hl. destruct (decide (b > finalizedMark (DuoKey "*" n) t)).
  - split.
    + destruct (lagAll_cases with_FinalizationLag
                  (λ dk, finalizedMark dk (SetFinalizedBlockNumber ups n b t))
                  n k m) as [->|[v ->]]; done.
    + apply (lagAll_within with_FinalizationLag FinalizationLag
               (λ dk, finalizedMark dk (SetFinalizedBlockNumber ups n b t)));
        [done|done|done|lia].
  - split.
    + destruct (lagOne_cases with_FinalizationLag
                  (λ dk, finalizedMark dk (SetFinalizedBlockNumber ups n b t))
                  ups n k m) as [->|[v ->]]; done.
    + apply (lagOne_within with_FinalizationLag FinalizationLag
               (λ dk, finalizedMark dk (SetFinalizedBlockNumber ups n b t)));
        [done|done|done|done|lia].
Qed.

(** X8.  Along every sequential history from a new tracker in which the
    reported block numbers are [int64] values, both lag gauges of every
    record stay between 0 and the mark of the record's network: a lag is
    never negative and never exceeds the network's high-water mark. *)
Theorem lags_within_marks (p : string) (w : Z) (ops : list op) :
  Forall int64Args ops → lagsWithin (run ops (NewTracker p w)).
Proof.
  induction ops as [|o ops IH] using rev_ind; intros Hc.
  - intros k m. cbn. by rewrite lookup_empty.
  - pose proof Hc as Hall.
    apply Forall_app in Hc as [Hc Ho]. apply Forall_inv in Ho.
    specialize (IH Hc).
    assert (∀ dk, 0 ≤ latestMark dk (run (ops ++ [o]) (NewTracker p w))
                  ≤ latestMark (DuoKey "*" (dk_network dk))
                      (run (ops ++ [o]) (NewTracker p w))) as HbL
      by (intros dk; apply marks_bounded).
    assert (∀ dk, 0 ≤ finalizedMark dk (run (ops ++ [o]) (NewTracker p w))
                  ≤ finalizedMark (DuoKey "*" (dk_network dk))
                      (run (ops ++ [o]) (NewTracker p w))) as HbF
      by (intros dk; apply finalized_marks_bounded).
    assert (∀ dk, latestMark dk (run (ops ++ [o]) (NewTracker p w))
                  ≤ max_int64) as HmL
      by (intros dk; by apply marks_le_max).
    assert (∀ dk, finalizedMark dk (run (ops ++ [o]) (NewTracker p w))
                  ≤ max_int64) as HmF
      by (intros dk; by apply marks_le_max).
    rewrite run_snoc in *.
    set (t := run ops (NewTracker p w)) in *. clearbody t.
    pose proof (step_lags t o) as Hs.
    pose proof (step_latestMark t o) as HL.
    pose proof (step_finalizedMark t o) as HF.
    destruct o; cbn [step] in *;
      try (intros k m' Hk;
           destruct (Hs k m' Hk) as [[-> ->]|(m & Hm & -> & ->)];
           [ pose proof (HbL (DuoKey "*" (tk_network k)));
             pose proof (HbF (DuoKey "*" (tk_network k))); lia
           | rewrite HL, HF; by apply IH ]);
      try exact IH.
    + destruct (decide (0 < blockNumber)) as [Hb|Hb].
      * by apply lags_Set_latest.
      * by destruct (Set_nonpositive_id ups network blockNumber t)
          as [-> _]; [lia|].
    + destruct (decide (0 < blockNumber)) as [Hb|Hb].
      * by apply lags_Set_finalized.
      * by destruct (Set_nonpositive_id ups network blockNumber t)
          as [_ ->]; [lia|].
Qed.

Lemma lags_within_marks_witness :
  lagsWithin
    (run [ OpRecordUpstreamRequest "A" "n" "m";
           OpSetLatestBlockNumber "A" "n" 100;
           OpSetLatestBlockNumber "B" "n" 150 ]
         (NewTracker "p" 60)).
Proof.
  apply (lags_within_marks "p" 60
           [ OpRecordUpstreamRequest "A" "n" "m";
             OpSetLatestBlockNumber "A" "n" 100;
             OpSetLatestBlockNumber "B" "n" 150 ]).
  repeat (constructor;
          [first [exact I | vm_compute; split; discriminate]|]).
  constructor.
Defined.

Lemma finalized_mark_reported (p : string) (w : Z) (ops : list op)
    (n : string) :
  finalizedMark (DuoKey "*" n) (run ops (NewTracker p w))
    = foldr Z.max 0 (reportedFinalized n ops).
Proof.
  induction ops as [|o ops IH] using rev_ind; [done|].
  rewrite run_snoc, step_finalizedMark. unfold reportedFinalized.
  rewrite omap_app. fold (reportedFinalized n ops). simpl.
  destruct o; rewrite ?app_nil_r; try done.
  destruct (decide (network = n ∧ 0 < blockNumber)) as [[-> Hb]|Hne].
  - rewrite decide_True by (split; [done|by left]).
    simpl. by rewrite foldr_max_snoc, IH.
  - rewrite app_nil_r. rewrite decide_False; [done|].
    intros [Hb [Heq|Heq]]; simplify_eq; tauto.
Qed.

(** X9.  The finalized pipeline keeps the same high-water marks as the
    latest one: in every state reached from a new tracker the finalized
    value of ("*", n) is the maximum of the positive finalized numbers
    reported for [n], no upstream's finalized mark is above it or below 0,
    and a call that advances it sets the reporter's own finalized mark to
    the same value. *)
Theorem finalized_network_mark (p : string) (w : Z) (ops : list op)
    (n : string) :
  let t := run ops (NewTracker p w) in
  finalizedMark (DuoKey "*" n) t = foldr Z.max 0 (reportedFinalized n ops) ∧
  (∀ u, 0 ≤ finalizedMark (DuoKey u n) t ≤ finalizedMark (DuoKey "*" n) t) ∧
  (∀ ups b, 0 < b → finalizedMark (DuoKey "*" n) t < b →
     finalizedMark (DuoKey "*" n) (SetFinalizedBlockNumber ups n b t) = b ∧
     finalizedMark (DuoKey ups n) (SetFinalizedBlockNumber ups n b t) = b).
Proof.
  cbn zeta. split; [apply finalized_mark_reported|].
  assert (∀ u, 0 ≤ finalizedMark (DuoKey u n) (run ops (NewTracker p w))
               ≤ finalizedMark (DuoKey "*" n) (run ops (NewTracker p w)))
    as Hle.
  { intros u. apply (finalized_marks_bounded p w ops (DuoKey u n)). }
  split; [done|].
  intros ups b Hb Hadv. rewrite !SetFinalizedBlockNumber_finalizedMark.
  rewrite !decide_True by (split; [done|tauto]).
  specialize (Hle ups). lia.
Qed.

Lemma finalized_network_mark_witness :
  finalizedMark (DuoKey "B" "n") (SetFinalizedBlockNumber "B" "n" 95 sampleTracker)
  = 95.
Proof.
  destruct (finalized_network_mark "p" 60
              [ OpRecordUpstreamRequest "A" "n" "m";
                OpRecordUpstreamRequest "B" "n" "m";
                OpSetLatestBlockNumber "A" "n" 100;
                OpSetFinalizedBlockNumber "A" "n" 90 ] "n")
    as (_ & _ & Hadv).
  destruct (Hadv "B" 95) as [_ HB]; [lia|vm_compute; reflexivity|].
  exact HB.
Defined.

(** ** The rollback recorder *)

(** X10.  [RecordBlockHeadLargeRollback ups network] writes
    [currentVal - newVal] (an [int64] subtraction, exact when the
    difference is an [int64]) into the rollback gauge of the record of
    (ups, network, empty method), creating it if absent, whatever the
    finality label; no other record, in particular none of the five rollup
    keys of a request, and no head metadata changes; and a reset tick keeps
    the value. *)
Theorem rollback_recorded (ups network finality : string) (currentVal newVal : Z)
    (t : Tracker) :
  let k := TripletKey ups network EmptyString in
  let t' := RecordBlockHeadLargeRollback ups network finality
              currentVal newVal t in
  metrics t' !! k
    = Some (with_BlockHeadLargeRollback (Store (sub64 currentVal newVal))
              (default newTrackedMetrics (metrics t !! k))) ∧
  (int64_range (currentVal - newVal) →
   sub64 currentVal newVal = currentVal - newVal) ∧
  (∀ k', k' ≠ k → metrics t' !! k' = metrics t !! k') ∧
  metadata t' = metadata t ∧
  (∀ finality', RecordBlockHeadLargeRollback ups network finality'
                  currentVal newVal t = t') ∧
  BlockHeadLargeRollback <$> metrics (resetMetricsTick t') !! k
    = Some (sub64 currentVal newVal).
Proof.
  cbn zeta. rewrite RecordBlockHeadLargeRollback_touch.
  split; [|split; [|split; [|split; [|split]]]].
  - rewrite touch_lookup. by rewrite decide_True.
  - intros Hr. by apply wrap64_id.
  - intros k' Hne. rewrite touch_lookup. by rewrite decide_False.
  - apply touch_metadata.
  - done.
  - rewrite resetMetricsTick_lookup, touch_lookup.
    rewrite decide_True by done. done.
Qed.

Lemma rollback_recorded_witness :
  BlockHeadLargeRollback <$>
    metrics (RecordBlockHeadLargeRollback "A" "n" "latest" 120 100 sampleTracker)
      !! TripletKey "A" "n" EmptyString = Some 20 ∧
  metrics (RecordBlockHeadLargeRollback "A" "n" "latest" 120 100 sampleTracker)
    !! TripletKey "A" "n" "*"
  = metrics sampleTracker !! TripletKey "A" "n" "*".
Proof.
  destruct (rollback_recorded "A" "n" "latest" 120 100 sampleTracker)
    as (Hk & Hex & Hother & _).
  split.
  - rewrite Hk, Hex by (vm_compute; split; discriminate). reflexivity.
  - apply Hother. discriminate.
Defined.

(** ** The reset tick *)

Lemma resetMetricsTick_config (t : Tracker) :
  projectId (resetMetricsTick t) = projectId t ∧
  windowSize (resetMetricsTick t) = windowSize t.
Proof.
  unfold resetMetricsTick.
  apply (Range_local_self (λ k _ t, atMetrics k Reset t) (λ _, Reset)
           (λ r, projectId r = projectId t ∧ windowSize r = windowSize t));
    [|done].
  intros i x r Hr. split; [done|]. intros k'. apply atMetrics_lookup.
Qed.

Lemma Reset_idempotent (m : TrackedMetrics) : Reset (Reset m) = Reset m.
Proof. destruct m. vm_compute. reflexivity. Qed.

(** X11.  A tick of the reset loop keeps the set of records and the head
    metadata (marks are never reset), leaves every record with error rate
    and throttled rate 0, and a second tick right after the first changes
    nothing. *)
Theorem reset_tick_spec (t : Tracker) :
  let t' := resetMetricsTick t in
  (∀ k, is_Some (metrics t' !! k) ↔ is_Some (metrics t !! k)) ∧
  metadata t' = metadata t ∧
  (∀ k m, metrics t' !! k = Some m →
     ErrorRate m = float64_zero ∧ ThrottledRate m = float64_zero) ∧
  resetMetricsTick t' = t'.
Proof.
  cbn zeta. split; [|split; [|split]].
  - intros k. rewrite resetMetricsTick_lookup. apply fmap_is_Some.
  - apply resetMetricsTick_metadata.
  - intros k m. rewrite resetMetricsTick_lookup.
    destruct (metrics t !! k) as [m0|]; [|done]. by intros [= <-].
  - apply Tracker_ext.
    + by destruct (resetMetricsTick_config (resetMetricsTick t)) as [-> _].
    + by destruct (resetMetricsTick_config (resetMetricsTick t)) as [_ ->].
    + intros k. rewrite !resetMetricsTick_lookup.
      destruct (metrics t !! k) as [m|]; [|done].
      cbn [fmap option_fmap option_map]. by rewrite Reset_idempotent.
    + apply resetMetricsTick_metadata.
Qed.

Lemma reset_tick_spec_witness :
  ErrorRate <$>
    metrics (resetMetricsTick
               (RecordUpstreamFailure "A" "n" "m" sampleTracker))
      !! TripletKey "A" "n" "m" = Some float64_zero.
Proof.
  destruct (reset_tick_spec (RecordUpstreamFailure "A" "n" "m" sampleTracker))
    as (_ & _ & Hrate & _).
  destruct (metrics (resetMetricsTick
                       (RecordUpstreamFailure "A" "n" "m" sampleTracker))
              !! TripletKey "A" "n" "m") as [m|] eqn:Hm.
  - change (Some (ErrorRate m) = Some float64_zero).
    destruct (Hrate _ _ Hm) as [-> _]. reflexivity.
  - vm_compute in Hm. discriminate Hm.
Defined.

(** ** Records of one upstream *)

(** X12.  [GetUpstreamMetrics upsId] only reads the store.  Every entry of
    its result is a stored record of [upsId], filed under "network|method";
    every stored record of [upsId] has an entry under its "network|method",
    which is that very record whenever no other record of [upsId] has the
    same "network|method" string; and the result is empty when the store
    has no record of [upsId]. *)
Theorem GetUpstreamMetrics_spec (upsId : string) (t : Tracker) :
  let res := GetUpstreamMetrics upsId t in
  (∀ s tm, res !! s = Some tm →
     ∃ k, metrics t !! k = Some tm ∧ tk_ups k = upsId ∧ s = upstreamSuffix k) ∧
  (∀ k tm, metrics t !! k = Some tm → tk_ups k = upsId →
     is_Some (res !! upstreamSuffix k) ∧
     ((∀ k' tm', metrics t !! k' = Some tm' → tk_ups k' = upsId →
                 upstreamSuffix k' = upstreamSuffix k → k' = k) →
      res !! upstreamSuffix k = Some tm)) ∧
  ((∀ k tm, metrics t !! k = Some tm → tk_ups k ≠ upsId) → res = ∅).
Proof.
  cbn zeta. unfold GetUpstreamMetrics, Range.
  apply (map_fold_weak_ind
           (λ (res : gmap string TrackedMetrics)
              (m : gmap tripletKey TrackedMetrics),
              (∀ s tm, res !! s = Some tm →
                 ∃ k, m !! k = Some tm ∧ tk_ups k = upsId
                      ∧ s = upstreamSuffix k) ∧
              (∀ k tm, m !! k = Some tm → tk_ups k = upsId →
                 is_Some (res !! upstreamSuffix k) ∧
                 ((∀ k' tm', m !! k' = Some tm' → tk_ups k' = upsId →
                             upstreamSuffix k' = upstreamSuffix k → k' = k) →
                  res !! upstreamSuffix k = Some tm)) ∧
              ((∀ k tm, m !! k = Some tm → tk_ups k ≠ upsId) → res = ∅))).
  - split; [|split; [|done]].
    + intros s tm. by rewrite lookup_empty.
    + intros k tm. by rewrite lookup_empty.
  - intros i x m res Hi (Hsound & Hcompl & Hempty).
    fold (upstreamSuffix i).
    destruct (decide (tk_ups i = upsId)) as [Hu|Hu].
    + split; [|split].
      * intros s tm. rewrite lookup_insert. case_decide as Hs.
        -- intros [= <-]. exists i. by rewrite lookup_insert_eq.
        -- intros Hres. destruct (Hsound s tm Hres) as (k & Hk & Hku & ->).
           exists k. split; [|done]. rewrite lookup_insert_ne; [done|].
           intros ->. congruence.
      * intros k tm. rewrite lookup_insert. case_decide as Hik.
        -- intros [= <-] _. subst k. rewrite lookup_insert_eq. eauto.
        -- intros Hk Hku. destruct (Hcompl k tm Hk Hku) as [Hsome Huniq].
           split.
           ++ rewrite lookup_insert. case_decide; [eauto|done].
           ++ intros Hinj. rewrite lookup_insert_ne.
              ** apply Huniq. intros k' tm' Hk' Hku' Hs.
                 apply (Hinj k' tm'); [|done..].
                 rewrite lookup_insert_ne; [done|]. intros ->. congruence.
              ** intros Hs. apply Hik. apply (Hinj i x); [|done..].
                 by rewrite lookup_insert_eq.
      * intros Hnone. exfalso. apply (Hnone i x); [|done].
        by rewrite lookup_insert_eq.
    + split; [|split].
      * intros s tm Hres. destruct (Hsound s tm Hres) as (k & Hk & Hku & ->).
        exists k. split; [|done]. rewrite lookup_insert_ne; [done|].
        intros ->. congruence.
      * intros k tm. rewrite lookup_insert. case_decide as Hik.
        -- intros [= <-] Hku. subst k. done.
        -- intros Hk Hku. destruct (Hcompl k tm Hk Hku) as [Hsome Huniq].
           split; [done|]. intros Hinj. apply Huniq.
           intros k' tm' Hk' Hku' Hs. apply (Hinj k' tm'); [|done..].
           rewrite lookup_insert_ne; [done|]. intros ->. congruence.
      * intros Hnone. apply Hempty. intros k tm Hk.
        apply (Hnone k tm). rewrite lookup_insert_ne; [done|].
        intros ->. congruence.
Qed.

Lemma GetUpstreamMetrics_spec_witness :
  GetUpstreamMetrics "C" sampleTracker = ∅ ∧
  is_Some (GetUpstreamMetrics "A" sampleTracker !! "n|m"%string).
Proof.
  destruct (GetUpstreamMetrics_spec "C" sampleTracker) as (_ & _ & Hempty).
  destruct (GetUpstreamMetrics_spec "A" sampleTracker) as (_ & Hcompl & _).
  split.
  - apply Hempty. intros k tm Hk Hu.
    assert (is_Some (metrics sampleTracker !! k)) as Hs by eauto.
    apply (run_is_Some _ (NewTracker "p" 60)) in Hs as [[? Hs]|(o & Ho & Hin)].
    + cbn in Hs. by rewrite lookup_empty in Hs.
    + repeat (apply elem_of_cons in Ho as [->|Ho]);
        try (by apply elem_of_nil in Ho);
        cbn [touched getKeys] in Hin;
        repeat (apply elem_of_cons in Hin as [->|Hin]);
        try (by apply elem_of_nil in Hin); discriminate Hu.
  - destruct (Hcompl (TripletKey "A" "n" "m")
                (with_RequestsTotal (Store 1) newTrackedMetrics))
      as [Hsome _]; [vm_compute; reflexivity|reflexivity|].
    exact Hsome.
Defined.

(** ** The stores only grow *)

Lemma cascadeAll_metadata val w (network : string) (ntwBn : Z) (t : Tracker) :
  let r := Range (metrics t) (cascadeAll val w network ntwBn) t in
  (∀ dk, is_Some (metadata t !! dk) → is_Some (metadata r !! dk)) ∧
  (∀ k x, metrics t !! k = Some x → tk_network k = network →
          is_Some (metadata r !! DuoKey (tk_ups k) network)).
Proof.
  cbn zeta. unfold Range.
  apply (map_fold_weak_ind
           (λ r (m : gmap tripletKey TrackedMetrics),
              (∀ dk, is_Some (metadata t !! dk) → is_Some (metadata r !! dk)) ∧
              (∀ k x, m !! k = Some x → tk_network k = network →
                      is_Some (metadata r !! DuoKey (tk_ups k) network)))).
  - split; [done|]. intros k x. by rewrite lookup_empty.
  - intros i x m r Hi [Hkeep Hnew].
    assert (∀ dk, is_Some (metadata r !! dk) →
                  is_Some (metadata (cascadeAll val w network ntwBn i x r)
                             !! dk)) as Hstep.
    { intros dk Hdk. unfold cascadeAll. case_decide; [|done].
      destruct (getMetadata (DuoKey (tk_ups i) network) r) as [md r1] eqn:Hg.
      assert (r1 = (getMetadata (DuoKey (tk_ups i) network) r).2) as ->
        by by rewrite Hg.
      case_decide; [|rewrite atMetrics_metadata]; by apply getMetadata_keeps. }
    split; [intros dk Hdk; by apply Hstep, Hkeep|].
    intros k y. rewrite lookup_insert. case_decide as Hik.
    + intros _ Hn. subst k. unfold cascadeAll. rewrite decide_True by done.
      destruct (getMetadata (DuoKey (tk_ups i) network) r) as [md r1] eqn:Hg.
      assert (r1 = (getMetadata (DuoKey (tk_ups i) network) r).2) as ->
        by by rewrite Hg.
      case_decide; [|rewrite atMetrics_metadata]; apply getMetadata_present.
    + intros Hk Hn. by apply Hstep, (Hnew k y).
Qed.

Lemma getMetadata_keeps_pair (k dk : duoKey) (t t' : Tracker)
    (md : NetworkMetadata) :
  getMetadata k t = (md, t') →
  is_Some (metadata t !! dk) → is_Some (metadata t' !! dk).
Proof.
  intros Hg Hdk. assert (t' = (getMetadata k t).2) as -> by by rewrite Hg.
  by apply getMetadata_keeps.
Qed.

Lemma bump_metadata_keeps (ups network : string) (b : Z) (t : Tracker)
    (dk : duoKey) :
  is_Some (metadata t !! dk) →
  is_Some (metadata (bumpLatest ups network b t).2 !! dk) ∧
  is_Some (metadata (bumpFinalized ups network b t).2 !! dk).
Proof.
  intros Hdk. split.
  - unfold bumpLatest.
    destruct (getMetadata (DuoKey "*" network) t) as [md1 t1] eqn:Hg1.
    pose proof (getMetadata_keeps_pair _ dk _ _ _ Hg1 Hdk) as H1.
    destruct (decide (b > evmLatestBlockNumber md1)).
    + destruct (getMetadata (DuoKey ups network) _) as [md2 t2] eqn:Hg2.
      pose proof (getMetadata_keeps_pair _ dk _ _ _ Hg2
                    (atMetadata_keeps _ dk _ _ H1)) as H2.
      cbn [snd]. case_decide; [by apply atMetadata_keeps|done].
    + destruct (getMetadata (DuoKey ups network) _) as [md2 t2] eqn:Hg2.
      pose proof (getMetadata_keeps_pair _ dk _ _ _ Hg2 H1) as H2.
      cbn [snd]. case_decide; [by apply atMetadata_keeps|done].
  - unfold bumpFinalized.
    destruct (getMetadata (DuoKey ups network) t) as [md1 t1] eqn:Hg1.
    pose proof (getMetadata_keeps_pair _ dk _ _ _ Hg1 Hdk) as H1.
    destruct (getMetadata (DuoKey "*" network) t1) as [md2 t2] eqn:Hg2.
    pose proof (getMetadata_keeps_pair _ dk _ _ _ Hg2 H1) as H2.
    destruct (decide (b > _)); cbn [snd];
      case_decide; repeat apply atMetadata_keeps; done.
Qed.

Lemma Set_metadata_keeps (ups n : string) (b : Z) (t : Tracker) (dk : duoKey) :
  is_Some (metadata t !! dk) →
  is_Some (metadata (SetLatestBlockNumber ups n b t) !! dk) ∧
  is_Some (metadata (SetFinalizedBlockNumber ups n b t) !! dk).
Proof.
  intros Hdk.
  rewrite SetLatestBlockNumber_unfold, SetFinalizedBlockNumber_unfold.
  destruct (decide (b ≤ 0)); [done|]. cbn zeta.
  destruct (bump_metadata_keeps ups n b t dk Hdk) as [HL HF].
  split.
  - destruct (decide (latestMark _ _ ≤ 0)); [done|].
    destruct (bumpLatest ups n b t).1.
    + by apply cascadeAll_metadata.
    + destruct (cascadeOne_spec with_BlockHeadLag ups n
                  (sub64 (latestMark (DuoKey "*" n) (bumpLatest ups n b t).2)
                     (latestMark (DuoKey ups n) (bumpLatest ups n b t).2))
                  (bumpLatest ups n b t).2) as [-> _].
      done.
  - destruct (decide (finalizedMark _ _ ≤ 0)); [done|].
    destruct (bumpFinalized ups n b t).1.
    + by apply cascadeAll_metadata.
    + destruct (cascadeOne_spec with_FinalizationLag ups n
                  (sub64 (finalizedMark (DuoKey "*" n)
                            (bumpFinalized ups n b t).2)
                     (finalizedMark (DuoKey ups n) (bumpFinalized ups n b t).2))
                  (bumpFinalized ups n b t).2) as [-> _].
      done.
Qed.

Lemma Set_latest_creates_metadata (ups n : string) (b : Z) (t : Tracker) :
  0 < b → latestMark (DuoKey "*" n) t < b →
  ∀ k x, metrics t !! k = Some x → tk_network k = n →
         is_Some (metadata (SetLatestBlockNumber ups n b t)
                    !! DuoKey (tk_ups k) n).
Proof.
  intros Hb Hadv k x Hk Hn. rewrite SetLatestBlockNumber_unfold.
  rewrite decide_False by lia. cbn zeta.
  destruct (bumpLatest_spec ups n b t) as (Hm & Hg & Hl & _).
  rewrite decide_False
    by (rewrite Hl, decide_True by (by left); lia).
  rewrite Hg, bool_decide_eq_true_2 by lia.
  eapply cascadeAll_metadata; [|done]. rewrite Hm. done.
Qed.

(** X13.  No operation removes a record: along any history every metric
    record and every head-metadata record that exists stays in its store.
    A global advance of the latest mark of network [n] moreover leaves a
    head-metadata record for the upstream of every metric record on [n],
    created with mark 0 for the upstreams that never reported. *)
Theorem stores_only_grow (ops : list op) (t : Tracker) :
  (∀ k, is_Some (metrics t !! k) → is_Some (metrics (run ops t) !! k)) ∧
  (∀ dk, is_Some (metadata t !! dk) → is_Some (metadata (run ops t) !! dk)) ∧
  (∀ ups n b, 0 < b → latestMark (DuoKey "*" n) t < b →
     ∀ k x, metrics t !! k = Some x → tk_network k = n →
       is_Some (metadata (SetLatestBlockNumber ups n b t)
                  !! DuoKey (tk_ups k) n) ∧
       (metadata t !! DuoKey (tk_ups k) n = None → tk_ups k ≠ ups →
        tk_ups k ≠ "*"%string →
        latestMark (DuoKey (tk_ups k) n) (SetLatestBlockNumber ups n b t)
          = 0)).
Proof.
  split; [|split].
  - intros k Hk. apply run_is_Some. by left.
  - induction ops as [|o ops IH] using rev_ind; [done|].
    intros dk Hdk. rewrite run_snoc. specialize (IH dk Hdk).
    pose proof (step_metadata (run ops t) o) as Hmd.
    destruct o; cbn [step] in *; try exact IH; try (by rewrite Hmd).
    + by apply Set_metadata_keeps.
    + by apply Set_metadata_keeps.
  - intros ups n b Hb Hadv k x Hk Hn.
    split; [by eapply Set_latest_creates_metadata|].
    intros Hnone Hu Hw. rewrite SetLatestBlockNumber_latestMark.
    rewrite decide_False.
    + unfold latestMark, loadMetadata. by rewrite Hnone.
    + intros [_ [Heq|Heq]]; simplify_eq.
Qed.

Lemma stores_only_grow_witness :
  let t := RecordUpstreamRequest "B" "n" "m" (NewTracker "p" 60) in
  is_Some (metadata (SetLatestBlockNumber "A" "n" 150 t) !! DuoKey "B" "n") ∧
  latestMark (DuoKey "B" "n") (SetLatestBlockNumber "A" "n" 150 t) = 0.
Proof.
  cbn zeta.
  destruct (stores_only_grow []
              (RecordUpstreamRequest "B" "n" "m" (NewTracker "p" 60)))
    as (_ & _ & Hnew).
  destruct (Hnew "A" "n" 150 ltac:(lia) ltac:(vm_compute; reflexivity)
              (TripletKey "B" "n" "m")
              (with_RequestsTotal (Store 1) newTrackedMetrics))
    as [Hsome Hzero]; [vm_compute; reflexivity|reflexivity|].
  split; [exact Hsome|].
  apply Hzero; [vm_compute; reflexivity|discriminate|discriminate].
Defined.

(** ** Repeated reports *)

Section lag_again.
Context (w : (Z → Z) → TrackedMetrics → TrackedMetrics).
Context (mark : duoKey → Z).
Hypothesis w_store : ∀ v v' m, w (Store v) (w (Store v') m) = w (Store v) m.

Lemma lagOne_after_lagAll (ups network : string) (k : tripletKey)
    (m : TrackedMetrics) :
  0 < mark (DuoKey ups network) →
  lagOne w mark ups network k (lagAll w mark network k m)
    = lagAll w mark network k m.
Proof.
  intros Hpos. unfold lagOne, lagAll.
  destruct (decide (tk_ups k = ups ∧ tk_network k = network))
    as [[Hu Hn]|Hk]; [|done].
  rewrite decide_True by done. rewrite Hu.
  rewrite decide_False by lia. by rewrite w_store.
Qed.

Lemma lagOne_after_lagOne (ups network : string) (k : tripletKey)
    (m : TrackedMetrics) :
  lagOne w mark ups network k (lagOne w mark ups network k m)
    = lagOne w mark ups network k m.
Proof. unfold lagOne. case_decide; [|done]. by rewrite w_store. Qed.
End lag_again.

Lemma lagAll_ext w (mark mark' : duoKey → Z) network k m :
  (∀ dk, mark dk = mark' dk) →
  lagAll w mark network k m = lagAll w mark' network k m.
Proof. intros H. unfold lagAll. by rewrite !H. Qed.

Lemma lagOne_ext w (mark mark' : duoKey → Z) ups network k m :
  (∀ dk, mark dk = mark' dk) →
  lagOne w mark ups network k m = lagOne w mark' ups network k m.
Proof. intros H. unfold lagOne. by rewrite !H. Qed.

Lemma with_BlockHeadLag_store v v' m :
  with_BlockHeadLag (Store v) (with_BlockHeadLag (Store v') m)
    = with_BlockHeadLag (Store v) m.
Proof. by destruct m. Qed.

Lemma with_FinalizationLag_store v v' m :
  with_FinalizationLag (Store v) (with_FinalizationLag (Store v') m)
    = with_FinalizationLag (Store v) m.
Proof. by destruct m. Qed.

(** X14.  Reporting the same block number twice in a row is the same as
    reporting it once: the second call of [SetLatestBlockNumber] (or of
    [SetFinalizedBlockNumber]) with the same arguments changes no mark and
    no metric record. *)
Theorem repeated_report_idempotent (ups n : string) (b : Z) (t : Tracker) :
  (let t1 := SetLatestBlockNumber ups n b t in
   let t2 := SetLatestBlockNumber ups n b t1 in
   (∀ dk, latestMark dk t2 = latestMark dk t1 ∧
          finalizedMark dk t2 = finalizedMark dk t1) ∧
   (∀ k, metrics t2 !! k = metrics t1 !! k)) ∧
  (let t1 := SetFinalizedBlockNumber ups n b t in
   let t2 := SetFinalizedBlockNumber ups n b t1 in
   (∀ dk, latestMark dk t2 = latestMark dk t1 ∧
          finalizedMark dk t2 = finalizedMark dk t1) ∧
   (∀ k, metrics t2 !! k = metrics t1 !! k)).
Proof.
  cbn zeta. destruct (decide (0 < b)) as [Hb|Hb].
  2: { destruct (Set_nonpositive_id ups n b t) as [E1 E2]; [lia|].
       by rewrite !E1, !E2. }
  split.
  - destruct (SetLatestBlockNumber_spec ups n b t Hb) as (Hl1 & _ & Hr1).
    set (t1 := SetLatestBlockNumber ups n b t) in *.
    destruct (SetLatestBlockNumber_spec ups n b t1 Hb) as (Hl2 & Hf2 & Hr2).
    set (t2 := SetLatestBlockNumber ups n b t1) in *.
    assert (∀ dk, latestMark dk t2 = latestMark dk t1) as Hsame.
    { intros dk. rewrite Hl2, Hl1. repeat case_decide; lia. }
    split; [intros dk; by rewrite Hsame, Hf2|].
    assert (0 < latestMark (DuoKey ups n) t1) as Hpos.
    { rewrite Hl1, decide_True by (by right). lia. }
    assert (¬ b > latestMark (DuoKey "*" n) t1) as Hno.
    { rewrite Hl1, decide_True by (by left). lia. }
    intros k. rewrite Hr2, (decide_False (P := b > _)) by done.
    rewrite Hr1. clear Hr1 Hr2.
    destruct (metrics t !! k) as [m|]; [|done].
    cbn [fmap option_fmap option_map]. f_equal.
    rewrite (lagOne_ext _ _ (λ dk, latestMark dk t1)) by done.
    destruct (decide (b > latestMark (DuoKey "*" n) t)).
    + apply lagOne_after_lagAll;
        [apply with_BlockHeadLag_store|done].
    + apply lagOne_after_lagOne. apply with_BlockHeadLag_store.
  - destruct (SetFinalizedBlockNumber_spec ups n b t Hb) as (Hf1 & _ & Hr1).
    set (t1 := SetFinalizedBlockNumber ups n b t) in *.
    destruct (SetFinalizedBlockNumber_spec ups n b t1 Hb) as (Hf2 & Hl2 & Hr2).
    set (t2 := SetFinalizedBlockNumber ups n b t1) in *.
    assert (∀ dk, finalizedMark dk t2 = finalizedMark dk t1) as Hsame.
    { intros dk. rewrite Hf2, Hf1. repeat case_decide; lia. }
    split; [intros dk; by rewrite Hsame, Hl2|].
    assert (0 < finalizedMark (DuoKey ups n) t1) as Hpos.
    { rewrite Hf1, decide_True by (by right). lia. }
    assert (¬ b > finalizedMark (DuoKey "*" n) t1) as Hno.
    { rewrite Hf1, decide_True by (by left). lia. }
    intros k. rewrite Hr2, (decide_False (P := b > _)) by done.
    rewrite Hr1. clear Hr1 Hr2.
    destruct (metrics t !! k) as [m|]; [|done].
    cbn [fmap option_fmap option_map]. f_equal.
    rewrite (lagOne_ext _ _ (λ dk, finalizedMark dk t1)) by done.
    destruct (decide (b > finalizedMark (DuoKey "*" n) t)).
    + apply lagOne_after_lagAll;
        [apply with_FinalizationLag_store|done].
    + apply lagOne_after_lagOne. apply with_FinalizationLag_store.
Qed.

(** ** Throttled rate *)

Lemma countOf_snoc (e x : traffic) (l : list traffic) :
  countOf e (l ++ [x]) = countOf e l + (if decide (x = e) then 1 else 0).
Proof.
  unfold countOf. rewrite filter_app, length_app, filter_cons, filter_nil.
  case_decide; cbn [length]; lia.
Qed.

Lemma countOf_bounds (e : traffic) (l : list traffic) :
  0 ≤ countOf e l ≤ Z.of_nat (length l).
Proof.
  unfold countOf. pose proof (length_filter (λ x, x = e) l). lia.
Qed.

Lemma trafficOps_counters (p : string) (w : Z) (u n m : string)
    (l : list traffic) :
  u ≠ "*"%string → n ≠ "*"%string → m ≠ "*"%string →
  let t := run (trafficOps u n m l) (NewTracker p w) in
  let tm := default newTrackedMetrics (metrics t !! TripletKey u n m) in
  RequestsTotal tm = wrap64 (countOf Request l) ∧
  SelfRateLimitedTotal tm = wrap64 (countOf SelfLimited l) ∧
  RemoteRateLimitedTotal tm = wrap64 (countOf RemoteLimited l).
Proof.
  intros Hu Hn Hm. cbn zeta.
  induction l as [|x l (IHr & IHs & IHm)] using rev_ind; [done|].
  unfold trafficOps in *. rewrite map_app. cbn [map].
  rewrite run_snoc, !countOf_snoc.
  assert (TripletKey u n m ∈ getKeys u n m) as Hin by (by left).
  destruct x; cbn [step].
  - unfold RecordUpstreamRequest. rewrite forKeys_getKeys_spec by done.
    rewrite decide_True by done.
    cbn [from_option id RequestsTotal SelfRateLimitedTotal
           RemoteRateLimitedTotal with_RequestsTotal].
    unfold Add, add64. rewrite IHr, IHs, IHm, wrap64_add_l.
    repeat case_decide; simplify_eq; by rewrite ?Z.add_0_r.
  - unfold RecordUpstreamSelfRateLimited.
    rewrite forKeys_getKeys_spec by done. rewrite decide_True by done.
    cbn [from_option id RequestsTotal SelfRateLimitedTotal
           RemoteRateLimitedTotal with_SelfRateLimitedTotal].
    unfold Add, add64. rewrite IHr, IHs, IHm, wrap64_add_l.
    repeat case_decide; simplify_eq; by rewrite ?Z.add_0_r.
  - unfold RecordUpstreamRemoteRateLimited.
    rewrite forKeys_getKeys_spec by done. rewrite decide_True by done.
    cbn [from_option id RequestsTotal SelfRateLimitedTotal
           RemoteRateLimitedTotal with_RemoteRateLimitedTotal].
    unfold Add, add64. rewrite IHr, IHs, IHm, wrap64_add_l.
    repeat case_decide; simplify_eq; by rewrite ?Z.add_0_r.
Qed.

Lemma countOf_total (l : list traffic) :
  countOf Request l + countOf SelfLimited l + countOf RemoteLimited l
  = Z.of_nat (length l).
Proof.
  unfold countOf. induction l as [|x l IH]; [done|].
  rewrite !filter_cons.
  destruct x; repeat case_decide; simplify_eq; cbn [length]; lia.
Qed.

(** The throttled rate of a record whose counters are below 2^53 is a
    float64 nearest to the rational (remote + self) / requests: the sum of
    the two converted counters is exact. *)
Lemma ThrottledRate_nearest (tm : TrackedMetrics) :
  0 ≤ RemoteRateLimitedTotal tm → 0 ≤ SelfRateLimitedTotal tm →
  RemoteRateLimitedTotal tm + SelfRateLimitedTotal tm < 2 ^ 53 →
  0 < RequestsTotal tm < 2 ^ 53 →
  float64_nearest (RemoteRateLimitedTotal tm + SelfRateLimitedTotal tm)
    (RequestsTotal tm) (ThrottledRate tm).
Proof.
  intros Hx Hs Hsum Hr. unfold ThrottledRate.
  rewrite decide_False by lia. cbn zeta.
  rewrite float64_add_exact by done.
  apply float64_div_nearest; lia.
Qed.

(** X15.  After any sequential history of requests and of self- and
    remote-rate-limited events on a fixed concrete triplet of a new tracker
    (shorter than 2^63), the three counters of its record are the numbers
    of those events, and [ThrottledRate] is exactly 0 without request and
    otherwise the [float64] quotient of the [float64] sum of the
    remote and self counts by the number of requests; for a history
    shorter than 2^53 that sum is exact and the quotient is a float64
    nearest to the rational (remote + self) / requests. *)
Theorem ThrottledRate_spec (p : string) (w : Z) (u n m : string)
    (l : list traffic) :
  u ≠ "*"%string → n ≠ "*"%string → m ≠ "*"%string →
  Z.of_nat (length l) ≤ max_int64 →
  let t := run (trafficOps u n m l) (NewTracker p w) in
  let tm := (GetUpstreamMethodMetrics u n m t).1 in
  RequestsTotal tm = countOf Request l ∧
  SelfRateLimitedTotal tm = countOf SelfLimited l ∧
  RemoteRateLimitedTotal tm = countOf RemoteLimited l ∧
  (countOf Request l = 0 → ThrottledRate tm = float64_zero) ∧
  (0 < countOf Request l →
   ThrottledRate tm =
     float64_div
       (float64_add (float64_of_int64 (countOf RemoteLimited l))
                    (float64_of_int64 (countOf SelfLimited l)))
       (float64_of_int64 (countOf Request l))) ∧
  (0 < countOf Request l → Z.of_nat (length l) < 2 ^ 53 →
   float64_nearest (countOf RemoteLimited l + countOf SelfLimited l)
     (countOf Request l) (ThrottledRate tm)).
Proof.
  intros Hu Hn Hm Hlen. cbn zeta.
  unfold GetUpstreamMethodMetrics. rewrite getMetrics_fst.
  destruct (trafficOps_counters p w u n m l Hu Hn Hm) as (Hr & Hs & Hx).
  cbn zeta in Hr, Hs, Hx.
  pose proof (countOf_bounds Request l).
  pose proof (countOf_bounds SelfLimited l).
  pose proof (countOf_bounds RemoteLimited l).
  pose proof (countOf_total l) as Htotal.
  rewrite wrap64_id in Hr
    by (unfold int64_range, min_int64, max_int64 in *; lia).
  rewrite wrap64_id in Hs
    by (unfold int64_range, min_int64, max_int64 in *; lia).
  rewrite wrap64_id in Hx
    by (unfold int64_range, min_int64, max_int64 in *; lia).
  split; [done|]. split; [done|]. split; [done|].
  split; [|split].
  - intros Hc. unfold ThrottledRate. rewrite Hr. by rewrite decide_True.
  - intros Hc. unfold ThrottledRate. rewrite Hr, Hs, Hx.
    by rewrite decide_False by lia.
  - intros Hc Hl. rewrite <- Hr, <- Hs, <- Hx.
    apply ThrottledRate_nearest; lia.
Qed.

Lemma ThrottledRate_spec_witness :
  let rate l :=
    ThrottledRate
      (GetUpstreamMethodMetrics "x" "eth" "eth_call"
         (run (trafficOps "x" "eth" "eth_call" l) (NewTracker "p" 60))).1 in
  rate [Request; SelfLimited; Request; RemoteLimited; Request; Request]
    = S754_finite false 4503599627370496 (-53) ∧
  rate [Request; SelfLimited; Request; Request]
    = S754_finite false 6004799503160661 (-54) ∧
  float64_nearest 1 3 (rate [Request; SelfLimited; Request; Request]) ∧
  rate [RemoteLimited; Request; SelfLimited; RemoteLimited]
    = S754_finite false 6755399441055744 (-51) ∧
  rate [SelfLimited; RemoteLimited] = float64_zero ∧
  rate [Request] = float64_zero.
Proof.
  cbn zeta.
  assert (Z.of_nat 1 ≤ max_int64) as H1 by (vm_compute; discriminate).
  assert (Z.of_nat 2 ≤ max_int64) as H2 by (vm_compute; discriminate).
  assert (Z.of_nat 4 ≤ max_int64) as H4 by (vm_compute; discriminate).
  assert (Z.of_nat 6 ≤ max_int64) as H6 by (vm_compute; discriminate).
  destruct (ThrottledRate_spec "p" 60 "x" "eth" "eth_call"
              [Request; SelfLimited; Request; RemoteLimited; Request; Request]
              ltac:(discriminate) ltac:(discriminate) ltac:(discriminate) H6)
    as (_ & _ & _ & _ & Hhalf & _).
  destruct (ThrottledRate_spec "p" 60 "x" "eth" "eth_call"
              [Request; SelfLimited; Request; Request]
              ltac:(discriminate) ltac:(discriminate) ltac:(discriminate) H4)
    as (_ & _ & _ & _ & Hthird & Hnear).
  destruct (ThrottledRate_spec "p" 60 "x" "eth" "eth_call"
              [RemoteLimited; Request; SelfLimited; RemoteLimited]
              ltac:(discriminate) ltac:(discriminate) ltac:(discriminate) H4)
    as (_ & _ & _ & _ & Hthree & _).
  destruct (ThrottledRate_spec "p" 60 "x" "eth" "eth_call"
              [SelfLimited; RemoteLimited]
              ltac:(discriminate) ltac:(discriminate) ltac:(discriminate) H2)
    as (_ & _ & _ & Hnone & _).
  destruct (ThrottledRate_spec "p" 60 "x" "eth" "eth_call" [Request]
              ltac:(discriminate) ltac:(discriminate) ltac:(discriminate) H1)
    as (_ & _ & _ & _ & Hzero & _).
  split; [|split; [|split; [|split; [|split]]]].
  - rewrite Hhalf by (vm_compute; reflexivity). vm_compute. reflexivity.
  - rewrite Hthird by (vm_compute; reflexivity). vm_compute. reflexivity.
  - apply Hnear; vm_compute; reflexivity.
  - rewrite Hthree by (vm_compute; reflexivity). vm_compute. reflexivity.
  - apply Hnone. vm_compute. reflexivity.
  - rewrite Hzero by (vm_compute; reflexivity). vm_compute. reflexivity.
Defined.
